(** * Data probes of Nalu: DataProbePostProcessing.C

    A shallow embedding of [sierra::nalu::DataProbePostProcessing] and the
    properties of its loader, ownership partition, node creation, geometry
    placement and periodic sampler.

    Conventions of the embedding:
    - [int] is a 32-bit two's complement integer and [size_t] a 64-bit
      unsigned one; both are carried as [Z] with the wrap-around written
      out ([to_int], [to_size_t]);
    - [double] is IEEE binary64, carried as Rocq's primitive [float];
    - [std::vector] is a [list]; [v[i] = x] is stdpp's [<[i:=x]> v] and
      [v[i]] is [v !!! i];
    - a C++ exception is the [Throw] outcome of a state-and-exception
      monad: the state reached when the exception left is kept, since the
      objects written so far stay written. *)

From Stdlib Require Import ZArith Floats Lia.
From stdpp Require Import base list strings gmap.

Open Scope string_scope.
Open Scope list_scope.
Open Scope Z_scope.

(* ===================================================================== *)
(** * Machine arithmetic *)
(* ===================================================================== *)

Module Machine.

Definition INT_MAX : Z := 2 ^ 31 - 1.

(** Conversion to [int]: reduction modulo 2^32 into [-2^31, 2^31). *)
Definition to_int (z : Z) : Z := (z + 2 ^ 31) mod 2 ^ 32 - 2 ^ 31.

(** Conversion to [size_t]: reduction modulo 2^64. *)
Definition to_size_t (z : Z) : Z := z mod 2 ^ 64.

(** [(double)n] for an [int] or a [size_t] below 2^63. *)
Definition to_double (z : Z) : float :=
  if z <? 0 then PrimFloat.opp (PrimFloat.of_uint63 (Uint63.of_Z (- z)))
  else PrimFloat.of_uint63 (Uint63.of_Z z).

End Machine.
Export Machine.

(* ===================================================================== *)
(** * Exceptions and state *)
(* ===================================================================== *)

Inductive result (A : Type) : Type :=
| Ok (a : A)
| Throw (what : string).
Arguments Ok {A} a.
Arguments Throw {A} what.

Definition is_Throw {A} (r : result A) : bool :=
  match r with Ok _ => false | Throw _ => true end.

(** A computation over a mutable object of type [St] that may throw. *)
Definition Exc (St A : Type) : Type := St -> St * result A.

Definition ret {St A} (a : A) : Exc St A := fun s => (s, Ok a).

Definition bind {St A B} (c : Exc St A) (k : A -> Exc St B) : Exc St B :=
  fun s => match c s with
           | (s', Ok a) => k a s'
           | (s', Throw w) => (s', Throw w)
           end.

Definition throw {St A} (what : string) : Exc St A := fun s => (s, Throw what).

Definition modify {St} (f : St -> St) : Exc St unit := fun s => (f s, Ok tt).

Definition gets {St A} (f : St -> A) : Exc St A := fun s => (s, Ok (f s)).

(** A call of an external function that may throw and has no access to the
    object. *)
Definition call {St A} (r : result A) : Exc St A := fun s => (s, r).

Declare Scope exc_scope.
Delimit Scope exc_scope with exc.
Notation "x <- c ;; k" := (bind c (fun x => k))
  (at level 100, c at next level, right associativity) : exc_scope.
Notation "c ;; k" := (bind c (fun _ => k))
  (at level 100, right associativity) : exc_scope.
Open Scope exc_scope.

(** [for (size_t i = start; i < v.size(); ++i) body(i, v[i])]. *)
Fixpoint for_each {St A} (body : nat -> A -> Exc St unit) (i : nat) (v : list A)
  : Exc St unit :=
  match v with
  | [] => ret tt
  | x :: v' => body i x ;; for_each body (S i) v'
  end.

(** [throws c]: whatever the state, [c] leaves by an exception. *)
Definition throws {St A} (c : Exc St A) : Prop :=
  forall s, exists s' w, c s = (s', Throw w).

(** [preserves obs c]: [c] keeps the observation [obs] of the state, also
    when it throws. *)
Definition preserves {St A T} (obs : St -> T) (c : Exc St A) : Prop :=
  forall s, obs (c s).1 = obs s.

(** [std::vector<T>(n)] and [v.resize(n)] with [n] an [int]: the count is
    converted to [size_t], and a negative one lands above [max_size()], so
    that the library throws [std::length_error]. Memory does not run out
    here: a count that is not negative always gives the vector, where the
    library throws [std::bad_alloc] when the allocation fails. *)
Definition vector_resize {A} (n : Z) (dflt : A) (v : list A) : result (list A) :=
  if n <? 0 then Throw "std::length_error"
  else Ok (resize (Z.to_nat n) dflt v).

(* ===================================================================== *)
(** * Ownership partition (load, lines 132-139) *)
(* ===================================================================== *)

(** [const int probePerProc = numProcs > numProbes ? 1 : numProbes / numProcs;] *)
Definition probePerProc (numProcs numProbes : Z) : Z :=
  if numProcs >? numProbes then 1 else to_int (Z.quot numProbes numProcs).

(** [(ilos + probePerProc)/probePerProc - 1], with [ilos] a [size_t]: the
    [int] operand is converted to [size_t], the arithmetic is unsigned, and
    the result is stored into an [int]. *)
Definition processorId (ilos : nat) (probePerProc : Z) : Z :=
  let ilos := to_size_t (Z.of_nat ilos) in
  let ppp := to_size_t probePerProc in
  to_int (to_size_t (to_size_t (ilos + ppp) / ppp - 1)).

(** The owning rank of probe [i] among [numProbes] probes on [numProcs]
    ranks. *)
Definition owningRank (numProcs numProbes : Z) (i : nat) : Z :=
  processorId i (probePerProc numProcs numProbes).

(* ===================================================================== *)
(** * External collaborators of the loader *)
(* ===================================================================== *)

(** [YAML::NodeType::value]. *)
Inductive NodeType : Set := NullNode | ScalarNode | SequenceNode | MapNode.

(** Modelled from the spec: [sierra::nalu::Coordinates] is declared in
    NaluParsing.h, which is not part of the sources; a tip or a tail is a
    3-vector, read here through [x_], [y_] and [z_]. *)
Record Coordinates : Set := mkCoordinates { x_ : float; y_ : float; z_ : float }.

(** The part of yaml-cpp and of NaluParsing that [load] calls.  The parser
    is not part of the sources: [load] is embedded against this interface
    and its properties hold for every implementation of it.
    - [FindValue n key] is [n.FindValue(key)], [None] being the null
      pointer;
    - [GetValue n key] is [n[key]], which throws when the key is absent;
    - [items n] lists [n[0]], ..., [n[n.size()-1]];
    - [read_string], [read_int], [read_Coordinates] are [operator>>] into a
      [std::string], an [int] and a [Coordinates];
    - [expect_sequence n key optional] is NaluParsing's helper of that name:
      it returns a pointer to the sequence under [key], or null, or
      throws. *)
Class YamlApi (Node : Type) : Type := {
  FindValue : Node -> string -> option Node;
  GetValue : Node -> string -> result Node;
  NodeType_of : Node -> NodeType;
  items : Node -> list Node;
  read_string : Node -> result string;
  read_int : Node -> result Z;
  read_Coordinates : Node -> result Coordinates;
  expect_sequence : Node -> string -> bool -> result (option Node)
}.

(** Modelled from the spec: [NaluEnv] is not part of the sources;
    [NaluEnv::self()] gives the number of ranks of the run and the rank of
    this process. *)
Record NaluEnv : Set := mkNaluEnv { parallel_size : Z; parallel_rank : Z }.

(* ===================================================================== *)
(** * Data model (DataProbePostProcessing.h) *)
(* ===================================================================== *)

(** [stk::mesh::EntityId], [stk::mesh::Entity] (a handle, identified here
    with the identifier it was declared with) and [stk::mesh::Part]
    (identified with its name). *)
Definition EntityId : Set := Z.
Definition Entity : Set := Z.
Definition Part : Set := string.

(** Modelled from the spec: [DataProbeInfo] is declared in
    DataProbePostProcessing.h, which is not part of the sources. It holds
    per-probe parallel arrays, with the members and element types the
    source uses. [part_] holds pointers, [None] being the null pointer a
    [resize] fills in. *)
Record DataProbeInfo : Set := mkDataProbeInfo {
  isLineOfSite_ : bool;
  numProbes_ : Z;
  partName_ : list string;
  processorId_ : list Z;
  numPoints_ : list Z;
  tipCoordinates_ : list Coordinates;
  tailCoordinates_ : list Coordinates;
  nodeVector_ : list (list Entity);
  part_ : list (option Part);
  fieldInfo_ : list (string * Z)
}.

(** Modelled from the spec: [DataProbeSpecInfo], declared in the same
    header: a named group that owns its probe sets. *)
Record DataProbeSpecInfo : Set := mkDataProbeSpecInfo {
  xferName_ : string;
  fromTargetNames_ : list string;
  dataProbeInfo_ : list DataProbeInfo
}.

(** Modelled from the spec: the members of [DataProbePostProcessing],
    declared in the same header, other than the reference to the realm.
    [inactiveSelector_] is the union of the parts it lists. *)
Record DataProbePostProcessing : Set := mkDataProbePostProcessing {
  outputFreq_ : Z;
  dataProbeSpecInfo_ : list DataProbeSpecInfo;
  allTheParts_ : list (option Part);
  inactiveSelector_ : list (option Part)
}.

(** [new DataProbeInfo()] and [new DataProbeSpecInfo()]: empty vectors and
    strings; the scalar members are written before they are read. *)
Definition new_DataProbeInfo : DataProbeInfo :=
  mkDataProbeInfo false 0 [] [] [] [] [] [] [] [].

Definition new_DataProbeSpecInfo : DataProbeSpecInfo :=
  mkDataProbeSpecInfo "" [] [].

Definition origin : Coordinates := mkCoordinates 0 0 0.

(** Writes to one member. *)
Definition set_isLineOfSite (b : bool) (p : DataProbeInfo) : DataProbeInfo :=
  mkDataProbeInfo b (numProbes_ p) (partName_ p) (processorId_ p)
    (numPoints_ p) (tipCoordinates_ p) (tailCoordinates_ p) (nodeVector_ p)
    (part_ p) (fieldInfo_ p).
Definition set_numProbes (n : Z) (p : DataProbeInfo) : DataProbeInfo :=
  mkDataProbeInfo (isLineOfSite_ p) n (partName_ p) (processorId_ p)
    (numPoints_ p) (tipCoordinates_ p) (tailCoordinates_ p) (nodeVector_ p)
    (part_ p) (fieldInfo_ p).
Definition set_partName (v : list string) (p : DataProbeInfo) : DataProbeInfo :=
  mkDataProbeInfo (isLineOfSite_ p) (numProbes_ p) v (processorId_ p)
    (numPoints_ p) (tipCoordinates_ p) (tailCoordinates_ p) (nodeVector_ p)
    (part_ p) (fieldInfo_ p).
Definition set_processorId (v : list Z) (p : DataProbeInfo) : DataProbeInfo :=
  mkDataProbeInfo (isLineOfSite_ p) (numProbes_ p) (partName_ p) v
    (numPoints_ p) (tipCoordinates_ p) (tailCoordinates_ p) (nodeVector_ p)
    (part_ p) (fieldInfo_ p).
Definition set_numPoints (v : list Z) (p : DataProbeInfo) : DataProbeInfo :=
  mkDataProbeInfo (isLineOfSite_ p) (numProbes_ p) (partName_ p)
    (processorId_ p) v (tipCoordinates_ p) (tailCoordinates_ p)
    (nodeVector_ p) (part_ p) (fieldInfo_ p).
Definition set_tipCoordinates (v : list Coordinates) (p : DataProbeInfo)
  : DataProbeInfo :=
  mkDataProbeInfo (isLineOfSite_ p) (numProbes_ p) (partName_ p)
    (processorId_ p) (numPoints_ p) v (tailCoordinates_ p) (nodeVector_ p)
    (part_ p) (fieldInfo_ p).
Definition set_tailCoordinates (v : list Coordinates) (p : DataProbeInfo)
  : DataProbeInfo :=
  mkDataProbeInfo (isLineOfSite_ p) (numProbes_ p) (partName_ p)
    (processorId_ p) (numPoints_ p) (tipCoordinates_ p) v (nodeVector_ p)
    (part_ p) (fieldInfo_ p).
Definition set_nodeVector (v : list (list Entity)) (p : DataProbeInfo)
  : DataProbeInfo :=
  mkDataProbeInfo (isLineOfSite_ p) (numProbes_ p) (partName_ p)
    (processorId_ p) (numPoints_ p) (tipCoordinates_ p) (tailCoordinates_ p)
    v (part_ p) (fieldInfo_ p).
Definition set_part (v : list (option Part)) (p : DataProbeInfo)
  : DataProbeInfo :=
  mkDataProbeInfo (isLineOfSite_ p) (numProbes_ p) (partName_ p)
    (processorId_ p) (numPoints_ p) (tipCoordinates_ p) (tailCoordinates_ p)
    (nodeVector_ p) v (fieldInfo_ p).
Definition set_fieldInfo (v : list (string * Z)) (p : DataProbeInfo)
  : DataProbeInfo :=
  mkDataProbeInfo (isLineOfSite_ p) (numProbes_ p) (partName_ p)
    (processorId_ p) (numPoints_ p) (tipCoordinates_ p) (tailCoordinates_ p)
    (nodeVector_ p) (part_ p) v.

Definition set_xferName (n : string) (s : DataProbeSpecInfo) : DataProbeSpecInfo :=
  mkDataProbeSpecInfo n (fromTargetNames_ s) (dataProbeInfo_ s).
Definition set_fromTargetNames (v : list string) (s : DataProbeSpecInfo)
  : DataProbeSpecInfo :=
  mkDataProbeSpecInfo (xferName_ s) v (dataProbeInfo_ s).
Definition set_dataProbeInfo (v : list DataProbeInfo) (s : DataProbeSpecInfo)
  : DataProbeSpecInfo :=
  mkDataProbeSpecInfo (xferName_ s) (fromTargetNames_ s) v.

Definition set_dataProbeSpecInfo (v : list DataProbeSpecInfo)
  (d : DataProbePostProcessing) : DataProbePostProcessing :=
  mkDataProbePostProcessing (outputFreq_ d) v (allTheParts_ d)
    (inactiveSelector_ d).
Definition set_allTheParts (v : list (option Part))
  (d : DataProbePostProcessing) : DataProbePostProcessing :=
  mkDataProbePostProcessing (outputFreq_ d) (dataProbeSpecInfo_ d) v
    (inactiveSelector_ d).
Definition set_inactiveSelector (v : list (option Part))
  (d : DataProbePostProcessing) : DataProbePostProcessing :=
  mkDataProbePostProcessing (outputFreq_ d) (dataProbeSpecInfo_ d)
    (allTheParts_ d) v.

(* ===================================================================== *)
(** * The mesh engine and the realm (external) *)
(* ===================================================================== *)

(** Modelled from the spec: [stk::mesh::MetaData] is not part of the
    sources. It records the declared parts and fields; declaring a part or
    a field that is declared already is a no-op. A part is handed out by
    its name. *)
Record MetaData : Set := mkMetaData {
  spatial_dimension : Z;
  parts : list Part;
  io_parts : list Part;
  fields : list string;
  field_restrictions : list (string * option Part * Z)
}.

Definition declare_part (partName : string) (m : MetaData) : MetaData :=
  if decide (partName ∈ parts m) then m
  else mkMetaData (spatial_dimension m) (parts m ++ [partName]) (io_parts m)
         (fields m) (field_restrictions m).

Definition put_io_part_attribute (part : option Part) (m : MetaData) : MetaData :=
  match part with
  | Some p =>
      if decide (p ∈ io_parts m) then m
      else mkMetaData (spatial_dimension m) (parts m) (io_parts m ++ [p])
             (fields m) (field_restrictions m)
  | None => m
  end.

Definition declare_field (fieldName : string) (m : MetaData) : MetaData :=
  if decide (fieldName ∈ fields m) then m
  else mkMetaData (spatial_dimension m) (parts m) (io_parts m)
         (fields m ++ [fieldName]) (field_restrictions m).

Definition put_field (fieldName : string) (part : option Part) (size : Z)
    (m : MetaData) : MetaData :=
  if decide ((fieldName, part, size) ∈ field_restrictions m) then m
  else mkMetaData (spatial_dimension m) (parts m) (io_parts m) (fields m)
         (field_restrictions m ++ [(fieldName, part, size)]).

(** The calls [initialize] makes on [stk::mesh::BulkData], in the order
    they are made. *)
Inductive BulkCall : Set :=
| GenerateNewIds (numIdsNeeded : Z)
| ModificationBegin
| DeclareEntity (id : EntityId) (part : option Part)
| ModificationEnd.

(** Modelled from the spec: [stk::mesh::BulkData] is not part of the
    sources. It is the log of the calls received and the field storage: the
    writes made through [stk::mesh::field_data], newest first, one per
    field, node and component. A component never written reads as zero. *)
Record BulkData : Set := mkBulkData {
  bulk_calls : list BulkCall;
  field_writes : list (string * Entity * nat * float)
}.

(** The identifiers [generate_new_ids] hands out, given the calls received
    so far and the number requested: the generator belongs to the engine. *)
Class MeshEngine : Type := { fresh_ids : list BulkCall -> Z -> list EntityId }.

Definition record_call (c : BulkCall) (b : BulkData) : BulkData :=
  mkBulkData (bulk_calls b ++ [c]) (field_writes b).

(** [field_data(field, node)[i] = v]. *)
Definition write_field (fieldName : string) (node : Entity) (i : nat)
    (v : float) (b : BulkData) : BulkData :=
  mkBulkData (bulk_calls b) ((fieldName, node, i, v) :: field_writes b).

(** [field_data(field, node)[i]]. *)
Fixpoint read_writes (fieldName : string) (node : Entity) (i : nat)
    (ws : list (string * Entity * nat * float)) : float :=
  match ws with
  | [] => 0%float
  | (f, n, k, v) :: ws' =>
      if decide (f = fieldName /\ n = node /\ k = i) then v
      else read_writes fieldName node i ws'
  end.

Definition read_field (fieldName : string) (node : Entity) (i : nat)
    (b : BulkData) : float :=
  read_writes fieldName node i (field_writes b).

(** Modelled from the spec: [Realm] is not part of the sources; it supplies
    the current time, the step count and the mesh containers. *)
Record Realm : Set := mkRealm {
  current_time : float;
  time_step_count : Z;
  meta_data : MetaData;
  bulk_data : BulkData
}.

(** What [provide_average] writes to [std::cout]. *)
Inductive OutputLine : Set :=
| AverageHeader (currentTime : float) (timeStepCount : float)
| SpecificationName (xferName : string)
| ProbeName (partName : string)
| MeanValue (fieldName : string) (ifs : nat) (value : float).

(** The object, the realm it refers to and the console. *)
Record World : Set := mkWorld {
  this : DataProbePostProcessing;
  realm_ : Realm;
  cout : list OutputLine
}.

(* ===================================================================== *)
(** * The loader: constructor and load (lines 48-205) *)
(* ===================================================================== *)

Section Load.

Context {Node : Type} {yaml : YamlApi Node}.
Variable env : NaluEnv.

(** The two objects a specification entry allocates, [*probeSpec] and
    [*probeInfo]. Both are pushed to their registries when they are
    allocated (lines 85-89), before any key is read, and are written
    through the pointers afterwards. *)
Definition Objects : Type := DataProbeSpecInfo * DataProbeInfo.

Definition on_probeSpec (f : DataProbeSpecInfo -> DataProbeSpecInfo)
  : Exc Objects unit :=
  modify (fun o => (f o.1, o.2)).

Definition on_probeInfo (f : DataProbeInfo -> DataProbeInfo)
  : Exc Objects unit :=
  modify (fun o => (o.1, f o.2)).

(** [probeInfo->member_.resize(numProbes)], [numProbes] an [int]. *)
Definition resize_member {A} (get : DataProbeInfo -> list A)
    (set : list A -> DataProbeInfo -> DataProbeInfo) (n : Z) (dflt : A)
  : Exc Objects unit :=
  fun o => match vector_resize n dflt (get o.2) with
           | Ok v => ((o.1, set v o.2), Ok tt)
           | Throw w => (o, Throw w)
           end.

(** One line-of-site entry: the body of the loop of lines 135-169. *)
Definition load_line_of_site (ppp : Z) (ilos : nat) (y_los : Node)
  : Exc Objects unit :=
  on_probeInfo (fun p =>
    set_processorId (<[ilos := processorId ilos ppp]> (processorId_ p)) p) ;;
  (match FindValue y_los "name" with
   | Some nameNode =>
       v <- call (read_string nameNode) ;;
       on_probeInfo (fun p => set_partName (<[ilos := v]> (partName_ p)) p)
   | None => throw "DataProbePostProcessing: lacking the name"
   end) ;;
  (match FindValue y_los "number_of_points" with
   | Some numPoints =>
       v <- call (read_int numPoints) ;;
       on_probeInfo (fun p => set_numPoints (<[ilos := v]> (numPoints_ p)) p)
   | None => throw "DataProbePostProcessing: lacking number of points"
   end) ;;
  (match FindValue y_los "tip_coordinates" with
   | Some tipCoord =>
       v <- call (read_Coordinates tipCoord) ;;
       on_probeInfo (fun p =>
         set_tipCoordinates (<[ilos := v]> (tipCoordinates_ p)) p)
   | None => throw "DataProbePostProcessing: lacking tip coordinates"
   end) ;;
  (match FindValue y_los "tail_coordinates" with
   | Some tailCoord =>
       v <- call (read_Coordinates tailCoord) ;;
       on_probeInfo (fun p =>
         set_tailCoordinates (<[ilos := v]> (tailCoordinates_ p)) p)
   | None => throw "DataProbePostProcessing: lacking tail coordinates"
   end).

(** Lines 115-169: the branch taken when the sequence is there. *)
Definition load_line_of_site_specifications (y_loss : Node)
  : Exc Objects unit :=
  on_probeInfo (set_isLineOfSite true) ;;
  let numProbes := to_int (Z.of_nat (length (items y_loss))) in
  on_probeInfo (set_numProbes numProbes) ;;
  resize_member partName_ set_partName numProbes "" ;;
  resize_member processorId_ set_processorId numProbes 0 ;;
  resize_member numPoints_ set_numPoints numProbes 0 ;;
  resize_member tipCoordinates_ set_tipCoordinates numProbes origin ;;
  resize_member tailCoordinates_ set_tailCoordinates numProbes origin ;;
  resize_member nodeVector_ set_nodeVector numProbes [] ;;
  resize_member part_ set_part numProbes None ;;
  let numProcs := parallel_size env in
  let ppp := probePerProc numProcs numProbes in
  for_each (load_line_of_site ppp) 0 (items y_loss).

(** One output variable: the body of the loop of lines 178-200. *)
Definition load_output_variable (ioutput : nat) (y_output : Node)
  : Exc Objects unit :=
  let fieldNameNode := FindValue y_output "field_name" in
  let fieldSizeNode := FindValue y_output "field_size" in
  match fieldNameNode with
  | None =>
      throw "DataProbePostProcessing::load() Sorry, field name must be provided"
  | Some fieldNameNode =>
      match fieldSizeNode with
      | None =>
          throw "DataProbePostProcessing::load() Sorry, field size must be provided"
      | Some fieldSizeNode =>
          fieldName <- call (read_string fieldNameNode) ;;
          fieldSize <- call (read_int fieldSizeNode) ;;
          on_probeInfo (fun p =>
            set_fieldInfo
              (fieldInfo_ p ++ [(fieldName +:+ "_probe", fieldSize)]) p)
      end
  end.

(** Lines 91-96: the name of the specification. *)
Definition load_xferName (y_spec : Node) : Exc Objects unit :=
  match FindValue y_spec "name" with
  | Some theName =>
      v <- call (read_string theName) ;; on_probeSpec (set_xferName v)
  | None => throw "DataProbePostProcessing: no name provided"
  end.

(** Lines 100-109: the target names, from a scalar or from a sequence. *)
Definition load_fromTargetNames (fromTargets : Node) : Exc Objects unit :=
  match NodeType_of fromTargets with
  | ScalarNode =>
      on_probeSpec (fun s =>
        set_fromTargetNames (resize 1 "" (fromTargetNames_ s)) s) ;;
      v <- call (read_string fromTargets) ;;
      on_probeSpec (fun s =>
        set_fromTargetNames (<[0%nat := v]> (fromTargetNames_ s)) s)
  | _ =>
      on_probeSpec (fun s =>
        set_fromTargetNames
          (resize (length (items fromTargets)) "" (fromTargetNames_ s)) s) ;;
      for_each (fun i target =>
                  v <- call (read_string target) ;;
                  on_probeSpec (fun s =>
                    set_fromTargetNames (<[i := v]> (fromTargetNames_ s)) s))
               0 (items fromTargets)
  end.

(** Lines 91-201: what is done to the two objects of one entry. *)
Definition load_specification_body (y_spec : Node) : Exc Objects unit :=
  load_xferName y_spec ;;
  fromTargets <- call (GetValue y_spec "from_target_part") ;;
  load_fromTargetNames fromTargets ;;
  y_loss <- call (expect_sequence y_spec "line_of_site_specifications" false) ;;
  (match y_loss with
   | Some y_loss => load_line_of_site_specifications y_loss
   | None =>
       throw "DataProbePostProcessing: only supports line_of_site_specifications"
   end) ;;
  y_outputs <- call (expect_sequence y_spec "output_variables" false) ;;
  match y_outputs with
  | Some y_outputs => for_each load_output_variable 0 (items y_outputs)
  | None => ret tt
  end.

(** What [dataProbeSpecInfo_] holds for an entry: the spec object with the
    info object in its own registry (line 89). *)
Definition registered (o : Objects) : DataProbeSpecInfo :=
  set_dataProbeInfo (dataProbeInfo_ o.1 ++ [o.2]) o.1.

(** One specification entry: the body of the loop of lines 82-202. The
    registry receives the pointer first (line 86); it therefore holds
    whatever the body wrote through [probeSpec] and [probeInfo], also when
    the body throws. *)
Definition load_specification (ispec : nat) (y_spec : Node)
  : Exc DataProbePostProcessing unit :=
  fun self =>
    let probeSpec := new_DataProbeSpecInfo in
    let probeInfo := new_DataProbeInfo in
    let '(o, r) := load_specification_body y_spec (probeSpec, probeInfo) in
    (set_dataProbeSpecInfo (dataProbeSpecInfo_ self ++ [registered o]) self,
     r).

(** [DataProbePostProcessing::load]. The line written to the log of rank
    0 is left out. *)
Definition load (y_node : Node) : Exc DataProbePostProcessing unit :=
  match FindValue y_node "data_probes" with
  | Some y_dataProbe =>
      y_specs <- call (expect_sequence y_dataProbe "specifications" false) ;;
      match y_specs with
      | Some y_specs => for_each load_specification 0 (items y_specs)
      | None => ret tt
      end
  | None => ret tt
  end.

(** The constructor: [realm_(realm)], [outputFreq_(10)], then
    [load(node)]. Nothing has been written to the console yet. *)
Definition constructor (realm : Realm) (y_node : Node) : World * result unit :=
  let '(self, r) := load y_node (mkDataProbePostProcessing 10 [] [] []) in
  (mkWorld self realm [], r).

End Load.

(* ===================================================================== *)
(** * Vocabulary of the loader's properties *)
(* ===================================================================== *)

Section LoadVocabulary.

Context {Node : Type} {yaml : YamlApi Node}.
Variable env : NaluEnv.

(** The two objects as [new] returns them. *)
Definition fresh_objects : Objects :=
  (new_DataProbeSpecInfo, new_DataProbeInfo).

(** What the registry holds for a specification entry once the loop body
    has run on it, and how the body left. Neither depends on the entries
    loaded before. *)
Definition spec_loaded (y_spec : Node) : DataProbeSpecInfo :=
  registered (load_specification_body env y_spec fresh_objects).1.

Definition spec_outcome (y_spec : Node) : result unit :=
  (load_specification_body env y_spec fresh_objects).2.

(** The keys a line-of-site entry must have. *)
Definition line_of_site_keys : list string :=
  ["name"; "number_of_points"; "tip_coordinates"; "tail_coordinates"].

(** A line-of-site entry and an output variable as the document gives
    them. *)
Record LineOfSite : Set := mkLineOfSite {
  los_name : string;
  los_numPoints : Z;
  los_tip : Coordinates;
  los_tail : Coordinates
}.

Definition decodes_line_of_site (y_los : Node) (l : LineOfSite) : Prop :=
  exists nameNode numPoints tipCoord tailCoord,
    FindValue y_los "name" = Some nameNode /\
    read_string nameNode = Ok (los_name l) /\
    FindValue y_los "number_of_points" = Some numPoints /\
    read_int numPoints = Ok (los_numPoints l) /\
    FindValue y_los "tip_coordinates" = Some tipCoord /\
    read_Coordinates tipCoord = Ok (los_tip l) /\
    FindValue y_los "tail_coordinates" = Some tailCoord /\
    read_Coordinates tailCoord = Ok (los_tail l).

Definition decodes_output_variable (y_output : Node) (f : string * Z) : Prop :=
  exists fieldNameNode fieldSizeNode,
    FindValue y_output "field_name" = Some fieldNameNode /\
    FindValue y_output "field_size" = Some fieldSizeNode /\
    read_string fieldNameNode = Ok f.1 /\
    read_int fieldSizeNode = Ok f.2.

(** The target names are readable. *)
Definition decodes_targets (fromTargets : Node) (names : list string) : Prop :=
  match NodeType_of fromTargets with
  | ScalarNode => exists n, read_string fromTargets = Ok n /\ names = [n]
  | _ => Forall2 (fun y n => read_string y = Ok n) (items fromTargets) names
  end.

(** The entries of an optional sequence. *)
Definition optional_items (y : option Node) : list Node :=
  match y with Some y => items y | None => [] end.

(** An entry is rejected when one of its line-of-site entries lacks a key,
    and when it has no line-of-site sequence at all. *)
Definition incomplete (y_spec : Node) : Prop :=
  (exists y_loss y_los key,
      expect_sequence y_spec "line_of_site_specifications" false
      = Ok (Some y_loss) /\
      y_los ∈ items y_loss /\ key ∈ line_of_site_keys /\
      FindValue y_los key = None) \/
  expect_sequence y_spec "line_of_site_specifications" false = Ok None.

(** [arr[i] = v0; arr[i+1] = v1; ...], one write after the other. *)
Fixpoint write_from {A} (i : nat) (vs : list A) (arr : list A) : list A :=
  match vs with
  | [] => arr
  | v :: vs' => write_from (S i) vs' (<[i := v]> arr)
  end.

(** What one iteration of the line-of-site loop writes, and what the
    iterations from [ilos] on write. *)
Definition fill_probe (ppp : Z) (ilos : nat) (l : LineOfSite)
    (p : DataProbeInfo) : DataProbeInfo :=
  set_tailCoordinates (<[ilos := los_tail l]> (tailCoordinates_ p))
    (set_tipCoordinates (<[ilos := los_tip l]> (tipCoordinates_ p))
       (set_numPoints (<[ilos := los_numPoints l]> (numPoints_ p))
          (set_partName (<[ilos := los_name l]> (partName_ p))
             (set_processorId
                (<[ilos := processorId ilos ppp]> (processorId_ p)) p)))).

Fixpoint fill_probes (ppp : Z) (ilos : nat) (ls : list LineOfSite)
    (p : DataProbeInfo) : DataProbeInfo :=
  match ls with
  | [] => p
  | l :: ls' => fill_probes ppp (S ilos) ls' (fill_probe ppp ilos l p)
  end.

(** The field descriptor of a requested output variable. *)
Definition field_descriptor (f : string * Z) : string * Z :=
  (f.1 +:+ "_probe", f.2).

(** The probe set of a specification with the line-of-site entries [ls] and
    the output variables [outs]: one descriptor per entry in each of the
    parallel arrays, one field descriptor per output variable. *)
Definition loaded_info (ls : list LineOfSite) (outs : list (string * Z))
  : DataProbeInfo :=
  let numProbes := Z.of_nat (length ls) in
  mkDataProbeInfo true numProbes
    (map los_name ls)
    (map (owningRank (parallel_size env) numProbes) (seq 0 (length ls)))
    (map los_numPoints ls)
    (map los_tip ls)
    (map los_tail ls)
    (replicate (length ls) [])
    (replicate (length ls) None)
    (map field_descriptor outs).

End LoadVocabulary.

(* ===================================================================== *)
(** * Loops over the registry *)
(* ===================================================================== *)

(** [for (int j = 0; j < n; ++j) body(j)]. *)
Definition for_int {St} (n : Z) (body : nat -> Exc St unit) : Exc St unit :=
  for_each (fun _ j => body j) 0 (seq 0 (Z.to_nat n)).

(** A loop over a vector of pointers whose body writes through the pointer:
    the body runs on the element and the rest of the state, and the element
    keeps what was written to it, also when the body throws. *)
Fixpoint zoom_each {St A} (body : Exc (A * St) unit) (v : list A) (s : St)
  : (list A * St) * result unit :=
  match v with
  | [] => (([], s), Ok tt)
  | x :: v' =>
      match body (x, s) with
      | ((x', s'), Ok _) =>
          let '((v'', s''), r) := zoom_each body v' s' in ((x' :: v'', s''), r)
      | ((x', s'), Throw w) => ((x' :: v', s'), Throw w)
      end
  end.

(** The two outer loops of [setup], [initialize] and
    [create_inactive_selector]: every [DataProbeInfo] of every
    [DataProbeSpecInfo]. *)
Definition each_probeInfo {St} (body : Exc (DataProbeInfo * St) unit)
  : Exc (list DataProbeSpecInfo * St) unit :=
  fun '(specs, s) =>
    zoom_each (fun '(probeSpec, s) =>
                 let '((infos, s'), r) :=
                   zoom_each body (dataProbeInfo_ probeSpec) s in
                 ((set_dataProbeInfo infos probeSpec, s'), r))
              specs s.

(* ===================================================================== *)
(** * setup, initialize, execute (lines 210-496) *)
(* ===================================================================== *)

#[global] Instance float_inhabited : Inhabited float := populate 0%float.
#[global] Instance Coordinates_inhabited : Inhabited Coordinates := populate origin.

Section Lifecycle.

Context {engine : MeshEngine}.
Variable env : NaluEnv.

Definition set_meta_data (m : MetaData) (r : Realm) : Realm :=
  mkRealm (current_time r) (time_step_count r) m (bulk_data r).

Definition set_bulk_data (b : BulkData) (r : Realm) : Realm :=
  mkRealm (current_time r) (time_step_count r) (meta_data r) b.

(** A loop nest that works on the registry and on [realm_.meta_data()]. *)
Definition with_meta (c : Exc (list DataProbeSpecInfo * MetaData) unit)
  : Exc World unit :=
  fun w =>
    let '((specs, m), r) :=
      c (dataProbeSpecInfo_ (this w), meta_data (realm_ w)) in
    (mkWorld (set_dataProbeSpecInfo specs (this w))
       (set_meta_data m (realm_ w)) (cout w), r).

(** A loop nest that works on the registry and on [realm_.bulk_data()]. *)
Definition with_bulk (c : Exc (list DataProbeSpecInfo * BulkData) unit)
  : Exc World unit :=
  fun w =>
    let '((specs, b), r) :=
      c (dataProbeSpecInfo_ (this w), bulk_data (realm_ w)) in
    (mkWorld (set_dataProbeSpecInfo specs (this w))
       (set_bulk_data b (realm_ w)) (cout w), r).

(** ** setup *)

(** Lines 228-232. *)
Definition declare_probe_part (j : nat) : Exc (DataProbeInfo * MetaData) unit :=
  partName <- gets (fun s => partName_ s.1 !!! j) ;;
  modify (fun s => (s.1, declare_part partName s.2)) ;;
  modify (fun s => (set_part (<[j := Some partName]> (part_ s.1)) s.1, s.2)) ;;
  modify (fun s => (s.1, put_io_part_attribute (part_ s.1 !!! j) s.2)).

(** Lines 373-382. *)
Definition register_field (fieldName : string) (fieldSize : Z)
    (part : option Part) (m : MetaData) : MetaData :=
  put_field fieldName part fieldSize (declare_field fieldName m).

(** Lines 249-257. *)
Definition register_probe_fields (nDim : Z) (j : nat)
  : Exc (DataProbeInfo * MetaData) unit :=
  probePart <- gets (fun s => part_ s.1 !!! j) ;;
  modify (fun s => (s.1, declare_field "coordinates" s.2)) ;;
  modify (fun s => (s.1, put_field "coordinates" probePart nDim s.2)) ;;
  fieldInfo <- gets (fun s => fieldInfo_ s.1) ;;
  for_each (fun _ fi =>
              modify (fun s => (s.1, register_field fi.1 fi.2 probePart s.2)))
           0 fieldInfo.

Definition setup : Exc World unit :=
  with_meta
    (each_probeInfo
       (numProbes <- gets (fun s => numProbes_ s.1) ;;
        for_int numProbes declare_probe_part) ;;
     nDim <- gets (fun s => to_int (spatial_dimension s.2)) ;;
     each_probeInfo
       (numProbes <- gets (fun s => numProbes_ s.1) ;;
        for_int numProbes (register_probe_fields nDim))).

(** ** initialize *)

(** Lines 287-312: identifiers are generated for every probe on every
    rank; the nodes are declared on the owning rank only. *)
Definition create_probe_nodes (j : nat) : Exc (DataProbeInfo * BulkData) unit :=
  probePart <- gets (fun s => part_ s.1 !!! j) ;;
  numPoints <- gets (fun s => numPoints_ s.1 !!! j) ;;
  processorId <- gets (fun s => processorId_ s.1 !!! j) ;;
  _ <- call (vector_resize numPoints (0 : EntityId) []) ;;
  availableNodeIds <- gets (fun s => fresh_ids (bulk_calls s.2) numPoints) ;;
  modify (fun s => (s.1, record_call (GenerateNewIds numPoints) s.2)) ;;
  (if decide (processorId = parallel_rank env) then
     modify (fun s =>
       (set_nodeVector
          (<[j := resize (Z.to_nat numPoints) (0 : Entity)
                    (nodeVector_ s.1 !!! j)]> (nodeVector_ s.1)) s.1, s.2))
   else ret tt) ;;
  modify (fun s => (s.1, record_call ModificationBegin s.2)) ;;
  for_int numPoints (fun i =>
    if decide (processorId = parallel_rank env) then
      let theNode : Entity := availableNodeIds !!! i in
      modify (fun s =>
        (s.1, record_call (DeclareEntity (availableNodeIds !!! i) probePart)
                s.2)) ;;
      modify (fun s =>
        (set_nodeVector
           (<[j := <[i := theNode]> (nodeVector_ s.1 !!! j)]>
              (nodeVector_ s.1)) s.1, s.2))
    else ret tt) ;;
  modify (fun s => (s.1, record_call ModificationEnd s.2)).

(** Lines 338-348: [tipC] and [tailC]. The source writes the components 0
    and 1 without a test, which is out of bounds of a vector of fewer than
    two elements: the function is the source's for [nDim >= 2] (and, by the
    exception, for [nDim < 0]); for 0 and 1 the source has no defined
    behaviour and the writes are dropped here. *)
Definition coordinate_vector (nDim : Z) (c : Coordinates) : result (list float) :=
  match vector_resize nDim 0%float [] with
  | Ok v =>
      let v := <[1%nat := y_ c]> (<[0%nat := x_ c]> v) in
      Ok (if nDim >? 2 then <[2%nat := z_ c]> v else v)
  | Throw w => Throw w
  end.

(** Lines 336 and 350-352: [dx], an array of three doubles. The function
    is the source's for [nDim <= 3]; above, the source writes past the end
    of the array and has no defined behaviour, and the writes are dropped
    here. *)
Definition spacing (nDim : Z) (tipC tailC : list float) (numPoints : Z)
  : list float :=
  fold_left
    (fun dx j =>
       <[j := ((tipC !!! j - tailC !!! j)
               / to_double (to_int (numPoints - 1)))%float]> dx)
    (seq 0 (Z.to_nat nDim)) [0%float; 0%float; 0%float].

(** Lines 332-360. *)
Definition place_probe_nodes (nDim : Z) (j : nat)
  : Exc (DataProbeInfo * BulkData) unit :=
  nodeVec <- gets (fun s => nodeVector_ s.1 !!! j) ;;
  tipC <- (fun s => call (coordinate_vector nDim (tipCoordinates_ s.1 !!! j)) s) ;;
  tailC <- (fun s => call (coordinate_vector nDim (tailCoordinates_ s.1 !!! j)) s) ;;
  numPoints <- gets (fun s => numPoints_ s.1 !!! j) ;;
  let dx := spacing nDim tipC tailC numPoints in
  for_each (fun jn node =>
    for_int nDim (fun i =>
      modify (fun s =>
        (s.1, write_field "coordinates" node i
                (tailC !!! i + to_double (Z.of_nat jn) * dx !!! i)%float
                s.2))))
    0 nodeVec.

(** Lines 388-406. *)
Definition probe_parts (d : DataProbePostProcessing) : list (option Part) :=
  flat_map (fun probeSpec =>
    flat_map (fun probeInfo =>
      map (fun j => part_ probeInfo !!! j)
          (seq 0 (Z.to_nat (numProbes_ probeInfo))))
      (dataProbeInfo_ probeSpec))
    (dataProbeSpecInfo_ d).

Definition create_inactive_selector : Exc World unit :=
  modify (fun w =>
    let allTheParts := allTheParts_ (this w) ++ probe_parts (this w) in
    mkWorld (set_inactiveSelector allTheParts
               (set_allTheParts allTheParts (this w)))
      (realm_ w) (cout w)).

Definition initialize : Exc World unit :=
  with_bulk
    (each_probeInfo
       (numProbes <- gets (fun s => numProbes_ s.1) ;;
        for_int numProbes create_probe_nodes)) ;;
  nDim <- gets (fun w => to_int (spatial_dimension (meta_data (realm_ w)))) ;;
  with_bulk
    (each_probeInfo
       (numProbes <- gets (fun s => numProbes_ s.1) ;;
        for_int numProbes (place_probe_nodes nDim))) ;;
  create_inactive_selector.

(** ** provide_average and execute *)

Definition print (l : OutputLine) : Exc World unit :=
  modify (fun w => mkWorld (this w) (realm_ w) (cout w ++ [l])).

(** Lines 483-486: one node added to [meanValue]. *)
Definition accumulate (bulk : BulkData) (fieldName : string) (fieldSize : Z)
    (meanValue : list float) (node : Entity) : list float :=
  fold_left
    (fun mv ifs =>
       <[ifs := (mv !!! ifs + read_field fieldName node ifs bulk)%float]> mv)
    (seq 0 (Z.to_nat fieldSize)) meanValue.

(** Lines 475-491: one field of one probe. *)
Definition average_field (nodeVec : list Entity) (numPoints : Z)
    (fi : string * Z) : Exc World unit :=
  let fieldName := fi.1 in
  let fieldSize := fi.2 in
  zeros <- call (vector_resize fieldSize 0%float []) ;;
  bulk <- gets (fun w => bulk_data (realm_ w)) ;;
  let meanValue := fold_left (accumulate bulk fieldName fieldSize) nodeVec zeros in
  for_int fieldSize (fun ifs =>
    print (MeanValue fieldName ifs
             (meanValue !!! ifs / to_double numPoints)%float)).

(** Lines 463-492: one probe. *)
Definition average_probe (probeInfo : DataProbeInfo) (inp : nat)
  : Exc World unit :=
  print (ProbeName (partName_ probeInfo !!! inp)) ;;
  let nodeVec := nodeVector_ probeInfo !!! inp in
  let numPoints := numPoints_ probeInfo !!! inp in
  for_each (fun _ fi => average_field nodeVec numPoints fi)
    0 (fieldInfo_ probeInfo).

Definition provide_average (currentTime timeStepCount : float)
  : Exc World unit :=
  print (AverageHeader currentTime timeStepCount) ;;
  specs <- gets (fun w => dataProbeSpecInfo_ (this w)) ;;
  for_each (fun _ probeSpec =>
    print (SpecificationName (xferName_ probeSpec)) ;;
    for_each (fun _ probeInfo =>
      for_int (numProbes_ probeInfo) (average_probe probeInfo))
      0 (dataProbeInfo_ probeSpec))
    0 specs.

(** Lines 411-416: nothing is done. *)
Definition review (probeInfo : DataProbeInfo) : Exc World unit := ret tt.

(** Lines 421-435. *)
Definition execute : Exc World unit :=
  fun w =>
    let currentTime := current_time (realm_ w) in
    let timeStepCount := time_step_count (realm_ w) in
    let isOutput := Z.rem timeStepCount (outputFreq_ (this w)) =? 0 in
    if isOutput then provide_average currentTime (to_double timeStepCount) w
    else (w, Ok tt).

(** Lines 501-505. *)
Definition get_inactive_selector : Exc World (list (option Part)) :=
  gets (fun w => inactiveSelector_ (this w)).

End Lifecycle.

(* ===================================================================== *)
(** * Vocabulary of the provisioner's properties *)
(* ===================================================================== *)

(** The calls on the mesh engine that matter for ownership, without the
    identifiers: a request for identifiers and the declaration of a node
    in a part. *)
Inductive ProvisionEvent : Set :=
| Requested (numPoints : Z)
| Declared (part : option Part).

Definition provision_event (c : BulkCall) : option ProvisionEvent :=
  match c with
  | GenerateNewIds n => Some (Requested n)
  | DeclareEntity _ part => Some (Declared part)
  | ModificationBegin | ModificationEnd => None
  end.

Definition provision_events (calls : list BulkCall) : list ProvisionEvent :=
  omap provision_event calls.

Definition request_of (e : ProvisionEvent) : option Z :=
  match e with Requested n => Some n | Declared _ => None end.

(** The sizes of the identifier requests among the calls. *)
Definition requests_of (calls : list BulkCall) : list Z :=
  omap (fun c => match c with GenerateNewIds n => Some n | _ => None end) calls.

(** Every probe set of the registry, in the order of the loops. *)
Definition all_probeInfo (d : DataProbePostProcessing) : list DataProbeInfo :=
  flat_map dataProbeInfo_ (dataProbeSpecInfo_ d).

Definition probe_indices (probeInfo : DataProbeInfo) : list nat :=
  seq 0 (Z.to_nat (numProbes_ probeInfo)).

(** The point counts of the probes of a set. *)
Definition requested_points (probeInfo : DataProbeInfo) : list Z :=
  map (fun j => numPoints_ probeInfo !!! j) (probe_indices probeInfo).

(** A probe set as [load] leaves it: one empty node vector per probe, and
    no negative point count. *)
Definition ready (probeInfo : DataProbeInfo) : Prop :=
  nodeVector_ probeInfo = replicate (Z.to_nat (numProbes_ probeInfo)) [] /\
  Forall (fun n => 0 <= n) (numPoints_ probeInfo).

(** How a specification is related to itself after a loop nest that
    relates its probe sets by [R]. *)
Definition spec_related (R : DataProbeInfo -> DataProbeInfo -> Prop)
    (probeSpec probeSpec' : DataProbeSpecInfo) : Prop :=
  probeSpec' = set_dataProbeInfo (dataProbeInfo_ probeSpec') probeSpec /\
  Forall2 R (dataProbeInfo_ probeSpec) (dataProbeInfo_ probeSpec').

(** Component [i] of a coordinate triple. *)
Definition component (i : nat) (c : Coordinates) : float :=
  match i with 0%nat => x_ c | 1%nat => y_ c | _ => z_ c end.

(** Component [i] of sample point [jn] of a probe: the tail plus [jn]
    steps of [(tip - tail) / (numPoints - 1)], in double arithmetic. *)
Definition probe_point (tip tail : Coordinates) (numPoints : Z) (jn i : nat)
  : float :=
  (component i tail
   + to_double (Z.of_nat jn)
     * ((component i tip - component i tail) / to_double (numPoints - 1)))%float.

(** The writes to the coordinate field of one node, and of the nodes of a
    probe from sample index [jn] on, in the order they are made. *)
Definition point_writes (nDim : Z) (value : nat -> nat -> float) (jn : nat)
    (node : Entity) : list (string * Entity * nat * float) :=
  map (fun i => ("coordinates", node, i, value jn i)) (seq 0 (Z.to_nat nDim)).

Fixpoint placed_writes (nDim : Z) (value : nat -> nat -> float) (jn : nat)
    (nodeVec : list Entity) : list (string * Entity * nat * float) :=
  match nodeVec with
  | [] => []
  | node :: nodeVec' =>
      point_writes nDim value jn node ++ placed_writes nDim value (S jn) nodeVec'
  end.

Section ProvisionVocabulary.

Context {engine : MeshEngine}.
Variable env : NaluEnv.

(** The handles stored for a probe of [numPoints] points. *)
Definition created_nodes (ids : list EntityId) (numPoints : Z) : list Entity :=
  map (fun i => ids !!! i) (seq 0 (Z.to_nat numPoints)).

(** The calls made for probe [j] after the calls [history]. *)
Definition probe_calls (probeInfo : DataProbeInfo) (j : nat)
    (history : list BulkCall) : list BulkCall :=
  let numPoints := numPoints_ probeInfo !!! j in
  let ids := fresh_ids history numPoints in
  [GenerateNewIds numPoints; ModificationBegin]
  ++ (if decide (processorId_ probeInfo !!! j = parallel_rank env)
      then map (fun i => DeclareEntity (ids !!! i) (part_ probeInfo !!! j))
             (seq 0 (Z.to_nat numPoints))
      else [])
  ++ [ModificationEnd].

(** What this rank is expected to do for probe [j]: request the
    identifiers, and declare the nodes if it owns the probe. *)
Definition expected_events (probeInfo : DataProbeInfo) (j : nat)
  : list ProvisionEvent :=
  Requested (numPoints_ probeInfo !!! j)
  :: (if decide (processorId_ probeInfo !!! j = parallel_rank env)
      then replicate (Z.to_nat (numPoints_ probeInfo !!! j))
             (Declared (part_ probeInfo !!! j))
      else []).

(** A probe set before and after the creation of the nodes: only the node
    vectors differ; an owned probe holds one handle per point, and the
    vector of a probe owned by another rank is empty. *)
Definition nodes_created (probeInfo probeInfo' : DataProbeInfo) : Prop :=
  probeInfo' = set_nodeVector (nodeVector_ probeInfo') probeInfo /\
  length (nodeVector_ probeInfo') = length (nodeVector_ probeInfo) /\
  forall j, (j < Z.to_nat (numProbes_ probeInfo))%nat ->
    if decide (processorId_ probeInfo !!! j = parallel_rank env)
    then length (nodeVector_ probeInfo' !!! j)
         = Z.to_nat (numPoints_ probeInfo !!! j)
    else nodeVector_ probeInfo' !!! j = [].

End ProvisionVocabulary.

(* ===================================================================== *)
(** * Vocabulary of the sampler's properties *)
(* ===================================================================== *)

(** The sum of component [ifs] of a field over the nodes of a vector, in
    the order of the vector, starting from zero. *)
Definition field_sum (bulk : BulkData) (fieldName : string)
    (nodeVec : list Entity) (ifs : nat) : float :=
  fold_left (fun acc node => (acc + read_field fieldName node ifs bulk)%float)
    nodeVec 0%float.

(** The lines reported for one field of a probe: per component, the sum
    over the node vector divided by the point count of the probe. *)
Definition mean_lines (bulk : BulkData) (nodeVec : list Entity)
    (numPoints : Z) (fi : string * Z) : list OutputLine :=
  map (fun ifs =>
         MeanValue fi.1 ifs
           (field_sum bulk fi.1 nodeVec ifs / to_double numPoints)%float)
      (seq 0 (Z.to_nat fi.2)).

(** The lines reported for a probe, a probe set, a specification. *)
Definition probe_lines (bulk : BulkData) (probeInfo : DataProbeInfo)
    (inp : nat) : list OutputLine :=
  ProbeName (partName_ probeInfo !!! inp)
  :: flat_map (mean_lines bulk (nodeVector_ probeInfo !!! inp)
                 (numPoints_ probeInfo !!! inp))
       (fieldInfo_ probeInfo).

Definition info_lines (bulk : BulkData) (probeInfo : DataProbeInfo)
  : list OutputLine :=
  flat_map (probe_lines bulk probeInfo) (probe_indices probeInfo).

Definition spec_lines (bulk : BulkData) (probeSpec : DataProbeSpecInfo)
  : list OutputLine :=
  SpecificationName (xferName_ probeSpec)
  :: flat_map (info_lines bulk) (dataProbeInfo_ probeSpec).

(** The world with more lines on the console. *)
Definition emit (w : World) (lines : list OutputLine) : World :=
  mkWorld (this w) (realm_ w) (cout w ++ lines).

(** [extends c]: [c] only adds lines to the console. *)
Definition extends {A} (c : Exc World A) : Prop :=
  forall w, exists lines, cout (c w).1 = cout w ++ lines.

(** [execute] reports the averages: it returns, and the console has
    received the header line for the current time and step and then, per
    specification, probe, requested field and component, the lines of
    [spec_lines] with the means over the nodes this rank holds. *)
Definition reports_averages (w : World) : Prop :=
  execute w
  = (emit w (AverageHeader (current_time (realm_ w))
               (to_double (time_step_count (realm_ w)))
             :: flat_map (spec_lines (bulk_data (realm_ w)))
                  (dataProbeSpecInfo_ (this w))), Ok tt).

(** [execute] is idle: it returns and leaves the world as it is. *)
Definition idle (w : World) : Prop := execute w = (w, Ok tt).

(* ===================================================================== *)
(** * A reference document type *)
(* ===================================================================== *)

Module Tree.

(** Modelled from the spec: the configuration parser is not part of the
    sources; the document is consumed as an already tokenized nested
    structure of mappings, sequences and scalars. This instance of the
    interface serves the scenarios and the examples below. A key that is
    absent yields the null pointer, also from [expect_sequence], which
    [load] tests after each of its three calls; a value of the wrong kind
    throws. *)
#[warnings="-register-all"]
Inductive Doc : Set :=
| Null
| Str (s : string)
| Int (z : Z)
| Real (x : float)
| Seq (l : list Doc)
| Map (l : list (string * Doc)).

Fixpoint assoc (key : string) (l : list (string * Doc)) : option Doc :=
  match l with
  | [] => None
  | (k, v) :: l' => if decide (k = key) then Some v else assoc key l'
  end.

Definition find_value (n : Doc) (key : string) : option Doc :=
  match n with Map l => assoc key l | _ => None end.

Definition get_value (n : Doc) (key : string) : result Doc :=
  match find_value n key with
  | Some v => Ok v
  | None => Throw ("key not found: " +:+ key)
  end.

Definition node_type (n : Doc) : NodeType :=
  match n with
  | Null => NullNode
  | Str _ | Int _ | Real _ => ScalarNode
  | Seq _ => SequenceNode
  | Map _ => MapNode
  end.

Definition seq_items (n : Doc) : list Doc :=
  match n with Seq l => l | _ => [] end.

Definition as_string (n : Doc) : result string :=
  match n with Str s => Ok s | _ => Throw "yaml-cpp: invalid scalar" end.

Definition as_int (n : Doc) : result Z :=
  match n with Int z => Ok z | _ => Throw "yaml-cpp: invalid scalar" end.

Definition as_double (n : Doc) : result float :=
  match n with
  | Real x => Ok x
  | Int z => Ok (to_double z)
  | _ => Throw "yaml-cpp: invalid scalar"
  end.

Definition as_Coordinates (n : Doc) : result Coordinates :=
  match n with
  | Seq [a; b] =>
      match as_double a, as_double b with
      | Ok x, Ok y => Ok (mkCoordinates x y 0)
      | _, _ => Throw "yaml-cpp: invalid scalar"
      end
  | Seq (a :: b :: c :: _) =>
      match as_double a, as_double b, as_double c with
      | Ok x, Ok y, Ok z => Ok (mkCoordinates x y z)
      | _, _, _ => Throw "yaml-cpp: invalid scalar"
      end
  | _ => Throw "yaml-cpp: bad dereference"
  end.

(** [expect_sequence] of this instance: the sequence under the key, the
    null pointer when the key is absent, whatever [optional] is, and an
    exception for a value of another kind. NaluParsing's helper, which is
    not part of the sources, may instead throw for an absent key that is
    not optional, or for an empty sequence; the theorems on [load] hold for
    every implementation of the interface and take the outcome of
    [expect_sequence] as a hypothesis where they depend on it. *)
Definition sequence_under (n : Doc) (key : string) (optional : bool)
  : result (option Doc) :=
  match find_value n key with
  | None => Ok None
  | Some (Seq l) => Ok (Some (Seq l))
  | Some _ => Throw ("expected a sequence under " +:+ key)
  end.

#[global] Instance api : YamlApi Doc := {
  FindValue := find_value;
  GetValue := get_value;
  NodeType_of := node_type;
  items := seq_items;
  read_string := as_string;
  read_int := as_int;
  read_Coordinates := as_Coordinates;
  expect_sequence := sequence_under
}.

(** One line-of-site entry. *)
Definition line_of_site (name : string) (numPoints : Z) (tip tail : list float)
  : Doc :=
  Map [("name", Str name); ("number_of_points", Int numPoints);
       ("tip_coordinates", Seq (map Real tip));
       ("tail_coordinates", Seq (map Real tail))].

Definition output_variable (name : string) (size : Z) : Doc :=
  Map [("field_name", Str name); ("field_size", Int size)].

(** A specification entry and a whole document. *)
Definition specification (name target : string) (loss outputs : list Doc)
  : Doc :=
  Map [("name", Str name); ("from_target_part", Str target);
       ("line_of_site_specifications", Seq loss);
       ("output_variables", Seq outputs)].

Definition document (specs : list Doc) : Doc :=
  Map [("data_probes", Map [("specifications", Seq specs)])].

End Tree.

(* ===================================================================== *)
(** * Scenarios *)
(* ===================================================================== *)

Module Scenario.

Import Tree.

(** Two ranks; this process is rank 0, respectively rank 1. *)
Definition rank0_of_2 : NaluEnv := mkNaluEnv 2 0.
Definition rank1_of_2 : NaluEnv := mkNaluEnv 2 1.

(** A mesh engine that numbers the identifiers of a request from one
    thousand times the number of calls received so far. *)
Definition counting_engine : MeshEngine :=
  {| fresh_ids := fun calls n =>
       map (fun k => 1000 * Z.of_nat (length calls) + Z.of_nat k)
           (seq 0 (Z.to_nat n)) |}.

(** A three-dimensional mesh on which nothing was declared, at step 0. *)
Definition empty_realm : Realm :=
  mkRealm 0 0 (mkMetaData 3 [] [] [] []) (mkBulkData [] []).

Definition empty_module : DataProbePostProcessing :=
  mkDataProbePostProcessing 10 [] [] [].

(** A complete specification: one probe of three points along z. *)
Definition good_spec : Doc :=
  specification "probes" "block_1"
    [line_of_site "probe_z" 3 [0; 0; 1]%float [0; 0; 0]%float]
    [output_variable "temperature" 1; output_variable "velocity" 3].

(** The same without the output variables. *)
Definition spec_without_outputs : Doc :=
  Map [("name", Str "bare"); ("from_target_part", Str "block_1");
       ("line_of_site_specifications",
        Seq [line_of_site "probe_a" 2 [1; 0; 0]%float [0; 0; 0]%float;
             line_of_site "probe_b" 4 [0; 1; 0]%float [0; 0; 0]%float])].

(** A specification whose second line-of-site entry has no tail. *)
Definition tailless_entry : Doc :=
  Map [("name", Str "probe_y"); ("number_of_points", Int 5);
       ("tip_coordinates", Seq [Real 0; Real 1; Real 0])].

Definition spec_with_tailless_entry : Doc :=
  specification "broken" "block_2"
    [line_of_site "probe_x" 4 [1; 0; 0]%float [0; 0; 0]%float; tailless_entry]
    [output_variable "pressure" 1].

(** A specification whose line-of-site entries are complete and whose
    output variable has no size. *)
Definition spec_with_sizeless_output : Doc :=
  specification "sizeless" "block_3"
    [line_of_site "probe_x" 4 [1; 0; 0]%float [0; 0; 0]%float]
    [Map [("field_name", Str "pressure")]].

(** A document with two probes, one per rank of a two-rank run, and the
    world after the constructor and [setup] on rank 1. *)
Definition two_probe_doc : Doc :=
  document
    [specification "pair" "block_1"
       [line_of_site "probe_0" 3 [0; 0; 1]%float [0; 0; 0]%float;
        line_of_site "probe_1" 4 [1; 0; 0]%float [0; 0; 0]%float]
       [output_variable "temperature" 1]].

Definition world_before_initialize (env : NaluEnv) (doc : Doc) : World :=
  (setup (constructor env empty_realm doc).1).1.

Definition two_probe_world_rank1 : World :=
  Eval vm_compute in world_before_initialize rank1_of_2 two_probe_doc.


Definition world_after_initialize (env : NaluEnv) (doc : Doc) : World :=
  (@initialize counting_engine env (world_before_initialize env doc)).1.

(** The world of [good_spec] after [initialize] on rank 1, which does not
    own its probe. *)
Definition good_world_rank1 : World :=
  Eval vm_compute in world_after_initialize rank1_of_2 (document [good_spec]).

End Scenario.

(* ===================================================================== *)
(** * Vocabulary of the document-level properties *)
(* ===================================================================== *)

Section DocumentVocabulary.

Context {Node : Type} {yaml : YamlApi Node}.
Variable env : NaluEnv.

(** A specification entry as the document gives it. *)
Record SpecView : Set := mkSpecView {
  view_name : string;
  view_targets : list string;
  view_los : list LineOfSite;
  view_outputs : list (string * Z)
}.

(** Every key [load] asks for is there and readable, and the number of
    line-of-site entries fits an [int]. *)
Definition decodes_specification (y_spec : Node) (v : SpecView) : Prop :=
  exists theName fromTargets y_loss y_outputs,
    FindValue y_spec "name" = Some theName /\
    read_string theName = Ok (view_name v) /\
    GetValue y_spec "from_target_part" = Ok fromTargets /\
    decodes_targets fromTargets (view_targets v) /\
    expect_sequence y_spec "line_of_site_specifications" false
    = Ok (Some y_loss) /\
    Forall2 decodes_line_of_site (items y_loss) (view_los v) /\
    Z.of_nat (length (view_los v)) <= INT_MAX /\
    expect_sequence y_spec "output_variables" false = Ok y_outputs /\
    Forall2 decodes_output_variable (optional_items y_outputs) (view_outputs v).

(** The spec object of such an entry. *)
Definition loaded_spec (v : SpecView) : DataProbeSpecInfo :=
  mkDataProbeSpecInfo (view_name v) (view_targets v)
    [loaded_info env (view_los v) (view_outputs v)].

End DocumentVocabulary.

(** The messages of a line-of-site entry that lacks a key, in the order
    the keys are looked up (lines 142-167). *)
Definition line_of_site_diagnostics : list (string * string) :=
  [("name", "DataProbePostProcessing: lacking the name");
   ("number_of_points", "DataProbePostProcessing: lacking number of points");
   ("tip_coordinates", "DataProbePostProcessing: lacking tip coordinates");
   ("tail_coordinates", "DataProbePostProcessing: lacking tail coordinates")].

Section DiagnosticVocabulary.

Context {Node : Type} {yaml : YamlApi Node}.

(** The key of a line-of-site entry is there and its value converts. *)
Definition readable (y_los : Node) (key : string) : Prop :=
  exists n, FindValue y_los key = Some n /\
    if decide (key = "name") then is_Throw (read_string n) = false
    else if decide (key = "number_of_points") then is_Throw (read_int n) = false
    else is_Throw (read_Coordinates n) = false.

(** [key] is the first key the entry lacks, the keys looked up before it
    being readable; [what] is the message for it. *)
Definition first_missing (y_los : Node) (key what : string) : Prop :=
  exists before after,
    line_of_site_diagnostics = before ++ (key, what) :: after /\
    Forall (fun d => readable y_los d.1) before /\
    FindValue y_los key = None.

(** The name and the targets of a specification entry are readable. *)
Definition decodes_header (y_spec : Node) (xferName : string)
    (targetNames : list string) : Prop :=
  exists theName fromTargets,
    FindValue y_spec "name" = Some theName /\
    read_string theName = Ok xferName /\
    GetValue y_spec "from_target_part" = Ok fromTargets /\
    decodes_targets fromTargets targetNames.

End DiagnosticVocabulary.
Section OutputDiagnosticVocabulary.

Context {Node : Type} {yaml : YamlApi Node}.

(** An output variable lacks its name, or has a name and lacks its size;
    [what] is the message for it (lines 185-189). *)
Definition lacks_output_key (y_output : Node) (what : string) : Prop :=
  (FindValue y_output "field_name" = None /\
   what = "DataProbePostProcessing::load() Sorry, field name must be provided")
  \/
  (FindValue y_output "field_name" <> None /\
   FindValue y_output "field_size" = None /\
   what = "DataProbePostProcessing::load() Sorry, field size must be provided").

End OutputDiagnosticVocabulary.

(* ===================================================================== *)
(** * Vocabulary of the properties of setup *)
(* ===================================================================== *)

(** A probe set sized as [load] leaves it: one name and one part pointer
    per probe. *)
Definition sized (probeInfo : DataProbeInfo) : Prop :=
  length (partName_ probeInfo) = Z.to_nat (numProbes_ probeInfo) /\
  length (part_ probeInfo) = Z.to_nat (numProbes_ probeInfo).

(** A probe set and a specification once every probe points to the part
    that has its name. *)
Definition setup_info (probeInfo : DataProbeInfo) : DataProbeInfo :=
  set_part (map Some (partName_ probeInfo)) probeInfo.

Definition setup_spec (probeSpec : DataProbeSpecInfo) : DataProbeSpecInfo :=
  set_dataProbeInfo (map setup_info (dataProbeInfo_ probeSpec)) probeSpec.

(** The names of the probes and of the requested fields of a registry. *)
Definition all_probe_names (d : DataProbePostProcessing) : list string :=
  flat_map partName_ (all_probeInfo d).

Definition all_field_names (d : DataProbePostProcessing) : list string :=
  flat_map (fun probeInfo => map fst (fieldInfo_ probeInfo)) (all_probeInfo d).

(** What [setup] owes a probe called [name] of a probe set with the field
    descriptors [fieldInfo]: a part of that name, marked for output; the
    coordinate field on that part, of the dimension of the mesh; every
    requested field on that part, of its size. *)
Definition probe_declared (m : MetaData) (nDim : Z)
    (fieldInfo : list (string * Z)) (name : string) : Prop :=
  name ∈ parts m /\ name ∈ io_parts m /\
  "coordinates" ∈ fields m /\
  ("coordinates", Some name, nDim) ∈ field_restrictions m /\
  Forall (fun fi : string * Z =>
            fi.1 ∈ fields m /\ (fi.1, Some name, fi.2) ∈ field_restrictions m)
         fieldInfo.

(** The declarations of the first loop nest of [setup] for a probe set,
    and of the second for one part and for a probe set. *)
Definition declare_parts (probeInfo : DataProbeInfo) (m : MetaData) : MetaData :=
  foldl (fun m name => put_io_part_attribute (Some name) (declare_part name m))
    m (partName_ probeInfo).

Definition register_on (nDim : Z) (fieldInfo : list (string * Z))
    (part : option Part) (m : MetaData) : MetaData :=
  foldl (fun m (fi : string * Z) => register_field fi.1 fi.2 part m)
    (put_field "coordinates" part nDim (declare_field "coordinates" m))
    fieldInfo.

Definition register_fields (nDim : Z) (probeInfo : DataProbeInfo)
    (m : MetaData) : MetaData :=
  foldl (fun m part => register_on nDim (fieldInfo_ probeInfo) part m)
    m (part_ probeInfo).

Definition setup_meta (infos : list DataProbeInfo) (m : MetaData) : MetaData :=
  let m1 := foldl (fun m probeInfo => declare_parts probeInfo m) m infos in
  foldl (fun m probeInfo =>
           register_fields (to_int (spatial_dimension m1)) probeInfo m)
    m1 (map setup_info infos).

(** Nothing declared is lost, and the dimension is kept. *)
Definition meta_le (m m' : MetaData) : Prop :=
  spatial_dimension m' = spatial_dimension m /\
  parts m ⊆ parts m' /\ io_parts m ⊆ io_parts m' /\
  fields m ⊆ fields m' /\ field_restrictions m ⊆ field_restrictions m'.

(** Whatever [m'] has and [m] has not is a part of one of [names], the
    coordinate field or a field of [fieldNames], a restriction to a part of
    one of [names]. *)
Definition meta_within (names fieldNames : list string) (m m' : MetaData)
  : Prop :=
  (forall p, p ∈ parts m' -> p ∈ parts m \/ p ∈ names) /\
  (forall p, p ∈ io_parts m' -> p ∈ io_parts m \/ p ∈ names) /\
  (forall f, f ∈ fields m' ->
     f ∈ fields m \/ f = "coordinates" \/ f ∈ fieldNames) /\
  (forall r : string * option Part * Z, r ∈ field_restrictions m' ->
     r ∈ field_restrictions m \/ exists name, name ∈ names /\ r.1.2 = Some name).

(** The world after the constructor on rank 0 of two, on a document whose
    only specification is [Scenario.good_spec]. *)
Definition good_world_loaded : World :=
  Eval vm_compute in
    (constructor Scenario.rank0_of_2 Scenario.empty_realm
       (Tree.document [Scenario.good_spec])).1.

(* ===================================================================== *)
(** * Vocabulary of the trace of initialize *)
(* ===================================================================== *)

(** The calls every rank makes, whether it owns the probe or not. *)
Definition collective_calls (calls : list BulkCall) : list BulkCall :=
  omap (fun c => match c with DeclareEntity _ _ => None | _ => Some c end) calls.

(** The collective calls for one probe of [numPoints] points. *)
Definition probe_cycle (numPoints : Z) : list BulkCall :=
  [GenerateNewIds numPoints; ModificationBegin; ModificationEnd].

(** The nodes declared, with the part they were declared in. *)
Definition declarations (calls : list BulkCall)
  : list (EntityId * option Part) :=
  omap (fun c => match c with
                 | DeclareEntity id part => Some (id, part)
                 | _ => None
                 end) calls.

(** The nodes a probe set holds, each with the part of its probe. *)
Definition held_nodes (probeInfo : DataProbeInfo)
  : list (Entity * option Part) :=
  flat_map (fun j => map (fun node => (node, part_ probeInfo !!! j))
                         (nodeVector_ probeInfo !!! j))
           (probe_indices probeInfo).

(** The modification cycles are well formed: identifiers are generated
    outside a cycle, nodes are declared inside one, a cycle is closed
    before the next is opened, and none is left open. *)
Fixpoint bracketed (inside : bool) (calls : list BulkCall) : bool :=
  match calls with
  | [] => negb inside
  | GenerateNewIds _ :: calls' => negb inside && bracketed inside calls'
  | ModificationBegin :: calls' => negb inside && bracketed true calls'
  | DeclareEntity _ _ :: calls' => inside && bracketed inside calls'
  | ModificationEnd :: calls' => inside && bracketed false calls'
  end.

(** A write of [initialize]: to a component of the coordinate field below
    the dimension, of a node among [nodes]. *)
Definition coordinate_write (nDim : Z) (nodes : list Entity)
    (wr : string * Entity * nat * float) : Prop :=
  wr.1.1.1 = "coordinates" /\ wr.1.1.2 ∈ nodes /\ (wr.1.2 < Z.to_nat nDim)%nat.


(** [only_throws what c]: if [c] leaves by an exception, the exception is
    [what]. *)
Definition only_throws {St A} (what : string) (c : Exc St A) : Prop :=
  forall s s' w, c s = (s', Throw w) -> w = what.

(** The world before [initialize] on rank 0 of two, on a document that
    asks for a probe of minus one point, and the world after [initialize]
    on a document that asks for a field of size minus one. *)
Definition negative_points_world : World :=
  Eval vm_compute in
    Scenario.world_before_initialize Scenario.rank0_of_2
      (Tree.document
         [Tree.specification "negative" "block_1"
            [Tree.line_of_site "probe_n" (-1) [0; 0; 1]%float [0; 0; 0]%float]
            []]).

Definition negative_size_world : World :=
  Eval vm_compute in
    Scenario.world_after_initialize Scenario.rank0_of_2
      (Tree.document
         [Tree.specification "negative" "block_1"
            [Tree.line_of_site "probe_n" 2 [0; 0; 1]%float [0; 0; 0]%float]
            [Tree.output_variable "temperature" (-1)]]).

(** The messages of the exceptions [load] throws itself (lines 96, 146,
    153, 160, 167, 172, 186 and 189). *)
Definition loader_diagnostics : list string :=
  ["DataProbePostProcessing: no name provided";
   "DataProbePostProcessing: lacking the name";
   "DataProbePostProcessing: lacking number of points";
   "DataProbePostProcessing: lacking tip coordinates";
   "DataProbePostProcessing: lacking tail coordinates";
   "DataProbePostProcessing: only supports line_of_site_specifications";
   "DataProbePostProcessing::load() Sorry, field name must be provided";
   "DataProbePostProcessing::load() Sorry, field size must be provided"].

Section LoaderExceptionsVocabulary.

Context {Node : Type} {yaml : YamlApi Node}.

(** An exception of the parser: of a lookup, of a conversion or of
    [expect_sequence]. *)
Definition from_parser (what : string) : Prop :=
  (exists n key, GetValue n key = Throw what) \/
  (exists n, read_string n = Throw what) \/
  (exists n, read_int n = Throw what) \/
  (exists n, read_Coordinates n = Throw what) \/
  (exists n key optional, expect_sequence n key optional = Throw what).

(** The exceptions that can leave [load]: its own diagnostics, those of
    the parser, [std::length_error] of a [resize] by a negative count, and
    [std::bad_alloc] of an allocation that fails ([new] at lines 85 and 88,
    [push_back], [resize], the copies of strings), which the embedding,
    where memory does not run out, never raises. *)
Definition loader_exception (what : string) : Prop :=
  what ∈ loader_diagnostics \/ from_parser what \/
  what = "std::length_error" \/ what = "std::bad_alloc".

End LoaderExceptionsVocabulary.

(** [throws_within P c]: if [c] leaves by an exception, the exception
    satisfies [P]. *)
Definition throws_within {St A} (P : string -> Prop) (c : Exc St A) : Prop :=
  forall s s' w, c s = (s', Throw w) -> P w.

(** A probe set as [load] and [setup] leave it: one entry per probe in
    each array, no node yet, every probe with the part named after it, and
    point counts that are not negative. *)
Definition set_up (probeInfo : DataProbeInfo) : Prop :=
  length (partName_ probeInfo) = Z.to_nat (numProbes_ probeInfo) /\
  length (processorId_ probeInfo) = Z.to_nat (numProbes_ probeInfo) /\
  length (numPoints_ probeInfo) = Z.to_nat (numProbes_ probeInfo) /\
  length (tipCoordinates_ probeInfo) = Z.to_nat (numProbes_ probeInfo) /\
  length (tailCoordinates_ probeInfo) = Z.to_nat (numProbes_ probeInfo) /\
  nodeVector_ probeInfo = replicate (Z.to_nat (numProbes_ probeInfo)) [] /\
  part_ probeInfo = map Some (partName_ probeInfo) /\
  Forall (fun n => 0 <= n <= INT_MAX) (numPoints_ probeInfo).

(** The worlds on which [execute] has a defined behaviour: the output
    frequency is positive (line 427 takes a remainder by it); every probe
    set has a name, a node vector and a point count for each of its probes
    (lines 465, 469 and 471); and every node held was declared in the part
    of its probe, on which every requested field is registered with the
    size requested (line 478 looks the field up, line 484 reads that many
    components of it at the node). *)
Definition sampleable (w : World) : Prop :=
  0 < outputFreq_ (this w) /\
  Forall (fun info =>
            (Z.to_nat (numProbes_ info) <= length (partName_ info))%nat /\
            (Z.to_nat (numProbes_ info) <= length (nodeVector_ info))%nat /\
            (Z.to_nat (numProbes_ info) <= length (numPoints_ info))%nat /\
            Forall (fun np : Entity * option Part =>
                      np ∈ declarations (bulk_calls (bulk_data (realm_ w))) /\
                      Forall (fun fi : string * Z =>
                                fi.1 ∈ fields (meta_data (realm_ w)) /\
                                (fi.1, np.2, fi.2)
                                  ∈ field_restrictions (meta_data (realm_ w)))
                        (fieldInfo_ info))
              (held_nodes info))
    (all_probeInfo (this w)).

#[global] Instance sampleable_dec w : Decision (sampleable w).
Proof. unfold sampleable. apply _. Defined.

(** The world of [Scenario.good_spec] after [initialize] on rank 0, which
    owns its probe and holds its three nodes. *)
Definition good_world_rank0 : World :=
  Eval vm_compute in
    Scenario.world_after_initialize Scenario.rank0_of_2
      (Tree.document [Scenario.good_spec]).

(* ===================================================================== *)
(** * Theorems *)
(* ===================================================================== *)

Section Partition.

Lemma to_int_small z : - 2 ^ 31 <= z <= INT_MAX -> to_int z = z.
Proof.
  unfold to_int, INT_MAX. intros H.
  rewrite Z.mod_small by lia. lia.
Qed.

Lemma to_size_t_small z : 0 <= z < 2 ^ 64 -> to_size_t z = z.
Proof. unfold to_size_t. intros H. now rewrite Z.mod_small. Qed.

Lemma probePerProc_pos numProcs numProbes :
  0 < numProcs -> 0 <= numProbes <= INT_MAX ->
  1 <= probePerProc numProcs numProbes <= Z.max 1 numProbes.
Proof.
  unfold probePerProc, INT_MAX. intros Hp Hn. rewrite Z.gtb_ltb.
  destruct (Z.ltb_spec numProbes numProcs) as [Hlt | Hge]; [lia |].
  assert (Hq : 1 <= numProbes ÷ numProcs <= numProbes).
  { rewrite Z.quot_div_nonneg by lia. split.
    - apply Z.div_le_lower_bound; lia.
    - apply Z.div_le_upper_bound; nia. }
  rewrite to_int_small by (unfold INT_MAX; lia). lia.
Qed.

(** Inside the [int] range the unsigned expression is [i / probePerProc]. *)
Lemma processorId_div (i : nat) ppp :
  1 <= ppp <= INT_MAX -> Z.of_nat i <= INT_MAX ->
  processorId i ppp = Z.of_nat i / ppp.
Proof.
  unfold processorId, INT_MAX. intros Hp Hi.
  rewrite (to_size_t_small (Z.of_nat i)) by lia.
  rewrite (to_size_t_small ppp) by lia.
  rewrite (to_size_t_small (Z.of_nat i + ppp)) by lia.
  replace (Z.of_nat i + ppp) with (Z.of_nat i + 1 * ppp) by lia.
  rewrite Z.div_add by lia.
  assert (Hq : 0 <= Z.of_nat i / ppp <= Z.of_nat i).
  { split; [apply Z.div_pos; lia |].
    apply Z.div_le_upper_bound; nia. }
  rewrite to_size_t_small by lia.
  rewrite to_int_small by (unfold INT_MAX; lia). lia.
Qed.

Lemma owningRank_div numProcs numProbes (i : nat) :
  0 < numProcs -> 0 <= numProbes <= INT_MAX -> Z.of_nat i < numProbes ->
  owningRank numProcs numProbes i
  = Z.of_nat i / probePerProc numProcs numProbes.
Proof.
  intros Hp Hn Hi. unfold owningRank.
  pose proof (probePerProc_pos numProcs numProbes Hp Hn).
  apply processorId_div; lia.
Qed.

(** The rank is never negative ... *)
Lemma owningRank_nonneg numProcs numProbes (i : nat) :
  0 < numProcs -> 0 <= numProbes <= INT_MAX -> Z.of_nat i < numProbes ->
  0 <= owningRank numProcs numProbes i.
Proof.
  intros Hp Hn Hi. rewrite owningRank_div by assumption.
  pose proof (probePerProc_pos numProcs numProbes Hp Hn).
  apply Z.div_pos; lia.
Qed.

(** ... and it does not decrease along the probe index. *)
Lemma owningRank_mono numProcs numProbes (i j : nat) :
  0 < numProcs -> 0 <= numProbes <= INT_MAX ->
  (i <= j)%nat -> Z.of_nat j < numProbes ->
  owningRank numProcs numProbes i <= owningRank numProcs numProbes j.
Proof.
  intros Hp Hn Hij Hj. rewrite !owningRank_div by lia.
  pose proof (probePerProc_pos numProcs numProbes Hp Hn).
  apply Z.div_le_mono; lia.
Qed.

(** When the ranks divide the probes evenly the rank is a valid one. *)
Lemma owningRank_lt_even numProcs numProbes (i : nat) :
  0 < numProcs -> 0 <= numProbes <= INT_MAX -> Z.of_nat i < numProbes ->
  numProbes mod numProcs = 0 ->
  owningRank numProcs numProbes i < numProcs.
Proof.
  intros Hp Hn Hi Hm. rewrite owningRank_div by assumption.
  unfold probePerProc. rewrite Z.gtb_ltb.
  destruct (Z.ltb_spec numProbes numProcs) as [Hlt | Hge].
  - rewrite Z.mod_small in Hm by lia. lia.
  - rewrite Z.quot_div_nonneg by lia.
    assert (Hq : 1 <= numProbes / numProcs <= numProbes).
    { split; [apply Z.div_le_lower_bound; lia |].
      apply Z.div_le_upper_bound; nia. }
    rewrite to_int_small by (unfold INT_MAX in *; lia).
    apply Z.div_lt_upper_bound; [lia |].
    pose proof (Z.div_mod numProbes numProcs ltac:(lia)). nia.
Qed.

(** The scenario of the design notes: four probes on two ranks. *)
Example four_probes_two_ranks :
  map (owningRank 2 4) [0; 1; 2; 3]%nat = [0; 0; 1; 1].
Proof. reflexivity. Qed.

(** C1 (the code leaves the range): with three probes on two ranks
    [probePerProc] is 1 and the third probe receives rank 2, which is not
    a rank of the run: the owning rank is not always in
    [[0, numRanks)]. *)
Theorem owning_rank_escapes_rank_range :
  probePerProc 2 3 = 1 /\ owningRank 2 3 2 = 2 /\
  ~ (0 <= owningRank 2 3 2 < 2).
Proof. vm_compute. repeat split; try reflexivity. intros [_ H]. discriminate H. Qed.

(** C3, the claim at two probes and three ranks: the second probe is not
    on rank 0. *)
Lemma fewer_probes_than_ranks_not_all_rank0 :
  ~ (forall i : nat, (i < 2)%nat -> owningRank 3 2 i = 0).
Proof. intros H. specialize (H 1%nat ltac:(lia)). vm_compute in H. discriminate H. Qed.

(** C3 (amended): with fewer probes than ranks probe [i] is owned by rank
    [i]; otherwise probe [i] is owned by rank [i / (numProbes / numProcs)],
    which is a rank of the run for the first
    [(numProbes / numProcs) * numProcs] probes. *)
Theorem owning_rank_block_partition numProcs numProbes (i : nat) :
  0 < numProcs -> 0 <= numProbes <= INT_MAX -> Z.of_nat i < numProbes ->
  (numProbes < numProcs -> owningRank numProcs numProbes i = Z.of_nat i) /\
  (numProcs <= numProbes ->
   owningRank numProcs numProbes i = Z.of_nat i / (numProbes / numProcs) /\
   (Z.of_nat i < numProbes / numProcs * numProcs ->
    0 <= owningRank numProcs numProbes i < numProcs)).
Proof.
  intros Hp Hn Hi.
  pose proof (owningRank_div numProcs numProbes i Hp Hn Hi) as Hd.
  unfold probePerProc in Hd. rewrite Z.gtb_ltb in Hd.
  destruct (Z.ltb_spec numProbes numProcs) as [Hlt | Hge]; split; try lia.
  - intros _. rewrite Hd. apply Z.div_1_r.
  - intros _.
    assert (Hq : 1 <= numProbes / numProcs <= numProbes).
    { split; [apply Z.div_le_lower_bound; lia |].
      apply Z.div_le_upper_bound; nia. }
    rewrite Z.quot_div_nonneg in Hd by lia.
    rewrite to_int_small in Hd by (unfold INT_MAX in *; lia).
    split; [exact Hd |].
    intros Hblock. rewrite Hd. split.
    + apply Z.div_pos; lia.
    + apply Z.div_lt_upper_bound; lia.
Qed.

Lemma owning_rank_block_partition_witness :
  (2 < 3 -> owningRank 3 2 1 = 1) /\
  (2 <= 7 ->
   owningRank 2 7 4 = 4 / (7 / 2) /\
   (4 < 7 / 2 * 2 -> 0 <= owningRank 2 7 4 < 2)).
Proof.
  split.
  - exact (proj1 (owning_rank_block_partition 3 2 1
                    ltac:(lia) ltac:(unfold INT_MAX; lia) ltac:(lia))).
  - exact (proj2 (owning_rank_block_partition 2 7 4
                    ltac:(lia) ltac:(unfold INT_MAX; lia) ltac:(lia))).
Defined.

End Partition.


(* ===================================================================== *)
(** * Facts on the exception monad and its loops *)
(* ===================================================================== *)

Section ExcFacts.

Context {St : Type}.

Lemma bind_Ok {A B} (c : Exc St A) (k : A -> Exc St B) s s' a :
  c s = (s', Ok a) -> bind c k s = k a s'.
Proof. unfold bind. now intros ->. Qed.

Lemma bind_Throw {A B} (c : Exc St A) (k : A -> Exc St B) s s' w :
  c s = (s', Throw w) -> bind c k s = (s', Throw w).
Proof. unfold bind. now intros ->. Qed.

Lemma throws_throw {A} w : throws (throw w : Exc St A).
Proof. intros s. now exists s, w. Qed.

Lemma throws_bind_l {A B} (c : Exc St A) (k : A -> Exc St B) :
  throws c -> throws (bind c k).
Proof.
  intros Hc s. destruct (Hc s) as (s' & w & E).
  exists s', w. now apply bind_Throw.
Qed.

Lemma throws_bind_r {A B} (c : Exc St A) (k : A -> Exc St B) :
  (forall a, throws (k a)) -> throws (bind c k).
Proof.
  intros Hk s. unfold bind.
  destruct (c s) as [s' [a | w]]; [apply Hk | now exists s', w].
Qed.

Lemma for_each_cons {A} (body : nat -> A -> Exc St unit) i x v s :
  for_each body i (x :: v) s
  = match body i x s with
    | (s', Ok _) => for_each body (S i) v s'
    | (s', Throw w) => (s', Throw w)
    end.
Proof. reflexivity. Qed.

(** A loop one of whose iterations always throws, throws. *)
Lemma throws_for_each {A} (body : nat -> A -> Exc St unit) (v : list A) x :
  x ∈ v -> (forall i, throws (body i x)) -> forall i, throws (for_each body i v).
Proof.
  intros Hin Hx. induction v as [| y v IH]; intros i.
  - inversion Hin.
  - simpl. apply elem_of_cons in Hin as [-> | Hin].
    + apply throws_bind_l, Hx.
    + apply throws_bind_r. intros _. now apply IH.
Qed.

Lemma preserves_ret {A T} (obs : St -> T) (a : A) : preserves obs (ret a).
Proof. now intros s. Qed.

Lemma preserves_throw {A T} (obs : St -> T) w :
  preserves obs (throw w : Exc St A).
Proof. now intros s. Qed.

Lemma preserves_gets {A T} (obs : St -> T) (f : St -> A) :
  preserves obs (gets f).
Proof. now intros s. Qed.

Lemma preserves_call {A T} (obs : St -> T) (r : result A) :
  preserves obs (call r).
Proof. now intros s. Qed.

Lemma preserves_modify {T} (obs : St -> T) (f : St -> St) :
  (forall s, obs (f s) = obs s) -> preserves obs (modify f).
Proof. intros H s. apply H. Qed.

Lemma preserves_bind {A B T} (obs : St -> T) (c : Exc St A)
    (k : A -> Exc St B) :
  preserves obs c -> (forall a, preserves obs (k a)) ->
  preserves obs (bind c k).
Proof.
  intros Hc Hk s. unfold bind. specialize (Hc s).
  destruct (c s) as [s' [a | w]]; simpl in *; [| exact Hc].
  now rewrite Hk.
Qed.

Lemma preserves_for_each {A T} (obs : St -> T)
    (body : nat -> A -> Exc St unit) (v : list A) :
  (forall i x, preserves obs (body i x)) ->
  forall i, preserves obs (for_each body i v).
Proof.
  intros Hb. induction v as [| x v IH]; intros i; simpl.
  - apply preserves_ret.
  - apply preserves_bind; [apply Hb | intros _; apply IH].
Qed.

Lemma preserves_for_int {T} (obs : St -> T) n (body : nat -> Exc St unit) :
  (forall i, preserves obs (body i)) -> preserves obs (for_int n body).
Proof. intros Hb. apply preserves_for_each. intros _ x. apply Hb. Qed.

End ExcFacts.


(* ===================================================================== *)
(** * The loader *)
(* ===================================================================== *)

Section LoaderFacts.

Context {Node : Type} {yaml : YamlApi Node}.
Variable env : NaluEnv.

Lemma load_specification_eq ispec y_spec self :
  load_specification env ispec y_spec self
  = (set_dataProbeSpecInfo
       (dataProbeSpecInfo_ self ++ [spec_loaded env y_spec]) self,
     spec_outcome env y_spec).
Proof.
  unfold load_specification, spec_loaded, spec_outcome, fresh_objects.
  now destruct (load_specification_body env y_spec _) as [o r].
Qed.

(** The loop over the entries: every entry that was started is in the
    registry, the one that threw included. *)
Lemma load_specifications_registry (specs : list Node) : forall ispec self,
  match (for_each (load_specification env) ispec specs self).2 with
  | Ok _ =>
      Forall (fun y => spec_outcome env y = Ok tt) specs /\
      (for_each (load_specification env) ispec specs self).1
      = set_dataProbeSpecInfo
          (dataProbeSpecInfo_ self ++ map (spec_loaded env) specs) self
  | Throw w =>
      exists before y after,
        specs = before ++ y :: after /\
        Forall (fun y => spec_outcome env y = Ok tt) before /\
        spec_outcome env y = Throw w /\
        (for_each (load_specification env) ispec specs self).1
        = set_dataProbeSpecInfo
            (dataProbeSpecInfo_ self
               ++ map (spec_loaded env) before ++ [spec_loaded env y]) self
  end.
Proof.
  induction specs as [| y specs IH]; intros ispec self.
  - simpl. split; [constructor |]. rewrite app_nil_r. now destruct self.
  - rewrite for_each_cons, load_specification_eq.
    destruct (spec_outcome env y) as [[] | w] eqn:Ey; simpl.
    + specialize (IH (S ispec)
        (set_dataProbeSpecInfo
           (dataProbeSpecInfo_ self ++ [spec_loaded env y]) self)).
      destruct (for_each _ _ specs _) as [self' [[] | w]]; simpl in *.
      * destruct IH as [Hall ->]. split; [now constructor |].
        unfold set_dataProbeSpecInfo; simpl. now rewrite <- app_assoc.
      * destruct IH as (before & y' & after & -> & Hall & Hy' & ->).
        exists (y :: before), y', after. repeat split; try done.
        -- now constructor.
        -- unfold set_dataProbeSpecInfo; simpl. now rewrite <- app_assoc.
    + exists [], y, specs. repeat split; try done.
Qed.

(** C5, the claim on a document whose only entry lacks a tail: the load
    throws, and the registry, empty before, holds the spec of that entry
    with its name, its targets and its first probe filled in and the second
    probe half filled in. *)
Lemma malformed_entry_leaves_partial_spec :
  load Scenario.rank0_of_2
    (Tree.document [Scenario.spec_with_tailless_entry]) Scenario.empty_module
  = (mkDataProbePostProcessing 10
       [mkDataProbeSpecInfo "broken" ["block_2"]
       [mkDataProbeInfo true 2 ["probe_x"; "probe_y"] [0; 1] [4; 5]
          [mkCoordinates 1 0 0; mkCoordinates 0 1 0]
          [mkCoordinates 0 0 0; mkCoordinates 0 0 0]
          [[]; []] [None; None] []]] [] [],
     Throw "DataProbePostProcessing: lacking tail coordinates").
Proof. vm_compute. reflexivity. Qed.

(** C5 (amended): when [load] throws while it works on a specification
    entry, the registry holds what it held before, then the specs of the
    entries loaded before the failing one, then the spec of the failing
    entry as the body left it. *)
Theorem load_error_keeps_attempted_entries y_node self y_dataProbe y_specs what :
  FindValue y_node "data_probes" = Some y_dataProbe ->
  expect_sequence y_dataProbe "specifications" false = Ok (Some y_specs) ->
  (load env y_node self).2 = Throw what ->
  exists before y_spec after,
    items y_specs = before ++ y_spec :: after /\
    Forall (fun y => spec_outcome env y = Ok tt) before /\
    spec_outcome env y_spec = Throw what /\
    dataProbeSpecInfo_ (load env y_node self).1
    = dataProbeSpecInfo_ self
        ++ map (spec_loaded env) before ++ [spec_loaded env y_spec].
Proof.
  intros Hdp Hspecs. unfold load. rewrite Hdp.
  erewrite bind_Ok by (unfold call; rewrite Hspecs; reflexivity).
  pose proof (load_specifications_registry (items y_specs) 0%nat self) as H.
  intros Hthrow. rewrite Hthrow in H.
  destruct H as (before & y & after & E & Hall & Hy & ->).
  now exists before, y, after.
Qed.

End LoaderFacts.

Lemma load_error_keeps_attempted_entries_witness :
  exists before y_spec after,
    [Scenario.good_spec; Scenario.spec_with_tailless_entry]
    = before ++ y_spec :: after /\
    Forall (fun y => spec_outcome Scenario.rank0_of_2 y = Ok tt) before /\
    spec_outcome Scenario.rank0_of_2 y_spec
    = Throw "DataProbePostProcessing: lacking tail coordinates" /\
    dataProbeSpecInfo_
      (load Scenario.rank0_of_2
         (Tree.document [Scenario.good_spec; Scenario.spec_with_tailless_entry])
         Scenario.empty_module).1
    = [] ++ map (spec_loaded Scenario.rank0_of_2) before
         ++ [spec_loaded Scenario.rank0_of_2 y_spec].
Proof.
  exact (load_error_keeps_attempted_entries Scenario.rank0_of_2
           (Tree.document [Scenario.good_spec; Scenario.spec_with_tailless_entry])
           Scenario.empty_module
           (Tree.Map [("specifications",
                       Tree.Seq [Scenario.good_spec;
                                 Scenario.spec_with_tailless_entry])])
           (Tree.Seq [Scenario.good_spec; Scenario.spec_with_tailless_entry])
           "DataProbePostProcessing: lacking tail coordinates"
           eq_refl eq_refl eq_refl).
Defined.

(* ===================================================================== *)
(** * Configuration errors *)
(* ===================================================================== *)

Section LoaderRejects.

Context {Node : Type} {yaml : YamlApi Node}.
Variable env : NaluEnv.

Lemma throws_bind_call {St A B} (a : A) (k : A -> Exc St B) :
  throws (k a) -> throws (bind (call (Ok a)) k).
Proof. intros H s. apply H. Qed.

(** The statements that follow one another up to the one that throws. *)
Ltac reach_throw :=
  repeat first
    [ apply throws_throw
    | solve [apply throws_bind_l, throws_throw]
    | apply throws_bind_r; intros ?; cbv zeta ].

Lemma load_line_of_site_missing ppp ilos (y_los : Node) key :
  key ∈ line_of_site_keys -> FindValue y_los key = None ->
  throws (load_line_of_site ppp ilos y_los).
Proof.
  unfold line_of_site_keys, load_line_of_site. rewrite !elem_of_cons.
  intros [-> | [-> | [-> | [-> | Hnil]]]] Hmiss;
    [| | | | now apply elem_of_nil in Hnil];
    rewrite Hmiss; reach_throw.
Qed.

Lemma load_line_of_site_specifications_missing (y_loss y_los : Node) key :
  y_los ∈ items y_loss -> key ∈ line_of_site_keys ->
  FindValue y_los key = None ->
  throws (load_line_of_site_specifications env y_loss).
Proof.
  intros Hin Hkey Hmiss. unfold load_line_of_site_specifications.
  repeat (apply throws_bind_r; intros ?; cbv zeta).
  apply throws_for_each with (x := y_los); [assumption |].
  intros i. now apply load_line_of_site_missing with (key := key).
Qed.

Lemma load_specification_body_rejects (y_spec : Node) :
  incomplete y_spec -> throws (load_specification_body env y_spec).
Proof.
  intros Hbad. unfold load_specification_body.
  do 3 (apply throws_bind_r; intros ?).
  destruct Hbad as [(y_loss & y_los & key & -> & Hin & Hkey & Hmiss) | ->];
    apply throws_bind_call, throws_bind_l.
  - now apply load_line_of_site_specifications_missing
      with (y_los := y_los) (key := key).
  - apply throws_throw.
Qed.

Lemma load_specification_rejects ispec (y_spec : Node) :
  incomplete y_spec -> throws (load_specification env ispec y_spec).
Proof.
  intros Hbad self. rewrite load_specification_eq. unfold spec_outcome.
  destruct (load_specification_body_rejects y_spec Hbad fresh_objects)
    as (o & w & ->).
  eauto.
Qed.

(** [load] leaves the output frequency alone. *)
Lemma load_preserves_outputFreq (y_node : Node) :
  preserves outputFreq_ (load env y_node).
Proof.
  unfold load. destruct (FindValue y_node "data_probes"); [| apply preserves_ret].
  apply preserves_bind; [apply preserves_call |].
  intros [y_specs |]; [| apply preserves_ret].
  apply preserves_for_each. intros i y self.
  now rewrite load_specification_eq.
Qed.

Lemma constructor_realm realm (y_node : Node) :
  realm_ (constructor env realm y_node).1 = realm.
Proof. unfold constructor. now destruct (load env y_node _). Qed.

Lemma constructor_outcome realm (y_node : Node) :
  (constructor env realm y_node).2
  = (load env y_node (mkDataProbePostProcessing 10 [] [] [])).2.
Proof. unfold constructor. now destruct (load env y_node _). Qed.

Lemma constructor_this realm (y_node : Node) :
  this (constructor env realm y_node).1
  = (load env y_node (mkDataProbePostProcessing 10 [] [] [])).1.
Proof. unfold constructor. now destruct (load env y_node _). Qed.

(** C6, the claim on a document whose line-of-site entry has its four keys
    and whose output variable has no size: the load throws although no
    line-of-site key is missing. *)
Lemma complete_entries_may_still_fail :
  Forall (fun key =>
            FindValue (Tree.line_of_site "probe_x" 4 [1; 0; 0]%float
                         [0; 0; 0]%float) key <> None)
         line_of_site_keys /\
  (load Scenario.rank0_of_2
     (Tree.document [Scenario.spec_with_sizeless_output])
     Scenario.empty_module).2
  = Throw "DataProbePostProcessing::load() Sorry, field size must be provided".
Proof.
  split; [| vm_compute; reflexivity].
  repeat constructor; vm_compute; discriminate.
Qed.

(** C6 (amended): a line-of-site entry that lacks one of "name",
    "number_of_points", "tip_coordinates", "tail_coordinates" makes the
    construction throw, and so does a specification entry without a
    line-of-site sequence; the realm is as it was. *)
Theorem incomplete_entry_is_fatal realm (y_node y_dataProbe y_specs y_spec : Node) :
  FindValue y_node "data_probes" = Some y_dataProbe ->
  expect_sequence y_dataProbe "specifications" false = Ok (Some y_specs) ->
  y_spec ∈ items y_specs ->
  incomplete y_spec ->
  (exists what, (constructor env realm y_node).2 = Throw what) /\
  realm_ (constructor env realm y_node).1 = realm.
Proof.
  intros Hdp Hspecs Hin Hbad. split; [| apply constructor_realm].
  rewrite constructor_outcome. unfold load. rewrite Hdp.
  erewrite bind_Ok by (unfold call; rewrite Hspecs; reflexivity).
  destruct (throws_for_each (load_specification env) (items y_specs) y_spec
              Hin (fun i => load_specification_rejects i y_spec Hbad)
              0%nat (mkDataProbePostProcessing 10 [] [] []))
    as (self' & w & ->).
  now exists w.
Qed.

End LoaderRejects.

(* ===================================================================== *)
(** * Loading a well-formed specification *)
(* ===================================================================== *)

Section LoaderRoundTrip.

Context {Node : Type} {yaml : YamlApi Node}.
Variable env : NaluEnv.

Lemma write_from_length {A} (vs : list A) : forall i arr,
  length (write_from i vs arr) = length arr.
Proof.
  induction vs as [| v vs IH]; intros i arr; simpl; [done |].
  now rewrite IH, length_insert.
Qed.

(** Writing the whole tail of an array replaces it. *)
Lemma write_from_all {A} (vs : list A) : forall i arr,
  length arr = (i + length vs)%nat -> write_from i vs arr = take i arr ++ vs.
Proof.
  induction vs as [| v vs IH]; intros i arr Hlen; simpl in *.
  - rewrite app_nil_r. apply eq_sym, take_ge. lia.
  - rewrite IH by (rewrite length_insert; lia).
    rewrite (take_S_r _ _ v) by (apply list_lookup_insert_eq; lia).
    rewrite take_insert_ge by lia. now rewrite <- app_assoc.
Qed.

Lemma write_from_resize {A} (vs : list A) n d arr :
  length vs = n -> write_from 0 vs (resize n d arr) = vs.
Proof.
  intros <-. rewrite write_from_all; [done | now rewrite length_resize].
Qed.

Lemma fill_probes_eq ppp (ls : list LineOfSite) : forall ilos p,
  fill_probes ppp ilos ls p
  = mkDataProbeInfo (isLineOfSite_ p) (numProbes_ p)
      (write_from ilos (map los_name ls) (partName_ p))
      (write_from ilos (map (fun k => processorId k ppp) (seq ilos (length ls)))
         (processorId_ p))
      (write_from ilos (map los_numPoints ls) (numPoints_ p))
      (write_from ilos (map los_tip ls) (tipCoordinates_ p))
      (write_from ilos (map los_tail ls) (tailCoordinates_ p))
      (nodeVector_ p) (part_ p) (fieldInfo_ p).
Proof.
  induction ls as [| l ls IH]; intros ilos p; simpl.
  - now destruct p.
  - now rewrite IH.
Qed.

Lemma load_line_of_site_ok ppp ilos (y_los : Node) l o :
  decodes_line_of_site y_los l ->
  load_line_of_site ppp ilos y_los o = ((o.1, fill_probe ppp ilos l o.2), Ok tt).
Proof.
  intros (n & np & tip & tail & Hn & Rn & Hnp & Rnp & Htip & Rtip & Htail & Rtail).
  unfold load_line_of_site. rewrite Hn, Hnp, Htip, Htail.
  unfold bind, call, on_probeInfo, modify; simpl.
  rewrite Rn, Rnp, Rtip, Rtail. reflexivity.
Qed.

Lemma load_line_of_site_loop ppp (ys : list Node) ls :
  Forall2 decodes_line_of_site ys ls ->
  forall ilos o,
    for_each (load_line_of_site ppp) ilos ys o
    = ((o.1, fill_probes ppp ilos ls o.2), Ok tt).
Proof.
  induction 1 as [| y l ys ls Hy Hys IH]; intros ilos o.
  - now destruct o.
  - rewrite for_each_cons, (load_line_of_site_ok _ _ _ l) by assumption.
    now rewrite IH.
Qed.

Lemma vector_resize_nat {A} (n : nat) (d : A) v :
  vector_resize (Z.of_nat n) d v = Ok (resize n d v).
Proof.
  unfold vector_resize.
  destruct (Z.ltb_spec (Z.of_nat n) 0); [lia |]. now rewrite Nat2Z.id.
Qed.

Lemma load_line_of_site_specifications_ok (y_loss : Node) ls s p :
  Forall2 decodes_line_of_site (items y_loss) ls ->
  Z.of_nat (length ls) <= INT_MAX ->
  load_line_of_site_specifications env y_loss (s, p)
  = ((s, mkDataProbeInfo true (Z.of_nat (length ls))
           (map los_name ls)
           (map (owningRank (parallel_size env) (Z.of_nat (length ls)))
                (seq 0 (length ls)))
           (map los_numPoints ls) (map los_tip ls) (map los_tail ls)
           (resize (length ls) [] (nodeVector_ p))
           (resize (length ls) None (part_ p))
           (fieldInfo_ p)),
     Ok tt).
Proof.
  intros Hdec Hmax. unfold load_line_of_site_specifications.
  rewrite (Forall2_length _ _ _ Hdec).
  rewrite to_int_small by (unfold INT_MAX in *; lia).
  unfold bind at 1 2 3 4 5 6 7 8 9.
  unfold on_probeInfo, modify, resize_member; simpl.
  rewrite !vector_resize_nat; simpl.
  rewrite (load_line_of_site_loop _ _ ls Hdec); simpl.
  rewrite fill_probes_eq; simpl.
  rewrite !write_from_resize by now rewrite ?length_map, ?length_seq.
  reflexivity.
Qed.

Lemma load_output_variable_ok ioutput (y_output : Node) f o :
  decodes_output_variable y_output f ->
  load_output_variable ioutput y_output o
  = ((o.1, set_fieldInfo (fieldInfo_ o.2 ++ [field_descriptor f]) o.2), Ok tt).
Proof.
  intros (n & sz & Hn & Hsz & Rn & Rsz).
  unfold load_output_variable. rewrite Hn, Hsz.
  unfold bind, call. now rewrite Rn, Rsz.
Qed.

Lemma load_output_variable_loop (ys : list Node) outs :
  Forall2 decodes_output_variable ys outs ->
  forall ioutput o,
    for_each load_output_variable ioutput ys o
    = ((o.1, set_fieldInfo (fieldInfo_ o.2 ++ map field_descriptor outs) o.2),
       Ok tt).
Proof.
  induction 1 as [| y f ys outs Hy Hys IH]; intros ioutput [s p].
  - simpl. rewrite app_nil_r. now destruct p.
  - rewrite for_each_cons, (load_output_variable_ok _ _ f) by assumption.
    rewrite IH. simpl. unfold set_fieldInfo; simpl.
    now rewrite <- app_assoc.
Qed.

Lemma load_xferName_ok (y_spec theName : Node) xferName o :
  FindValue y_spec "name" = Some theName ->
  read_string theName = Ok xferName ->
  load_xferName y_spec o = ((set_xferName xferName o.1, o.2), Ok tt).
Proof.
  intros Hn Rn. unfold load_xferName. rewrite Hn.
  unfold bind, call. now rewrite Rn.
Qed.

Lemma load_target_loop (ys : list Node) names :
  Forall2 (fun y n => read_string y = Ok n) ys names ->
  forall i (o : Objects),
    for_each (fun i target =>
                v <- call (read_string target) ;;
                on_probeSpec (fun s =>
                  set_fromTargetNames (<[i := v]> (fromTargetNames_ s)) s))
             i ys o
    = ((set_fromTargetNames (write_from i names (fromTargetNames_ o.1)) o.1,
        o.2), Ok tt).
Proof.
  induction 1 as [| y n ys names Hy Hys IH]; intros i [s p].
  - simpl. now destruct s.
  - rewrite for_each_cons. unfold bind at 1, call at 1. rewrite Hy.
    unfold on_probeSpec at 1, modify at 1. now rewrite IH.
Qed.

Lemma load_fromTargetNames_ok (fromTargets : Node) names o :
  decodes_targets fromTargets names ->
  load_fromTargetNames fromTargets o
  = ((set_fromTargetNames names o.1, o.2), Ok tt).
Proof.
  unfold decodes_targets, load_fromTargetNames. destruct o as [s p].
  assert (Hseq : Forall2 (fun y n => read_string y = Ok n)
                   (items fromTargets) names ->
                 bind (on_probeSpec (fun s0 =>
                         set_fromTargetNames
                           (resize (length (items fromTargets)) ""
                              (fromTargetNames_ s0)) s0))
                   (fun _ =>
                      for_each (fun i target =>
                         v <- call (read_string target) ;;
                         on_probeSpec (fun s0 =>
                           set_fromTargetNames
                             (<[i := v]> (fromTargetNames_ s0)) s0))
                        0 (items fromTargets)) (s, p)
                 = ((set_fromTargetNames names s, p), Ok tt)).
  { intros Hall. unfold bind, on_probeSpec at 1, modify at 1.
    rewrite (load_target_loop _ _ Hall). simpl.
    rewrite write_from_resize by now apply Forall2_length in Hall.
    reflexivity. }
  destruct (NodeType_of fromTargets); try exact Hseq.
  intros (n & Rn & ->). unfold bind, call, on_probeSpec, modify; simpl.
  rewrite Rn. simpl. unfold set_fromTargetNames; simpl.
  now destruct (fromTargetNames_ s) as [| ? []].
Qed.

(** C8: a specification entry with [K] readable line-of-site entries and
    readable output variables loads without an exception; the registry
    gains one spec whose probe set has [K] descriptors in each of its
    parallel arrays and, per requested output variable, a field descriptor
    with the configured name followed by "_probe" and the configured size;
    without an "output_variables" sequence there is no field descriptor. *)
Theorem load_specification_round_trip ispec (y_spec theName fromTargets y_loss : Node)
    (y_outputs : option Node) xferName targetNames ls outs self :
  FindValue y_spec "name" = Some theName ->
  read_string theName = Ok xferName ->
  GetValue y_spec "from_target_part" = Ok fromTargets ->
  decodes_targets fromTargets targetNames ->
  expect_sequence y_spec "line_of_site_specifications" false = Ok (Some y_loss) ->
  Forall2 decodes_line_of_site (items y_loss) ls ->
  Z.of_nat (length ls) <= INT_MAX ->
  expect_sequence y_spec "output_variables" false = Ok y_outputs ->
  Forall2 decodes_output_variable (optional_items y_outputs) outs ->
  load_specification env ispec y_spec self
  = (set_dataProbeSpecInfo
       (dataProbeSpecInfo_ self
          ++ [mkDataProbeSpecInfo xferName targetNames [loaded_info env ls outs]])
       self, Ok tt) /\
  length (partName_ (loaded_info env ls outs)) = length ls /\
  length (processorId_ (loaded_info env ls outs)) = length ls /\
  length (numPoints_ (loaded_info env ls outs)) = length ls /\
  length (tipCoordinates_ (loaded_info env ls outs)) = length ls /\
  length (tailCoordinates_ (loaded_info env ls outs)) = length ls /\
  fieldInfo_ (loaded_info env ls outs)
  = map (fun f => (f.1 +:+ "_probe", f.2)) outs /\
  (y_outputs = None -> fieldInfo_ (loaded_info env ls outs) = []).
Proof.
  intros Hname Rname Htargets Dtargets Hloss Dloss Hmax Houts Douts.
  split; [| simpl; rewrite !length_map, length_seq; repeat split].
  - rewrite load_specification_eq.
    unfold spec_loaded, spec_outcome, load_specification_body, fresh_objects.
    erewrite bind_Ok by (eapply load_xferName_ok; eassumption).
    erewrite bind_Ok by (unfold call; rewrite Htargets; reflexivity).
    erewrite bind_Ok by (apply load_fromTargetNames_ok; eassumption).
    erewrite bind_Ok by (unfold call; rewrite Hloss; reflexivity).
    erewrite bind_Ok
      by (apply load_line_of_site_specifications_ok; eassumption).
    erewrite bind_Ok by (unfold call; rewrite Houts; reflexivity).
    destruct y_outputs as [y_outputs |]; simpl in Douts.
    + rewrite (load_output_variable_loop _ _ Douts).
      unfold registered, loaded_info; simpl. now rewrite !resize_nil.
    + inversion Douts; subst.
      unfold registered, loaded_info; simpl. now rewrite !resize_nil.
  - intros ->. simpl in Douts. now inversion Douts.
Qed.

End LoaderRoundTrip.

Lemma incomplete_entry_is_fatal_witness :
  (exists what,
     (constructor Scenario.rank0_of_2 Scenario.empty_realm
        (Tree.document [Scenario.good_spec; Scenario.spec_with_tailless_entry])).2
     = Throw what) /\
  realm_ (constructor Scenario.rank0_of_2 Scenario.empty_realm
            (Tree.document
               [Scenario.good_spec; Scenario.spec_with_tailless_entry])).1
  = Scenario.empty_realm.
Proof.
  apply (incomplete_entry_is_fatal Scenario.rank0_of_2 Scenario.empty_realm
           (Tree.document [Scenario.good_spec; Scenario.spec_with_tailless_entry])
           (Tree.Map [("specifications",
                       Tree.Seq [Scenario.good_spec;
                                 Scenario.spec_with_tailless_entry])])
           (Tree.Seq [Scenario.good_spec; Scenario.spec_with_tailless_entry])
           Scenario.spec_with_tailless_entry).
  - reflexivity.
  - reflexivity.
  - apply list_elem_of_further, list_elem_of_here.
  - left.
    exists (Tree.Seq [Tree.line_of_site "probe_x" 4 [1; 0; 0]%float
                        [0; 0; 0]%float; Scenario.tailless_entry]),
      Scenario.tailless_entry, "tail_coordinates".
    split; [reflexivity |]. split; [| split; [| reflexivity]].
    + apply list_elem_of_further, list_elem_of_here.
    + unfold line_of_site_keys. do 3 apply list_elem_of_further.
      apply list_elem_of_here.
Defined.

Lemma load_specification_round_trip_witness :
  load_specification Scenario.rank0_of_2 0 Scenario.spec_without_outputs
    Scenario.empty_module
  = (set_dataProbeSpecInfo
       (dataProbeSpecInfo_ Scenario.empty_module
          ++ [mkDataProbeSpecInfo "bare" ["block_1"]
                [loaded_info Scenario.rank0_of_2
                   [mkLineOfSite "probe_a" 2 (mkCoordinates 1 0 0)
                      (mkCoordinates 0 0 0);
                    mkLineOfSite "probe_b" 4 (mkCoordinates 0 1 0)
                      (mkCoordinates 0 0 0)] []]])
       Scenario.empty_module, Ok tt) /\
  length (partName_ (loaded_info Scenario.rank0_of_2
            [mkLineOfSite "probe_a" 2 (mkCoordinates 1 0 0) (mkCoordinates 0 0 0);
             mkLineOfSite "probe_b" 4 (mkCoordinates 0 1 0) (mkCoordinates 0 0 0)]
            [])) = 2%nat.
Proof.
  pose proof (load_specification_round_trip Scenario.rank0_of_2 0
                Scenario.spec_without_outputs (Tree.Str "bare")
                (Tree.Str "block_1")
                (Tree.Seq [Tree.line_of_site "probe_a" 2 [1; 0; 0]%float
                             [0; 0; 0]%float;
                           Tree.line_of_site "probe_b" 4 [0; 1; 0]%float
                             [0; 0; 0]%float])
                None "bare" ["block_1"]
                [mkLineOfSite "probe_a" 2 (mkCoordinates 1 0 0)
                   (mkCoordinates 0 0 0);
                 mkLineOfSite "probe_b" 4 (mkCoordinates 0 1 0)
                   (mkCoordinates 0 0 0)]
                [] Scenario.empty_module) as H.
  refine ((fun H' => conj (proj1 H') (proj1 (proj2 H'))) (H _ _ _ _ _ _ _ _ _)).
  - reflexivity.
  - reflexivity.
  - reflexivity.
  - exists "block_1". split; reflexivity.
  - reflexivity.
  - repeat constructor.
    + exists (Tree.Str "probe_a"), (Tree.Int 2),
        (Tree.Seq [Tree.Real 1; Tree.Real 0; Tree.Real 0]),
        (Tree.Seq [Tree.Real 0; Tree.Real 0; Tree.Real 0]).
      repeat split; reflexivity.
    + exists (Tree.Str "probe_b"), (Tree.Int 4),
        (Tree.Seq [Tree.Real 0; Tree.Real 1; Tree.Real 0]),
        (Tree.Seq [Tree.Real 0; Tree.Real 0; Tree.Real 0]).
      repeat split; reflexivity.
  - unfold INT_MAX. simpl. lia.
  - reflexivity.
  - constructor.
Defined.

(* ===================================================================== *)
(** * The output frequency and the sampling steps *)
(* ===================================================================== *)

Section SamplerSteps.

Context {engine : MeshEngine}.
Variable env : NaluEnv.

Lemma with_meta_preserves_this {T} (obs : DataProbePostProcessing -> T) c :
  (forall v d, obs (set_dataProbeSpecInfo v d) = obs d) ->
  preserves (fun w => obs (this w)) (with_meta c).
Proof.
  intros Hobs w. unfold with_meta.
  destruct (c _) as [[specs m] r]. apply Hobs.
Qed.

Lemma with_bulk_preserves_this {T} (obs : DataProbePostProcessing -> T) c :
  (forall v d, obs (set_dataProbeSpecInfo v d) = obs d) ->
  preserves (fun w => obs (this w)) (with_bulk c).
Proof.
  intros Hobs w. unfold with_bulk.
  destruct (c _) as [[specs b] r]. apply Hobs.
Qed.

Lemma setup_preserves_outputFreq :
  preserves (fun w => outputFreq_ (this w)) setup.
Proof. now apply with_meta_preserves_this. Qed.

Lemma create_inactive_selector_preserves_outputFreq :
  preserves (fun w => outputFreq_ (this w)) create_inactive_selector.
Proof. now apply preserves_modify. Qed.

Lemma initialize_preserves_outputFreq :
  preserves (fun w => outputFreq_ (this w)) (initialize env).
Proof.
  unfold initialize.
  apply preserves_bind; [now apply with_bulk_preserves_this | intros _].
  apply preserves_bind; [apply preserves_gets | intros nDim].
  apply preserves_bind; [now apply with_bulk_preserves_this | intros _].
  apply create_inactive_selector_preserves_outputFreq.
Qed.

Lemma print_preserves_this {T} (obs : DataProbePostProcessing -> T) l :
  preserves (fun w => obs (this w)) (print l).
Proof. now apply preserves_modify. Qed.

Lemma provide_average_preserves_this {T} (obs : DataProbePostProcessing -> T)
    currentTime timeStepCount :
  preserves (fun w => obs (this w)) (provide_average currentTime timeStepCount).
Proof.
  unfold provide_average.
  apply preserves_bind; [apply print_preserves_this | intros _].
  apply preserves_bind; [apply preserves_gets | intros specs].
  apply preserves_for_each. intros _ probeSpec.
  apply preserves_bind; [apply print_preserves_this | intros _].
  apply preserves_for_each. intros _ probeInfo.
  apply preserves_for_int. intros inp. unfold average_probe.
  apply preserves_bind; [apply print_preserves_this | intros _].
  apply preserves_for_each. intros _ fi. unfold average_field.
  apply preserves_bind; [apply preserves_call | intros zeros].
  apply preserves_bind; [apply preserves_gets | intros bulk].
  apply preserves_for_int. intros ifs. apply print_preserves_this.
Qed.

Lemma execute_preserves_this {T} (obs : DataProbePostProcessing -> T) :
  preserves (fun w => obs (this w)) execute.
Proof.
  intros w. unfold execute.
  destruct (_ =? 0); [apply provide_average_preserves_this | reflexivity].
Qed.

(** ** The console only grows *)

Lemma extends_ret {A} (a : A) : extends (ret a).
Proof. intros w. exists []. now rewrite app_nil_r. Qed.

Lemma extends_gets {A} (f : World -> A) : extends (gets f).
Proof. intros w. exists []. now rewrite app_nil_r. Qed.

Lemma extends_call {A} (r : result A) : extends (call r).
Proof. intros w. exists []. now rewrite app_nil_r. Qed.

Lemma extends_print l : extends (print l).
Proof. intros w. now exists [l]. Qed.

Lemma extends_bind {A B} (c : Exc World A) (k : A -> Exc World B) :
  extends c -> (forall a, extends (k a)) -> extends (bind c k).
Proof.
  intros Hc Hk w. unfold bind. destruct (Hc w) as [l1 E1].
  destruct (c w) as [w' [a | what]]; simpl in *; [| now exists l1].
  destruct (Hk a w') as [l2 E2]. exists (l1 ++ l2).
  now rewrite E2, E1, app_assoc.
Qed.

Lemma extends_for_each {A} (body : nat -> A -> Exc World unit) (v : list A) :
  (forall i x, extends (body i x)) -> forall i, extends (for_each body i v).
Proof.
  intros Hb. induction v as [| x v IH]; intros i; simpl.
  - apply extends_ret.
  - apply extends_bind; [apply Hb | intros _; apply IH].
Qed.

Lemma extends_for_int n (body : nat -> Exc World unit) :
  (forall i, extends (body i)) -> extends (for_int n body).
Proof. intros Hb. apply extends_for_each. intros _ x. apply Hb. Qed.

(** [provide_average] starts with its header line. *)
Lemma provide_average_header currentTime timeStepCount w :
  exists lines,
    cout (provide_average currentTime timeStepCount w).1
    = cout w ++ AverageHeader currentTime timeStepCount :: lines.
Proof.
  unfold provide_average.
  set (rest := (specs <- gets (fun w => dataProbeSpecInfo_ (this w)) ;; _)).
  assert (Hrest : extends rest).
  { apply extends_bind; [apply extends_gets | intros specs].
    apply extends_for_each. intros _ probeSpec.
    apply extends_bind; [apply extends_print | intros _].
    apply extends_for_each. intros _ probeInfo.
    apply extends_for_int. intros inp. unfold average_probe.
    apply extends_bind; [apply extends_print | intros _].
    apply extends_for_each. intros _ fi. unfold average_field.
    apply extends_bind; [apply extends_call | intros zeros].
    apply extends_bind; [apply extends_gets | intros bulk].
    apply extends_for_int. intros ifs. apply extends_print. }
  unfold bind, print at 1, modify at 1.
  destruct (Hrest (mkWorld (this w) (realm_ w)
                     (cout w ++ [AverageHeader currentTime timeStepCount])))
    as [lines E].
  exists lines. rewrite E. simpl. now rewrite <- app_assoc.
Qed.

End SamplerSteps.

(** C10: the constructor sets the output frequency to 10, [load] keeps the
    frequency it finds whatever the document, and so do [setup],
    [initialize], [create_inactive_selector], [review], [provide_average],
    [execute] and [get_inactive_selector]. *)
Theorem output_frequency_is_ten {Node : Type} {yaml : YamlApi Node}
    {engine : MeshEngine} (env : NaluEnv) (realm : Realm) (y_node : Node) :
  outputFreq_ (this (constructor env realm y_node).1) = 10 /\
  (forall self, outputFreq_ (load env y_node self).1 = outputFreq_ self) /\
  (forall w, outputFreq_ (this (setup w).1) = outputFreq_ (this w)) /\
  (forall w, outputFreq_ (this (initialize env w).1) = outputFreq_ (this w)) /\
  (forall w,
     outputFreq_ (this (create_inactive_selector w).1) = outputFreq_ (this w)) /\
  (forall currentTime timeStepCount w,
     outputFreq_ (this (provide_average currentTime timeStepCount w).1)
     = outputFreq_ (this w)) /\
  (forall w, outputFreq_ (this (execute w).1) = outputFreq_ (this w)) /\
  (forall probeInfo w,
     outputFreq_ (this (review probeInfo w).1) = outputFreq_ (this w)) /\
  (forall w,
     outputFreq_ (this (get_inactive_selector w).1) = outputFreq_ (this w)).
Proof.
  repeat apply conj.
  - rewrite constructor_this. now rewrite (load_preserves_outputFreq env y_node).
  - exact (load_preserves_outputFreq env y_node).
  - exact setup_preserves_outputFreq.
  - exact (initialize_preserves_outputFreq env).
  - exact create_inactive_selector_preserves_outputFreq.
  - intros t c. exact (provide_average_preserves_this outputFreq_ t c).
  - exact (execute_preserves_this outputFreq_).
  - exact (fun probeInfo w => eq_refl).
  - exact (fun w => eq_refl).
Qed.

(* ===================================================================== *)
(** * Loop invariants *)
(* ===================================================================== *)

Section LoopInvariants.

Context {St A : Type}.

(** A loop whose body never throws on the elements of the vector, with an
    invariant over the elements done so far. *)
Lemma for_each_invariant (body : nat -> A -> Exc St unit)
    (I : list A -> St -> Prop) (v : list A) :
  (forall i x done s, x ∈ v -> I done s ->
     exists s', body i x s = (s', Ok tt) /\ I (done ++ [x]) s') ->
  forall done i s, I done s ->
    exists s', for_each body i v s = (s', Ok tt) /\ I (done ++ v) s'.
Proof.
  induction v as [| x v IH]; intros Hbody done i s Hs.
  - exists s. now rewrite app_nil_r.
  - destruct (Hbody i x done s (list_elem_of_here _ _) Hs) as (s1 & E1 & H1).
    destruct (IH (fun i y done s Hy => Hbody i y done s
                    (list_elem_of_further _ _ _ Hy)) (done ++ [x]) (S i) s1 H1)
      as (s2 & E2 & H2).
    exists s2. rewrite for_each_cons, E1, E2.
    now rewrite <- app_assoc in H2.
Qed.

(** The same for a loop that writes through the elements. *)
Lemma zoom_each_invariant (body : Exc (A * St) unit)
    (I : list A -> list A -> St -> Prop) (v : list A) :
  (forall x done done' s, x ∈ v -> I done done' s ->
     exists x' s', body (x, s) = ((x', s'), Ok tt) /\
                   I (done ++ [x]) (done' ++ [x']) s') ->
  forall done done' s, I done done' s ->
    exists v' s', zoom_each body v s = ((v', s'), Ok tt) /\
                  I (done ++ v) (done' ++ v') s'.
Proof.
  induction v as [| x v IH]; intros Hbody done done' s Hs.
  - exists [], s. now rewrite !app_nil_r.
  - destruct (Hbody x done done' s (list_elem_of_here _ _) Hs)
      as (x' & s1 & E1 & H1).
    destruct (IH (fun y done done' s Hy => Hbody y done done' s
                    (list_elem_of_further _ _ _ Hy))
                (done ++ [x]) (done' ++ [x']) s1 H1)
      as (v' & s2 & E2 & H2).
    exists (x' :: v'), s2. simpl. rewrite E1, E2.
    now rewrite <- !app_assoc in H2.
Qed.

End LoopInvariants.

(* ===================================================================== *)
(** * Creation of the probe nodes *)
(* ===================================================================== *)

Section CreatePhase.

Context {engine : MeshEngine}.
Variable env : NaluEnv.

Lemma set_nodeVector_id p : set_nodeVector (nodeVector_ p) p = p.
Proof. now destruct p. Qed.

Lemma set_nodeVector_twice v v' p :
  set_nodeVector v (set_nodeVector v' p) = set_nodeVector v p.
Proof. reflexivity. Qed.

(** Storing a handle at every index of a vector of the right size. *)
Lemma store_handles (f : nat -> Entity) n : forall i (l : list Entity),
  length l = (i + n)%nat ->
  foldl (fun l k => <[k := f k]> l) l (seq i n) = take i l ++ map f (seq i n).
Proof.
  induction n as [| n IH]; intros i l Hlen; simpl.
  - rewrite app_nil_r. apply eq_sym, take_ge. lia.
  - rewrite IH by (rewrite length_insert; lia).
    rewrite (take_S_r _ _ (f i)) by (apply list_lookup_insert_eq; lia).
    rewrite take_insert_ge by lia. now rewrite <- app_assoc.
Qed.

(** The loop of lines 306-311 on the owning rank ... *)
Lemma declare_loop_owner part (ids : list EntityId) j (idx : list nat) :
  forall k info bulk, (j < length (nodeVector_ info))%nat ->
    for_each
      (fun _ i =>
         modify (fun s : DataProbeInfo * BulkData =>
           (s.1, record_call (DeclareEntity (ids !!! i) part) s.2)) ;;
         modify (fun s =>
           (set_nodeVector
              (<[j := <[i := ids !!! i]> (nodeVector_ s.1 !!! j)]>
                 (nodeVector_ s.1)) s.1, s.2)))
      k idx (info, bulk)
    = ((set_nodeVector
          (<[j := foldl (fun l i => <[i := ids !!! i]> l)
                    (nodeVector_ info !!! j) idx]> (nodeVector_ info)) info,
        mkBulkData
          (bulk_calls bulk ++ map (fun i => DeclareEntity (ids !!! i) part) idx)
          (field_writes bulk)), Ok tt).
Proof.
  induction idx as [| i idx IH]; intros k info bulk Hj.
  - simpl. rewrite app_nil_r.
    rewrite list_insert_id by now apply list_lookup_lookup_total_lt.
    rewrite set_nodeVector_id. now destruct bulk.
  - rewrite for_each_cons. unfold bind at 1, modify at 1 2. simpl.
    rewrite IH by (simpl; now rewrite length_insert).
    simpl. rewrite list_lookup_total_insert_eq by assumption.
    rewrite list_insert_insert_eq.
    unfold record_call; simpl. now rewrite <- app_assoc.
Qed.

(** ... and on the other ranks. *)
Lemma declare_loop_other {T} (idx : list nat) :
  forall k (s : T), for_each (fun _ _ => ret tt) k idx s = (s, Ok tt).
Proof.
  induction idx as [| i idx IH]; intros k s; [done |].
  rewrite for_each_cons. unfold ret at 1. apply IH.
Qed.

(** What [create_probe_nodes] does for a probe whose point count is not
    negative. *)
Lemma create_probe_nodes_effect j info bulk :
  0 <= numPoints_ info !!! j ->
  (j < length (nodeVector_ info))%nat ->
  create_probe_nodes env j (info, bulk)
  = ((if decide (processorId_ info !!! j = parallel_rank env)
      then set_nodeVector
             (<[j := created_nodes (fresh_ids (bulk_calls bulk)
                                      (numPoints_ info !!! j))
                       (numPoints_ info !!! j)]> (nodeVector_ info)) info
      else info,
      mkBulkData (bulk_calls bulk ++ probe_calls env info j (bulk_calls bulk))
        (field_writes bulk)), Ok tt).
Proof.
  intros Hn Hj. unfold create_probe_nodes, probe_calls, created_nodes.
  set (n := numPoints_ info !!! j) in *.
  set (pid := processorId_ info !!! j).
  set (part := part_ info !!! j).
  set (ids := fresh_ids (bulk_calls bulk) n).
  unfold bind at 1 2 3, gets at 1 2 3. simpl.
  fold n pid part.
  unfold bind at 1, call at 1, vector_resize.
  destruct (Z.ltb_spec n 0); [lia |].
  unfold bind at 1 2, gets at 1, modify at 1. simpl. fold ids.
  unfold for_int.
  destruct (decide (pid = parallel_rank env)) as [Hown | Hother].
  - unfold bind at 1 2, modify at 1 2. simpl.
    unfold bind at 1.
    rewrite declare_loop_owner by (simpl; now rewrite length_insert).
    unfold modify; simpl.
    rewrite list_lookup_total_insert_eq by assumption.
    rewrite list_insert_insert_eq.
    rewrite store_handles by (rewrite length_resize; lia).
    simpl. unfold record_call; simpl.
    rewrite <- !app_assoc. reflexivity.
  - unfold bind at 1 2, ret at 1, modify at 1. simpl.
    unfold bind at 1.
    rewrite declare_loop_other.
    unfold modify, record_call; simpl.
    rewrite <- !app_assoc. reflexivity.
Qed.

Lemma lookup_total_nonneg (l : list Z) j :
  Forall (fun n => 0 <= n) l -> 0 <= l !!! j.
Proof.
  intros Hall. rewrite list_lookup_total_alt.
  destruct (l !! j) as [n |] eqn:E; simpl; [| done].
  exact (Forall_lookup_1 _ _ _ _ Hall E).
Qed.

Lemma lookup_total_replicate_nil {T} n j : replicate n ([] : list T) !!! j = [].
Proof.
  rewrite list_lookup_total_alt.
  destruct (replicate n [] !! j) as [x |] eqn:E; simpl; [| done].
  now apply lookup_replicate in E as [-> _].
Qed.

Lemma provision_events_declared (f : nat -> EntityId) part (idx : list nat) :
  provision_events (map (fun i => DeclareEntity (f i) part) idx)
  = replicate (length idx) (Declared part).
Proof. induction idx as [| i idx IH]; simpl; [done | now f_equal]. Qed.

(** Seen without the identifiers, the calls for a probe are the expected
    ones. *)
Lemma provision_events_probe_calls info j history :
  provision_events (probe_calls env info j history) = expected_events env info j.
Proof.
  unfold probe_calls, expected_events, provision_events. simpl. f_equal.
  rewrite omap_app. simpl. rewrite app_nil_r.
  destruct (decide _); [| done].
  fold (provision_events
          (map (fun i => DeclareEntity
                  (fresh_ids history (numPoints_ info !!! j) !!! i)
                  (part_ info !!! j))
               (seq 0 (Z.to_nat (numPoints_ info !!! j))))).
  now rewrite provision_events_declared, length_seq.
Qed.

(** The loop over the probes of one probe set (lines 285-313). *)
Lemma create_info_nodes info0 bulk0 :
  ready info0 ->
  exists info' bulk',
    (numProbes <- gets (fun s : DataProbeInfo * BulkData => numProbes_ s.1) ;;
     for_int numProbes (create_probe_nodes env)) (info0, bulk0)
    = ((info', bulk'), Ok tt) /\
    nodes_created env info0 info' /\
    field_writes bulk' = field_writes bulk0 /\
    provision_events (bulk_calls bulk')
    = provision_events (bulk_calls bulk0)
        ++ flat_map (expected_events env info0) (probe_indices info0).
Proof.
  intros [Hnv Hnp].
  assert (Hlen : length (nodeVector_ info0) = Z.to_nat (numProbes_ info0))
    by (rewrite Hnv; apply length_replicate).
  set (I := fun (done : list nat) (s : DataProbeInfo * BulkData) =>
    s.1 = set_nodeVector (nodeVector_ s.1) info0 /\
    length (nodeVector_ s.1) = length (nodeVector_ info0) /\
    field_writes s.2 = field_writes bulk0 /\
    provision_events (bulk_calls s.2)
    = provision_events (bulk_calls bulk0)
        ++ flat_map (expected_events env info0) done /\
    forall k,
      if decide (processorId_ info0 !!! k = parallel_rank env)
      then k ∈ done ->
           length (nodeVector_ s.1 !!! k) = Z.to_nat (numPoints_ info0 !!! k)
      else nodeVector_ s.1 !!! k = nodeVector_ info0 !!! k).
  unfold bind at 1, gets at 1. simpl. unfold for_int.
  destruct (for_each_invariant (fun _ j => create_probe_nodes env j) I
              (seq 0 (Z.to_nat (numProbes_ info0)))) with
    (done := @nil nat) (i := 0%nat) (s := (info0, bulk0))
    as ([info' bulk'] & E & Hinfo & Hlen' & Hfw & Hev & Hnodes).
  - (* one probe *)
    intros _ j done [info bulk] Hj (Hinfo & Hlen' & Hfw & Hev & Hnodes).
    simpl in *. apply elem_of_seq in Hj.
    assert (Hnp' : numPoints_ info = numPoints_ info0) by now rewrite Hinfo.
    assert (Hpid : processorId_ info = processorId_ info0) by now rewrite Hinfo.
    assert (Hpart : part_ info = part_ info0) by now rewrite Hinfo.
    eexists. split.
    { apply create_probe_nodes_effect.
      - rewrite Hnp'. now apply lookup_total_nonneg.
      - lia. }
    unfold I; simpl. rewrite Hpid, Hnp'.
    assert (Hcalls : provision_events (probe_calls env info j (bulk_calls bulk))
                     = expected_events env info0 j).
    { rewrite provision_events_probe_calls. unfold expected_events.
      now rewrite Hnp', Hpid, Hpart. }
    destruct (decide (processorId_ info0 !!! j = parallel_rank env))
      as [Hown | Hother]; simpl.
    + repeat split.
      * rewrite Hinfo at 2. reflexivity.
      * now rewrite length_insert.
      * assumption.
      * unfold provision_events in *. rewrite omap_app, Hev, Hcalls.
        rewrite flat_map_app. simpl. now rewrite app_nil_r, <- app_assoc.
      * intros k. specialize (Hnodes k).
        destruct (decide (processorId_ info0 !!! k = parallel_rank env)).
        -- intros Hk. destruct (decide (k = j)) as [-> | Hne].
           ++ rewrite list_lookup_total_insert_eq by lia.
              unfold created_nodes. now rewrite length_map, length_seq.
           ++ rewrite list_lookup_total_insert_ne by done.
              apply Hnodes. apply elem_of_app in Hk as [Hk | Hk]; [done |].
              now apply list_elem_of_singleton in Hk.
        -- rewrite list_lookup_total_insert_ne by congruence. exact Hnodes.
    + repeat split; try assumption.
      * unfold provision_events in *. rewrite omap_app, Hev, Hcalls.
        rewrite flat_map_app. simpl. now rewrite app_nil_r, <- app_assoc.
      * intros k. specialize (Hnodes k).
        destruct (decide (processorId_ info0 !!! k = parallel_rank env));
          [| exact Hnodes].
        intros Hk. apply Hnodes.
        apply elem_of_app in Hk as [Hk | Hk]; [done |].
        apply list_elem_of_singleton in Hk. congruence.
  - (* the invariant holds before the loop *)
    unfold I; simpl. repeat split.
    + now rewrite set_nodeVector_id.
    + now rewrite app_nil_r.
    + intros k. destruct (decide _); [| done]. intros Hk. inversion Hk.
  - exists info', bulk'. simpl in *. split; [exact E |].
    split; [| split; [exact Hfw | exact Hev]].
    split; [exact Hinfo |]. split; [exact Hlen' |].
    intros j Hj. specialize (Hnodes j).
    destruct (decide (processorId_ info0 !!! j = parallel_rank env)).
    + apply Hnodes, elem_of_seq. lia.
    + rewrite Hnodes, Hnv. apply lookup_total_replicate_nil.
Qed.

End CreatePhase.

(* ===================================================================== *)
(** * The loop nest over the registry *)
(* ===================================================================== *)

Section RegistryLoops.

Context {St : Type}.

Lemma elem_of_flat_map {T U} (f : T -> list U) (l : list T) (x : U) :
  x ∈ flat_map f l <-> exists y, y ∈ l /\ x ∈ f y.
Proof.
  rewrite list_elem_of_In, in_flat_map.
  split; intros (y & Hy & Hx); exists y; now rewrite ?list_elem_of_In in *.
Qed.

Lemma Forall2_flat_map {T U V W} (R : V -> W -> Prop) (f : T -> list V)
    (g : U -> list W) (l : list T) (k : list U) :
  Forall2 (fun a b => Forall2 R (f a) (g b)) l k ->
  Forall2 R (flat_map f l) (flat_map g k).
Proof.
  induction 1 as [| a b l k Hab Hlk IH]; simpl; [constructor |].
  now apply Forall2_app.
Qed.

(** A body that never throws on the probe sets that satisfy [P], relates
    each probe set to what it becomes by [R], and maintains [I] over the
    probe sets done so far. *)
Lemma each_probeInfo_invariant (body : Exc (DataProbeInfo * St) unit)
    (P : DataProbeInfo -> Prop) (R : DataProbeInfo -> DataProbeInfo -> Prop)
    (I : list DataProbeInfo -> St -> Prop) :
  (forall info done s, P info -> I done s ->
     exists info' s', body (info, s) = ((info', s'), Ok tt) /\
                      R info info' /\ I (done ++ [info]) s') ->
  forall specs s,
    Forall P (flat_map dataProbeInfo_ specs) -> I [] s ->
    exists specs' s',
      each_probeInfo body (specs, s) = ((specs', s'), Ok tt) /\
      Forall2 (spec_related R) specs specs' /\
      I (flat_map dataProbeInfo_ specs) s'.
Proof.
  intros Hbody specs s HP HI. unfold each_probeInfo.
  destruct (zoom_each_invariant
              (fun '(probeSpec, s) =>
                 let '((infos, s'), r) :=
                   zoom_each body (dataProbeInfo_ probeSpec) s in
                 ((set_dataProbeInfo infos probeSpec, s'), r))
              (fun done done' s =>
                 Forall2 (spec_related R) done done' /\
                 I (flat_map dataProbeInfo_ done) s)
              specs) with (done := @nil DataProbeSpecInfo)
                          (done' := @nil DataProbeSpecInfo) (s := s)
    as (specs' & s' & E & Hrel & Hfinal).
  - (* one specification *)
    intros probeSpec done done' s0 Hin [Hrel HI0].
    destruct (zoom_each_invariant body
                (fun idone idone' s =>
                   Forall2 R idone idone' /\
                   I (flat_map dataProbeInfo_ done ++ idone) s)
                (dataProbeInfo_ probeSpec)) with
      (done := @nil DataProbeInfo) (done' := @nil DataProbeInfo) (s := s0)
      as (infos' & s1 & E1 & Hrel1 & HI1).
    + intros info idone idone' s1 Hinfo [Hrel1 HI1].
      destruct (Hbody info (flat_map dataProbeInfo_ done ++ idone) s1)
        as (info' & s2 & E2 & HR & HI2).
      * apply (proj1 (Forall_forall _ _) HP), elem_of_flat_map.
        now exists probeSpec.
      * assumption.
      * exists info', s2. split; [exact E2 |]. split.
        -- apply Forall2_app; [assumption | now repeat constructor].
        -- now rewrite app_assoc.
    + split; [constructor | now rewrite app_nil_r].
    + exists (set_dataProbeInfo infos' probeSpec), s1. rewrite E1.
      split; [reflexivity |]. simpl in *. split.
      * apply Forall2_app; [assumption |]. repeat constructor; assumption.
      * rewrite flat_map_app. simpl. now rewrite app_nil_r.
  - split; [constructor | assumption].
  - exists specs', s'. simpl in *. now rewrite E.
Qed.

End RegistryLoops.

(* ===================================================================== *)
(** * Placement of the probe nodes *)
(* ===================================================================== *)

Section PlacePhase.

Lemma coordinate_vector_ok nDim c :
  0 <= nDim -> exists v, coordinate_vector nDim c = Ok v.
Proof.
  intros H. unfold coordinate_vector, vector_resize.
  destruct (Z.ltb_spec nDim 0); [lia |]. eauto.
Qed.

(** The loop of lines 358-359 ... *)
Lemma write_loop (f : string) (node : Entity) (g : nat -> float) (idx : list nat) :
  forall k (info : DataProbeInfo) bulk,
    for_each (fun _ i =>
                modify (fun s : DataProbeInfo * BulkData =>
                  (s.1, write_field f node i (g i) s.2)))
             k idx (info, bulk)
    = ((info, mkBulkData (bulk_calls bulk)
                (rev (map (fun i => (f, node, i, g i)) idx) ++ field_writes bulk)),
       Ok tt).
Proof.
  induction idx as [| i idx IH]; intros k info bulk.
  - simpl. now destruct bulk.
  - rewrite for_each_cons. unfold modify at 1. simpl. rewrite IH. simpl.
    now rewrite <- app_assoc.
Qed.

(** ... and the loop of lines 355-360 around it. *)
Lemma node_loop nDim (value : nat -> nat -> float) (nodeVec : list Entity) :
  forall jn (info : DataProbeInfo) bulk,
    for_each (fun jn node =>
                for_int nDim (fun i =>
                  modify (fun s : DataProbeInfo * BulkData =>
                    (s.1, write_field "coordinates" node i (value jn i) s.2))))
             jn nodeVec (info, bulk)
    = ((info, mkBulkData (bulk_calls bulk)
                (rev (placed_writes nDim value jn nodeVec) ++ field_writes bulk)),
       Ok tt).
Proof.
  induction nodeVec as [| node nodeVec IH]; intros jn info bulk.
  - simpl. now destruct bulk.
  - rewrite for_each_cons. unfold for_int at 1.
    rewrite (write_loop "coordinates" node (value jn)). rewrite IH. simpl.
    unfold point_writes. now rewrite rev_app_distr, <- app_assoc.
Qed.

(** What [place_probe_nodes] does in a dimension that is not negative. *)
Lemma place_probe_nodes_effect nDim j info bulk :
  0 <= nDim ->
  exists tipC tailC,
    coordinate_vector nDim (tipCoordinates_ info !!! j) = Ok tipC /\
    coordinate_vector nDim (tailCoordinates_ info !!! j) = Ok tailC /\
    place_probe_nodes nDim j (info, bulk)
    = ((info,
        mkBulkData (bulk_calls bulk)
          (rev (placed_writes nDim
                  (fun jn i =>
                     (tailC !!! i
                      + to_double (Z.of_nat jn)
                        * spacing nDim tipC tailC (numPoints_ info !!! j) !!! i)%float)
                  0 (nodeVector_ info !!! j))
           ++ field_writes bulk)), Ok tt).
Proof.
  intros HnDim.
  destruct (coordinate_vector_ok nDim (tipCoordinates_ info !!! j) HnDim)
    as [tipC Etip].
  destruct (coordinate_vector_ok nDim (tailCoordinates_ info !!! j) HnDim)
    as [tailC Etail].
  exists tipC, tailC. split; [exact Etip |]. split; [exact Etail |].
  unfold place_probe_nodes.
  unfold bind at 1, gets at 1. simpl.
  unfold bind at 1, call at 1. simpl. rewrite Etip.
  unfold bind at 1, call at 1. simpl. rewrite Etail.
  unfold bind at 1, gets at 1. simpl.
  apply (node_loop nDim).
Qed.

End PlacePhase.

(* ===================================================================== *)
(** * initialize: identifiers on every rank, nodes on the owning rank *)
(* ===================================================================== *)

Section Initialize.

Context {engine : MeshEngine}.
Variable env : NaluEnv.

Lemma requests_of_events calls :
  requests_of calls = omap request_of (provision_events calls).
Proof.
  unfold requests_of, provision_events.
  induction calls as [| c calls IH]; [done |].
  destruct c; simpl; first [exact IH | now f_equal].
Qed.

Lemma requests_of_declared n part :
  omap request_of (replicate n (Declared part)) = [].
Proof. induction n as [| n IH]; [done | exact IH]. Qed.

Lemma requests_of_expected info (idx : list nat) :
  omap request_of (flat_map (expected_events env info) idx)
  = map (fun j => numPoints_ info !!! j) idx.
Proof.
  induction idx as [| j idx IH]; [done |].
  simpl. rewrite omap_app, IH. f_equal.
  destruct (decide _); [now rewrite requests_of_declared | done].
Qed.

Lemma requests_of_all_expected (infos : list DataProbeInfo) :
  omap request_of
    (flat_map (fun info => flat_map (expected_events env info)
                             (probe_indices info)) infos)
  = flat_map requested_points infos.
Proof.
  induction infos as [| info infos IH]; [done |].
  simpl. rewrite omap_app, IH. f_equal. apply requests_of_expected.
Qed.

(** The loop over the probes of one probe set (lines 330-361). *)
Lemma place_info_nodes nDim info bulk :
  0 <= nDim ->
  exists bulk',
    (numProbes <- gets (fun s : DataProbeInfo * BulkData => numProbes_ s.1) ;;
     for_int numProbes (place_probe_nodes nDim)) (info, bulk)
    = ((info, bulk'), Ok tt) /\
    bulk_calls bulk' = bulk_calls bulk.
Proof.
  intros HnDim. unfold bind at 1, gets at 1. simpl. unfold for_int.
  destruct (for_each_invariant (fun _ j => place_probe_nodes nDim j)
              (fun _ s => s.1 = info /\ bulk_calls s.2 = bulk_calls bulk)
              (seq 0 (Z.to_nat (numProbes_ info)))) with
    (done := @nil nat) (i := 0%nat) (s := (info, bulk))
    as ([info' bulk'] & E & Hinfo & Hcalls).
  - intros _ j _ [info1 bulk1] _ [Hinfo Hcalls]. simpl in *. subst info1.
    destruct (place_probe_nodes_effect nDim j info bulk1 HnDim)
      as (tipC & tailC & _ & _ & E).
    eexists. split; [exact E |]. simpl. now split.
  - now split.
  - simpl in *. subst info'. now exists bulk'.
Qed.

Lemma spec_related_eq probeSpec probeSpec' :
  spec_related eq probeSpec probeSpec' -> probeSpec' = probeSpec.
Proof.
  intros [E Hall]. apply list_eq_Forall2 in Hall.
  rewrite E, <- Hall. now destruct probeSpec.
Qed.

(** The requests and the declarations of [initialize] on a registry as
    [load] leaves it, with no negative point count, and the sizes of the
    node vectors afterwards. *)
Lemma initialize_provision (w : World) :
  Forall ready (all_probeInfo (this w)) ->
  0 <= to_int (spatial_dimension (meta_data (realm_ w))) ->
  exists w',
    initialize env w = (w', Ok tt) /\
    requests_of (bulk_calls (bulk_data (realm_ w')))
    = requests_of (bulk_calls (bulk_data (realm_ w)))
        ++ flat_map requested_points (all_probeInfo (this w)) /\
    provision_events (bulk_calls (bulk_data (realm_ w')))
    = provision_events (bulk_calls (bulk_data (realm_ w)))
        ++ flat_map (fun info => flat_map (expected_events env info)
                                   (probe_indices info))
             (all_probeInfo (this w)) /\
    Forall2 (nodes_created env) (all_probeInfo (this w)) (all_probeInfo (this w')).
Proof.
  intros Hready HnDim. unfold all_probeInfo in *.
  set (specs := dataProbeSpecInfo_ (this w)) in *.
  set (bulk := bulk_data (realm_ w)).
  (* the creation of the nodes *)
  destruct (each_probeInfo_invariant
              (numProbes <- gets (fun s : DataProbeInfo * BulkData =>
                                    numProbes_ s.1) ;;
               for_int numProbes (create_probe_nodes env))
              ready (nodes_created env)
              (fun done b =>
                 provision_events (bulk_calls b)
                 = provision_events (bulk_calls bulk)
                     ++ flat_map (fun info => flat_map (expected_events env info)
                                                (probe_indices info)) done))
    with (specs := specs) (s := bulk)
    as (specs1 & bulk1 & E1 & Hrel1 & Hev1).
  { intros info done b Hinfo Hev.
    destruct (create_info_nodes env info b Hinfo)
      as (info' & b' & E & Hcreated & _ & Hev').
    exists info', b'. split; [exact E |]. split; [exact Hcreated |].
    rewrite Hev', Hev, flat_map_app. simpl.
    now rewrite app_nil_r, <- app_assoc. }
  { exact Hready. }
  { simpl. now rewrite app_nil_r. }
  (* the placement *)
  destruct (each_probeInfo_invariant
              (numProbes <- gets (fun s : DataProbeInfo * BulkData =>
                                    numProbes_ s.1) ;;
               for_int numProbes
                 (place_probe_nodes
                    (to_int (spatial_dimension (meta_data (realm_ w))))))
              (fun _ => True) eq
              (fun _ b => bulk_calls b = bulk_calls bulk1))
    with (specs := specs1) (s := bulk1)
    as (specs2 & bulk2 & E2 & Hrel2 & Hcalls2).
  { intros info done b _ Hb.
    destruct (place_info_nodes _ info b HnDim) as (b' & E & Hb').
    exists info, b'. split; [exact E |]. split; [reflexivity | congruence]. }
  { apply Forall_forall. done. }
  { reflexivity. }
  assert (Hsame : specs2 = specs1).
  { apply eq_sym, list_eq_Forall2.
    eapply Forall2_impl; [exact Hrel2 |].
    intros a b Hab. now apply eq_sym, spec_related_eq. }
  subst specs2.
  eexists. split.
  { unfold initialize.
    erewrite bind_Ok by (unfold with_bulk; fold specs bulk; rewrite E1;
                         reflexivity).
    unfold bind at 1, gets at 1. cbn [realm_ meta_data set_bulk_data].
    erewrite bind_Ok
      by (unfold with_bulk; cbn [this realm_ bulk_data set_bulk_data
                                   dataProbeSpecInfo_ set_dataProbeSpecInfo];
          rewrite E2; reflexivity).
    reflexivity. }
  simpl. rewrite Hcalls2. split; [| split; [exact Hev1 |]].
  - rewrite !requests_of_events, Hev1, omap_app.
    now rewrite requests_of_all_expected.
  - apply Forall2_flat_map.
    eapply Forall2_impl; [exact Hrel1 |]. now intros a b [_ Hab].
Qed.

End Initialize.

(* ===================================================================== *)
(** * The sample points of a probe *)
(* ===================================================================== *)

Section SamplePoints.



Lemma placed_writes_ext nDim (v1 v2 : nat -> nat -> float) nodeVec :
  (forall jn i, (i < Z.to_nat nDim)%nat -> v1 jn i = v2 jn i) ->
  forall jn, placed_writes nDim v1 jn nodeVec = placed_writes nDim v2 jn nodeVec.
Proof.
  intros Hv. induction nodeVec as [| node nodeVec IH]; intros jn; [done |].
  simpl. rewrite IH. f_equal. unfold point_writes.
  apply map_ext_in. intros i Hi. apply in_seq in Hi. rewrite Hv by lia.
  reflexivity.
Qed.



End SamplePoints.


(* ===================================================================== *)
(** * The sampler *)
(* ===================================================================== *)

Section Sampler.

Context {engine : MeshEngine}.

Lemma emit_nil w : emit w [] = w.
Proof. unfold emit. rewrite app_nil_r. now destruct w. Qed.

Lemma emit_emit w l1 l2 : emit (emit w l1) l2 = emit w (l1 ++ l2).
Proof. unfold emit. simpl. now rewrite app_assoc. Qed.

(** A loop whose iterations only print. *)
Lemma for_each_emit {A} (body : nat -> A -> Exc World unit)
    (lines : A -> list OutputLine) (v : list A) w :
  (forall i x out, x ∈ v ->
     body i x (emit w out) = (emit w (out ++ lines x), Ok tt)) ->
  forall i out,
    for_each body i v (emit w out) = (emit w (out ++ flat_map lines v), Ok tt).
Proof.
  induction v as [| x v IH]; intros Hbody i out.
  - simpl. now rewrite app_nil_r.
  - rewrite for_each_cons, Hbody by apply list_elem_of_here.
    rewrite IH by (intros; apply Hbody; now apply list_elem_of_further).
    simpl. now rewrite app_assoc.
Qed.

(** One pass of the loop of lines 485-486 adds the node to every
    component. *)
Lemma accumulate_lookup bulk fieldName (meanValue : list float) node n :
  (n <= length meanValue)%nat ->
  forall ifs,
    fold_left
      (fun mv ifs =>
         <[ifs := (mv !!! ifs + read_field fieldName node ifs bulk)%float]> mv)
      (seq 0 n) meanValue !!! ifs
    = if decide (ifs < n)%nat
      then (meanValue !!! ifs + read_field fieldName node ifs bulk)%float
      else meanValue !!! ifs.
Proof.
  induction n as [| n IH]; intros Hn ifs.
  - simpl. destruct (decide (ifs < 0)%nat); [lia | done].
  - rewrite seq_S, fold_left_app. simpl.
    assert (Hlen : forall m mv0,
               length (fold_left
                         (fun mv ifs =>
                            <[ifs := (mv !!! ifs
                                      + read_field fieldName node ifs bulk)%float]>
                              mv) (seq 0 m) mv0) = length mv0).
    { intros m. induction m as [| m IHm]; intros mv0; [done |].
      rewrite seq_S, fold_left_app. simpl. now rewrite length_insert, IHm. }
    destruct (decide (ifs = n)) as [-> | Hne].
    + rewrite list_lookup_total_insert_eq by (rewrite Hlen; lia).
      rewrite IH by lia.
      destruct (decide (n < n)%nat); [lia |].
      destruct (decide (n < S n)%nat); [done | lia].
    + rewrite list_lookup_total_insert_ne by done. rewrite IH by lia.
      destruct (decide (ifs < n)%nat), (decide (ifs < S n)%nat);
        try lia; reflexivity.
Qed.

Lemma accumulate_length bulk fieldName fieldSize meanValue node :
  length (accumulate bulk fieldName fieldSize meanValue node) = length meanValue.
Proof.
  unfold accumulate. generalize (Z.to_nat fieldSize) as m.
  intros m. revert meanValue.
  induction m as [| m IHm]; intros mv0; [done |].
  rewrite seq_S, fold_left_app. simpl. now rewrite length_insert, IHm.
Qed.

(** The loops of lines 482-487 leave the sum over the nodes in every
    component. *)
Lemma meanValue_is_field_sum bulk fieldName fieldSize (nodeVec : list Entity) :
  forall (meanValue : list float) ifs,
    length meanValue = Z.to_nat fieldSize ->
    (ifs < Z.to_nat fieldSize)%nat ->
    fold_left (accumulate bulk fieldName fieldSize) nodeVec meanValue !!! ifs
    = fold_left (fun acc node => (acc + read_field fieldName node ifs bulk)%float)
        nodeVec (meanValue !!! ifs).
Proof.
  induction nodeVec as [| node nodeVec IH]; intros meanValue ifs Hlen Hifs.
  - reflexivity.
  - simpl. rewrite IH by (rewrite ?accumulate_length; assumption).
    f_equal. unfold accumulate. rewrite accumulate_lookup by lia.
    now destruct (decide (ifs < Z.to_nat fieldSize)%nat).
Qed.

Lemma print_loop (line : nat -> OutputLine) (idx : list nat) :
  forall i w out,
    for_each (fun _ ifs => print (line ifs)) i idx (emit w out)
    = (emit w (out ++ map line idx), Ok tt).
Proof.
  induction idx as [| k idx IH]; intros i w out.
  - simpl. now rewrite app_nil_r.
  - rewrite for_each_cons. unfold print at 1, modify at 1.
    change (mkWorld (this (emit w out)) (realm_ (emit w out))
              (cout (emit w out) ++ [line k]))
      with (emit (emit w out) [line k]).
    rewrite emit_emit, IH. simpl. now rewrite <- app_assoc.
Qed.

(** One field of one probe (lines 475-491). *)
Lemma average_field_effect nodeVec numPoints (fi : string * Z) w out :
  0 <= fi.2 ->
  average_field nodeVec numPoints fi (emit w out)
  = (emit w (out ++ mean_lines (bulk_data (realm_ w)) nodeVec numPoints fi),
     Ok tt).
Proof.
  intros Hsize. unfold average_field, mean_lines.
  unfold bind at 1, call at 1, vector_resize.
  destruct (Z.ltb_spec fi.2 0); [lia |].
  unfold bind at 1, gets at 1. unfold for_int.
  rewrite print_loop. do 2 f_equal. f_equal.
  apply map_ext_in. intros ifs Hifs. apply in_seq in Hifs. do 2 f_equal.
  rewrite meanValue_is_field_sum by (rewrite ?length_resize; lia).
  unfold field_sum. f_equal. rewrite resize_nil.
  apply lookup_total_replicate_2. lia.
Qed.

Lemma print_emit l w out : print l (emit w out) = (emit w (out ++ [l]), Ok tt).
Proof. unfold print, modify, emit. simpl. now rewrite app_assoc. Qed.

(** One probe (lines 463-492). *)
Lemma average_probe_effect probeInfo inp w out :
  Forall (fun fi : string * Z => 0 <= fi.2) (fieldInfo_ probeInfo) ->
  average_probe probeInfo inp (emit w out)
  = (emit w (out ++ probe_lines (bulk_data (realm_ w)) probeInfo inp), Ok tt).
Proof.
  intros Hsizes. unfold average_probe, probe_lines.
  erewrite bind_Ok by apply print_emit.
  rewrite (for_each_emit _
             (mean_lines (bulk_data (realm_ w)) (nodeVector_ probeInfo !!! inp)
                (numPoints_ probeInfo !!! inp))).
  - now rewrite <- app_assoc.
  - intros i fi out1 Hfi. apply average_field_effect.
    exact (proj1 (Forall_forall _ _) Hsizes fi Hfi).
Qed.

(** The whole of [provide_average]. *)
Lemma provide_average_effect currentTime timeStepCount w :
  Forall (fun info => Forall (fun fi : string * Z => 0 <= fi.2) (fieldInfo_ info))
    (all_probeInfo (this w)) ->
  provide_average currentTime timeStepCount w
  = (emit w (AverageHeader currentTime timeStepCount
             :: flat_map (spec_lines (bulk_data (realm_ w)))
                  (dataProbeSpecInfo_ (this w))), Ok tt).
Proof.
  intros Hsizes. unfold provide_average.
  rewrite <- (emit_nil w) at 1.
  erewrite bind_Ok by apply print_emit.
  unfold bind at 1, gets at 1. simpl.
  rewrite (for_each_emit _ (spec_lines (bulk_data (realm_ w)))); [done |].
  intros _ probeSpec out HprobeSpec.
  erewrite bind_Ok by apply print_emit.
  rewrite (for_each_emit _ (info_lines (bulk_data (realm_ w)))).
  { unfold spec_lines. simpl. now rewrite <- app_assoc. }
  intros _ probeInfo out1 HprobeInfo. unfold for_int.
  rewrite (for_each_emit _ (probe_lines (bulk_data (realm_ w)) probeInfo));
    [done |].
  intros _ inp out2 _. apply average_probe_effect.
  apply (proj1 (Forall_forall _ _) Hsizes), elem_of_flat_map.
  now exists probeSpec.
Qed.

End Sampler.

(** C2, the claim on the rank that does not own the probe of three points:
    this rank holds no node of the probe, the sum over no node divided by
    the number of owned nodes would be 0/0, which is not a number, and the
    sampler reports the mean 0 for every component: it divides by the
    point count 3. *)
Lemma report_divides_by_point_count :
  map nodeVector_ (all_probeInfo (this Scenario.good_world_rank1)) = [[[]]] /\
  map numPoints_ (all_probeInfo (this Scenario.good_world_rank1)) = [[3]] /\
  (field_sum (bulk_data (realm_ Scenario.good_world_rank1)) "temperature_probe"
     [] 0 / to_double (Z.of_nat (length (@nil Entity))))%float = nan /\
  cout (execute Scenario.good_world_rank1).1
  = [AverageHeader 0 0; SpecificationName "probes"; ProbeName "probe_z";
     MeanValue "temperature_probe" 0 0; MeanValue "velocity_probe" 0 0;
     MeanValue "velocity_probe" 1 0; MeanValue "velocity_probe" 2 0].
Proof. repeat split; vm_compute; reflexivity. Qed.

(** C2 (amended): for every probe and every requested field, the value
    reported for a component is the sum of that component over the nodes
    this rank holds for the probe, divided by the point count of the
    probe; on the owning rank, after [initialize], the point count is the
    number of nodes held; with a point count of zero the division is 0/0,
    which is not a number. *)
Theorem sampler_reports_sum_over_point_count currentTime timeStepCount (w : World) :
  Forall (fun info => Forall (fun fi : string * Z => 0 <= fi.2) (fieldInfo_ info))
    (all_probeInfo (this w)) ->
  provide_average currentTime timeStepCount w
  = (emit w (AverageHeader currentTime timeStepCount
             :: flat_map (spec_lines (bulk_data (realm_ w)))
                  (dataProbeSpecInfo_ (this w))), Ok tt) /\
  (forall nodeVec numPoints (fi : string * Z) out,
     0 <= fi.2 ->
     average_field nodeVec numPoints fi (emit w out)
     = (emit w
          (out ++ map (fun ifs =>
                         MeanValue fi.1 ifs
                           (fold_left
                              (fun acc node =>
                                 acc + read_field fi.1 node ifs
                                         (bulk_data (realm_ w)))
                              nodeVec 0
                            / to_double numPoints)%float)
                    (seq 0 (Z.to_nat fi.2))), Ok tt)) /\
  (forall env info info' j,
     nodes_created env info info' ->
     (j < Z.to_nat (numProbes_ info))%nat ->
     processorId_ info !!! j = parallel_rank env ->
     0 <= numPoints_ info !!! j ->
     numPoints_ info' !!! j = Z.of_nat (length (nodeVector_ info' !!! j))) /\
  (forall bulk fieldName ifs,
     (field_sum bulk fieldName [] ifs / to_double 0)%float = nan).
Proof.
  intros Hsizes. split; [now apply provide_average_effect |].
  split; [| split].
  - intros nodeVec numPoints fi out Hfi. now apply average_field_effect.
  - intros env info info' j (Hinfo & _ & Hnodes) Hj Hown Hn.
    specialize (Hnodes j Hj).
    destruct (decide (processorId_ info !!! j = parallel_rank env)); [| done].
    rewrite Hnodes, Hinfo. simpl. lia.
  - intros bulk fieldName ifs. vm_compute. reflexivity.
Qed.

Lemma sampler_reports_sum_over_point_count_witness :
  provide_average 0 0 Scenario.good_world_rank1
  = (emit Scenario.good_world_rank1
       (AverageHeader 0 0
        :: flat_map (spec_lines (bulk_data (realm_ Scenario.good_world_rank1)))
             (dataProbeSpecInfo_ (this Scenario.good_world_rank1))), Ok tt).
Proof.
  refine (proj1 (sampler_reports_sum_over_point_count 0 0
                   Scenario.good_world_rank1 _)).
  repeat constructor; simpl; lia.
Defined.

(* ===================================================================== *)
(** * The sampling steps *)
(* ===================================================================== *)

Section SamplingSteps.

Lemma emit_changes_the_console w l lines : emit w (l :: lines) <> w.
Proof.
  intros E. apply (f_equal cout), (f_equal length) in E.
  unfold emit in E. simpl in E. rewrite length_app in E. simpl in E. lia.
Qed.

(** C7: with an output frequency that is not zero and no requested field
    of negative size, [execute] reports the averages, the header and every
    line of means included, exactly when the step count modulo the output
    frequency is zero, and is idle exactly when it is not; with the
    frequency 10 it reports exactly at the multiples of ten and is idle
    exactly at the other steps. *)
Theorem execute_samples_on_output_steps (w : World) :
  outputFreq_ (this w) <> 0 ->
  Forall (fun info => Forall (fun fi : string * Z => 0 <= fi.2) (fieldInfo_ info))
    (all_probeInfo (this w)) ->
  (reports_averages w
   <-> Z.rem (time_step_count (realm_ w)) (outputFreq_ (this w)) = 0) /\
  (idle w
   <-> Z.rem (time_step_count (realm_ w)) (outputFreq_ (this w)) <> 0) /\
  (outputFreq_ (this w) = 10 ->
   (reports_averages w <-> exists k, time_step_count (realm_ w) = 10 * k) /\
   (idle w <-> ~ exists k, time_step_count (realm_ w) = 10 * k)).
Proof.
  intros _ Hsizes.
  assert (Hyes : Z.rem (time_step_count (realm_ w)) (outputFreq_ (this w)) = 0 ->
                 reports_averages w /\ ~ idle w).
  { intros Hz. assert (E : reports_averages w).
    { unfold reports_averages, execute. rewrite Hz. simpl.
      now apply provide_average_effect. }
    split; [exact E |]. unfold idle. rewrite E. intros [= H].
    now apply emit_changes_the_console in H. }
  assert (Hno : Z.rem (time_step_count (realm_ w)) (outputFreq_ (this w)) <> 0 ->
                idle w /\ ~ reports_averages w).
  { intros Hnz. assert (E : idle w).
    { unfold idle, execute.
      now destruct (Z.eqb_spec (Z.rem (time_step_count (realm_ w))
                                  (outputFreq_ (this w))) 0). }
    split; [exact E |]. unfold reports_averages. rewrite E. intros [= H].
    now apply eq_sym, emit_changes_the_console in H. }
  assert (Hgate : (reports_averages w
                   <-> Z.rem (time_step_count (realm_ w))
                         (outputFreq_ (this w)) = 0) /\
                  (idle w
                   <-> Z.rem (time_step_count (realm_ w))
                         (outputFreq_ (this w)) <> 0)).
  { destruct (Z.eq_dec (Z.rem (time_step_count (realm_ w))
                          (outputFreq_ (this w))) 0) as [Hz | Hnz].
    - destruct (Hyes Hz). split; split; tauto.
    - destruct (Hno Hnz). split; split; tauto. }
  split; [apply Hgate |]. split; [apply Hgate |].
  intros Hten. rewrite Hten in Hgate.
  assert (Hdiv : Z.rem (time_step_count (realm_ w)) 10 = 0
                 <-> exists k, time_step_count (realm_ w) = 10 * k).
  { split.
    - intros Hz.
      destruct (proj1 (Z.rem_divide _ 10 ltac:(lia)) Hz) as [k Hk].
      exists k. lia.
    - intros [k Hk]. apply (proj2 (Z.rem_divide _ 10 ltac:(lia))).
      exists k. lia. }
  destruct Hgate as [Hr Hi]. split.
  - now rewrite Hr.
  - now rewrite Hi, Hdiv.
Qed.

End SamplingSteps.

Lemma execute_samples_on_output_steps_witness :
  (reports_averages Scenario.good_world_rank1
   <-> Z.rem (time_step_count (realm_ Scenario.good_world_rank1))
         (outputFreq_ (this Scenario.good_world_rank1)) = 0) /\
  (idle Scenario.good_world_rank1
   <-> Z.rem (time_step_count (realm_ Scenario.good_world_rank1))
         (outputFreq_ (this Scenario.good_world_rank1)) <> 0) /\
  (outputFreq_ (this Scenario.good_world_rank1) = 10 ->
   (reports_averages Scenario.good_world_rank1
    <-> exists k, time_step_count (realm_ Scenario.good_world_rank1) = 10 * k) /\
   (idle Scenario.good_world_rank1
    <-> ~ exists k, time_step_count (realm_ Scenario.good_world_rank1) = 10 * k)).
Proof.
  apply (execute_samples_on_output_steps Scenario.good_world_rank1).
  - simpl. lia.
  - repeat constructor; simpl; lia.
Defined.

(* ===================================================================== *)
(** * Further properties of the ownership partition *)
(* ===================================================================== *)

Section PartitionBlocks.

(** On a run of at least one rank, probe [i] is assigned rank [r] exactly
    when [i] lies in the [r]-th block of [probePerProc] consecutive
    indices. *)
Lemma owningRank_block numProcs numProbes (i : nat) r :
  0 < numProcs -> 0 <= numProbes <= INT_MAX -> Z.of_nat i < numProbes ->
  owningRank numProcs numProbes i = r <->
  r * probePerProc numProcs numProbes <= Z.of_nat i
    < (r + 1) * probePerProc numProcs numProbes.
Proof.
  intros Hp Hn Hi. rewrite owningRank_div by assumption.
  pose proof (probePerProc_pos numProcs numProbes Hp Hn) as Hppp.
  set (ppp := probePerProc numProcs numProbes) in *.
  split.
  - intros <-. pose proof (Z.div_mod (Z.of_nat i) ppp ltac:(lia)).
    pose proof (Z.mod_pos_bound (Z.of_nat i) ppp ltac:(lia)). nia.
  - intros Hr. symmetry. apply (Z.div_unique _ _ _ (Z.of_nat i - r * ppp)); lia.
Qed.

Lemma filter_all {A} (P : A -> Prop) `{!forall x, Decision (P x)} (l : list A) :
  Forall P l -> filter P l = l.
Proof.
  induction 1 as [| x l Hx _ IH]; [reflexivity |].
  now rewrite filter_cons_True, IH.
Qed.

Lemma filter_none {A} (P : A -> Prop) `{!forall x, Decision (P x)} (l : list A) :
  Forall (fun x => ~ P x) l -> filter P l = [].
Proof.
  induction 1 as [| x l Hx _ IH]; [reflexivity |].
  now rewrite filter_cons_False.
Qed.

Lemma owningRank_filter_block numProcs numProbes r :
  0 < numProcs -> 0 <= numProbes <= INT_MAX ->
  0 <= r -> (r + 1) * probePerProc numProcs numProbes <= numProbes ->
  filter (fun i : nat => owningRank numProcs numProbes i = r)
    (seq 0 (Z.to_nat numProbes))
  = seq (Z.to_nat (r * probePerProc numProcs numProbes))
      (Z.to_nat (probePerProc numProcs numProbes)).
Proof.
  intros Hp Hn Hr Hblock.
  pose proof (probePerProc_pos numProcs numProbes Hp Hn) as Hppp.
  set (ppp := probePerProc numProcs numProbes) in *.
  set (a := Z.to_nat (r * ppp)). set (b := Z.to_nat ppp).
  replace (Z.to_nat numProbes)
    with (a + (b + (Z.to_nat numProbes - a - b)))%nat by (unfold a, b; nia).
  rewrite !seq_app, !filter_app. simpl.
  rewrite (filter_none _ (seq 0 a)), (filter_all _ (seq a b)),
    (filter_none _ (seq (a + b) _)); [now rewrite app_nil_r | | |];
    apply Forall_forall; intros i Hi%elem_of_seq;
    rewrite owningRank_block by (assumption || lia); fold ppp;
    unfold a, b in *; nia.
Qed.

(** X1: with at least as many probes as ranks, the probes assigned to a rank
    of the run are the [numProbes / numProcs] consecutive probes from [rank
    * (numProbes / numProcs)] on: every rank owns the same number of probes. *)
Theorem each_rank_owns_a_block numProcs numProbes r :
  0 < numProcs -> numProcs <= numProbes <= INT_MAX -> 0 <= r < numProcs ->
  filter (fun i : nat => owningRank numProcs numProbes i = r)
    (seq 0 (Z.to_nat numProbes))
  = seq (Z.to_nat (r * (numProbes / numProcs)))
      (Z.to_nat (numProbes / numProcs)).
Proof.
  intros Hp Hn Hr.
  assert (Hq : 0 <= numProbes / numProcs <= numProbes).
  { split; [apply Z.div_pos; lia | apply Z.div_le_upper_bound; nia]. }
  assert (Hppp : probePerProc numProcs numProbes = numProbes / numProcs).
  { unfold probePerProc. rewrite Z.gtb_ltb.
    destruct (Z.ltb_spec numProbes numProcs) as [? | _]; [lia |].
    rewrite Z.quot_div_nonneg by lia.
    apply to_int_small. unfold INT_MAX in *. lia. }
  rewrite <- Hppp. apply owningRank_filter_block; try lia.
  rewrite Hppp. pose proof (Z.mul_div_le numProbes numProcs ltac:(lia)). nia.
Qed.

Lemma each_rank_owns_a_block_witness :
  filter (fun i : nat => owningRank 2 7 i = 1) (seq 0 (Z.to_nat 7))
  = seq (Z.to_nat (1 * (7 / 2))) (Z.to_nat (7 / 2)).
Proof.
  apply (each_rank_owns_a_block 2 7 1).
  - lia.
  - unfold INT_MAX. lia.
  - lia.
Defined.

(** X2: the rank assigned to a probe is never negative and does not decrease
    along the probe index. *)
Theorem owning_rank_nonnegative_and_monotone numProcs numProbes (i j : nat) :
  0 < numProcs -> 0 <= numProbes <= INT_MAX ->
  (i <= j)%nat -> Z.of_nat j < numProbes ->
  0 <= owningRank numProcs numProbes i <= owningRank numProcs numProbes j.
Proof.
  intros Hp Hn Hij Hj. split.
  - apply owningRank_nonneg; lia.
  - now apply owningRank_mono.
Qed.

Lemma owning_rank_nonnegative_and_monotone_witness :
  0 <= owningRank 2 7 3 <= owningRank 2 7 6.
Proof.
  exact (owning_rank_nonnegative_and_monotone 2 7 3 6
           ltac:(lia) ltac:(unfold INT_MAX; lia) ltac:(lia) ltac:(lia)).
Defined.

(** X3: with at least as many probes as ranks, the rank assigned to probe
    [i] is a rank of the run exactly when [i] is below [numProbes -
    numProbes mod numProcs]: the last [numProbes mod numProcs] probes are
    assigned a rank that no process has. *)
Theorem owning_rank_valid_iff_before_remainder numProcs numProbes (i : nat) :
  0 < numProcs -> numProcs <= numProbes <= INT_MAX -> Z.of_nat i < numProbes ->
  owningRank numProcs numProbes i < numProcs <->
  Z.of_nat i < numProbes - numProbes mod numProcs.
Proof.
  intros Hp Hn Hi. rewrite owningRank_div by lia.
  unfold probePerProc. rewrite Z.gtb_ltb.
  destruct (Z.ltb_spec numProbes numProcs) as [Hlt | Hge]; [lia |].
  rewrite Z.quot_div_nonneg by lia.
  assert (Hq : 1 <= numProbes / numProcs <= numProbes).
  { split; [apply Z.div_le_lower_bound; lia |].
    apply Z.div_le_upper_bound; nia. }
  rewrite to_int_small by (unfold INT_MAX in *; lia).
  pose proof (Z.div_mod numProbes numProcs ltac:(lia)) as Hdm.
  replace (numProbes - numProbes mod numProcs)
    with (numProbes / numProcs * numProcs) by lia.
  split.
  - intros Hlt.
    pose proof (Z.div_mod (Z.of_nat i) (numProbes / numProcs) ltac:(lia)).
    pose proof (Z.mod_pos_bound (Z.of_nat i) (numProbes / numProcs) ltac:(lia)).
    nia.
  - intros Hlt. apply Z.div_lt_upper_bound; lia.
Qed.

Lemma owning_rank_valid_iff_before_remainder_witness :
  owningRank 2 7 6 < 2 <-> 6 < 7 - 7 mod 2.
Proof.
  exact (owning_rank_valid_iff_before_remainder 2 7 6
           ltac:(lia) ltac:(unfold INT_MAX; lia) ltac:(lia)).
Defined.

End PartitionBlocks.

(* ===================================================================== *)
(** * Further properties of the loader *)
(* ===================================================================== *)

Section LoaderDocument.

Context {Node : Type} {yaml : YamlApi Node}.
Variable env : NaluEnv.

(** A readable entry loads into its spec object, without an exception. *)
Lemma spec_loaded_of_view (y_spec : Node) v :
  decodes_specification y_spec v ->
  spec_loaded env y_spec = loaded_spec env v /\ spec_outcome env y_spec = Ok tt.
Proof.
  intros (theName & fromTargets & y_loss & y_outputs & Hname & Rname & Htargets
          & Dtargets & Hloss & Dloss & Hmax & Houts & Douts).
  assert (E : load_specification_body env y_spec fresh_objects
              = ((mkDataProbeSpecInfo (view_name v) (view_targets v) [],
                  loaded_info env (view_los v) (view_outputs v)), Ok tt)).
  { unfold load_specification_body, fresh_objects.
    erewrite bind_Ok by (eapply load_xferName_ok; eassumption).
    erewrite bind_Ok by (unfold call; rewrite Htargets; reflexivity).
    erewrite bind_Ok by (apply load_fromTargetNames_ok; eassumption).
    erewrite bind_Ok by (unfold call; rewrite Hloss; reflexivity).
    erewrite bind_Ok
      by (apply load_line_of_site_specifications_ok; eassumption).
    erewrite bind_Ok by (unfold call; rewrite Houts; reflexivity).
    destruct y_outputs as [y_outputs |]; simpl in Douts.
    - rewrite (load_output_variable_loop _ _ Douts).
      unfold loaded_info; simpl. now rewrite !resize_nil.
    - inversion Douts; subst.
      unfold loaded_info; simpl. now rewrite !resize_nil. }
  unfold spec_loaded, spec_outcome. now rewrite E.
Qed.

Lemma load_specifications_ok (ys : list Node) views :
  Forall2 decodes_specification ys views ->
  forall ispec self,
    for_each (load_specification env) ispec ys self
    = (set_dataProbeSpecInfo
         (dataProbeSpecInfo_ self ++ map (loaded_spec env) views) self, Ok tt).
Proof.
  induction 1 as [| y v ys views Hy Hys IH]; intros ispec self.
  - simpl. rewrite app_nil_r. now destruct self.
  - rewrite for_each_cons, load_specification_eq.
    destruct (spec_loaded_of_view y v Hy) as [-> ->].
    rewrite IH. simpl. unfold set_dataProbeSpecInfo; simpl.
    now rewrite <- app_assoc.
Qed.

(** X4: a document all of whose specification entries are readable loads
    without an exception, and the registry gains the spec objects of the
    entries, in the order of the document, behind the specs it held. *)
Theorem load_document_round_trip (y_node y_dataProbe y_specs : Node) views self :
  FindValue y_node "data_probes" = Some y_dataProbe ->
  expect_sequence y_dataProbe "specifications" false = Ok (Some y_specs) ->
  Forall2 decodes_specification (items y_specs) views ->
  load env y_node self
  = (set_dataProbeSpecInfo
       (dataProbeSpecInfo_ self ++ map (loaded_spec env) views) self, Ok tt).
Proof.
  intros Hdp Hspecs Hviews. unfold load. rewrite Hdp.
  erewrite bind_Ok by (unfold call; rewrite Hspecs; reflexivity).
  now apply load_specifications_ok.
Qed.

(** Without a "data_probes" key (line 74), [load] returns and leaves the
    object as it was. *)
Lemma load_without_probes (y_node : Node) self :
  FindValue y_node "data_probes" = None -> load env y_node self = (self, Ok tt).
Proof. unfold load. now intros ->. Qed.

End LoaderDocument.

(* ===================================================================== *)
(** * The reference documents decode *)
(* ===================================================================== *)

Section ReferenceDocuments.

Lemma tree_line_of_site_decodes name n x y z x' y' z' :
  decodes_line_of_site (Tree.line_of_site name n [x; y; z] [x'; y'; z'])
    (mkLineOfSite name n (mkCoordinates x y z) (mkCoordinates x' y' z')).
Proof.
  exists (Tree.Str name), (Tree.Int n),
    (Tree.Seq [Tree.Real x; Tree.Real y; Tree.Real z]),
    (Tree.Seq [Tree.Real x'; Tree.Real y'; Tree.Real z']).
  repeat split; reflexivity.
Qed.

Lemma tree_output_variable_decodes name size :
  decodes_output_variable (Tree.output_variable name size) (name, size).
Proof.
  exists (Tree.Str name), (Tree.Int size). repeat split; reflexivity.
Qed.

Lemma tree_header_decodes name target loss outputs :
  decodes_header (Tree.specification name target loss outputs) name [target].
Proof.
  exists (Tree.Str name), (Tree.Str target). repeat split; try reflexivity.
  exists target. split; reflexivity.
Qed.

Lemma tree_specification_decodes name target loss outputs ls outs :
  Forall2 decodes_line_of_site loss ls ->
  Z.of_nat (length ls) <= INT_MAX ->
  Forall2 decodes_output_variable outputs outs ->
  decodes_specification (Tree.specification name target loss outputs)
    (mkSpecView name [target] ls outs).
Proof.
  intros Hls Hmax Houts.
  exists (Tree.Str name), (Tree.Str target), (Tree.Seq loss),
    (Some (Tree.Seq outputs)).
  repeat split; try reflexivity; try assumption.
  exists target. split; reflexivity.
Qed.

Lemma good_spec_decodes :
  decodes_specification Scenario.good_spec
    (mkSpecView "probes" ["block_1"]
       [mkLineOfSite "probe_z" 3 (mkCoordinates 0 0 1) (mkCoordinates 0 0 0)]
       [("temperature", 1); ("velocity", 3)]).
Proof.
  apply tree_specification_decodes.
  - repeat constructor. apply tree_line_of_site_decodes.
  - unfold INT_MAX. simpl. lia.
  - repeat constructor; apply tree_output_variable_decodes.
Qed.

Lemma spec_without_outputs_decodes :
  decodes_specification Scenario.spec_without_outputs
    (mkSpecView "bare" ["block_1"]
       [mkLineOfSite "probe_a" 2 (mkCoordinates 1 0 0) (mkCoordinates 0 0 0);
        mkLineOfSite "probe_b" 4 (mkCoordinates 0 1 0) (mkCoordinates 0 0 0)]
       []).
Proof.
  exists (Tree.Str "bare"), (Tree.Str "block_1"),
    (Tree.Seq [Tree.line_of_site "probe_a" 2 [1; 0; 0]%float [0; 0; 0]%float;
               Tree.line_of_site "probe_b" 4 [0; 1; 0]%float [0; 0; 0]%float]),
    None.
  repeat split; try reflexivity.
  - exists "block_1". split; reflexivity.
  - repeat constructor; apply tree_line_of_site_decodes.
  - unfold INT_MAX. simpl. lia.
  - constructor.
Qed.

End ReferenceDocuments.

Lemma load_document_round_trip_witness :
  load Scenario.rank0_of_2
    (Tree.document [Scenario.good_spec; Scenario.spec_without_outputs])
    Scenario.empty_module
  = (set_dataProbeSpecInfo
       (dataProbeSpecInfo_ Scenario.empty_module
        ++ map (loaded_spec Scenario.rank0_of_2)
             [mkSpecView "probes" ["block_1"]
                [mkLineOfSite "probe_z" 3 (mkCoordinates 0 0 1)
                   (mkCoordinates 0 0 0)]
                [("temperature", 1); ("velocity", 3)];
              mkSpecView "bare" ["block_1"]
                [mkLineOfSite "probe_a" 2 (mkCoordinates 1 0 0)
                   (mkCoordinates 0 0 0);
                 mkLineOfSite "probe_b" 4 (mkCoordinates 0 1 0)
                   (mkCoordinates 0 0 0)] []])
       Scenario.empty_module, Ok tt).
Proof.
  apply (load_document_round_trip Scenario.rank0_of_2
           (Tree.document [Scenario.good_spec; Scenario.spec_without_outputs])
           (Tree.Map [("specifications",
                       Tree.Seq [Scenario.good_spec;
                                 Scenario.spec_without_outputs])])
           (Tree.Seq [Scenario.good_spec; Scenario.spec_without_outputs])).
  - reflexivity.
  - reflexivity.
  - repeat constructor;
      [apply good_spec_decodes | apply spec_without_outputs_decodes].
Defined.

(* ===================================================================== *)
(** * The diagnostics of the loader *)
(* ===================================================================== *)

Section LoaderDiagnostics.

Context {Node : Type} {yaml : YamlApi Node}.
Variable env : NaluEnv.

Lemma for_each_app {St A} (body : nat -> A -> Exc St unit) (v1 v2 : list A) :
  forall i s,
    for_each body i (v1 ++ v2) s
    = match for_each body i v1 s with
      | (s', Ok _) => for_each body (length v1 + i) v2 s'
      | (s', Throw w) => (s', Throw w)
      end.
Proof.
  induction v1 as [| x v1 IH]; intros i s; [reflexivity |].
  simpl. unfold bind.
  destruct (body i x s) as [s' [[] | w]]; [| reflexivity].
  rewrite IH. now replace (length v1 + S i)%nat with (S (length v1 + i)) by lia.
Qed.

(** The load stops at the first entry whose body throws: the entries
    before it are in the registry, then the spec object of that entry as
    the body left it. *)
Lemma load_stops_at (y_node y_dataProbe y_specs : Node) pre y post views self w :
  FindValue y_node "data_probes" = Some y_dataProbe ->
  expect_sequence y_dataProbe "specifications" false = Ok (Some y_specs) ->
  items y_specs = pre ++ y :: post ->
  Forall2 decodes_specification pre views ->
  spec_outcome env y = Throw w ->
  load env y_node self
  = (set_dataProbeSpecInfo
       (dataProbeSpecInfo_ self
        ++ map (loaded_spec env) views ++ [spec_loaded env y]) self,
     Throw w).
Proof.
  intros Hdp Hspecs Hitems Hpre Hout. unfold load. rewrite Hdp.
  erewrite bind_Ok by (unfold call; rewrite Hspecs; reflexivity).
  cbv beta iota. rewrite Hitems, for_each_app.
  rewrite (load_specifications_ok env pre views Hpre).
  rewrite for_each_cons, load_specification_eq, Hout.
  unfold set_dataProbeSpecInfo; simpl. now rewrite <- app_assoc.
Qed.

(** X5: a specification entry without a "name" stops the load with the
    message "DataProbePostProcessing: no name provided". The specs of the
    entries before it are in the registry, then the blank spec object that
    was pushed for the entry, holding its blank probe set; the entries after
    it are not read. *)
Theorem nameless_specification_stops_the_load
    (y_node y_dataProbe y_specs : Node) pre y post views self :
  FindValue y_node "data_probes" = Some y_dataProbe ->
  expect_sequence y_dataProbe "specifications" false = Ok (Some y_specs) ->
  items y_specs = pre ++ y :: post ->
  Forall2 decodes_specification pre views ->
  FindValue y "name" = None ->
  load env y_node self
  = (set_dataProbeSpecInfo
       (dataProbeSpecInfo_ self
        ++ map (loaded_spec env) views
        ++ [mkDataProbeSpecInfo "" [] [new_DataProbeInfo]]) self,
     Throw "DataProbePostProcessing: no name provided").
Proof.
  intros Hdp Hspecs Hitems Hpre Hname.
  assert (E : load_specification_body env y fresh_objects
              = (fresh_objects,
                 Throw "DataProbePostProcessing: no name provided")).
  { unfold load_specification_body, load_xferName. now rewrite Hname. }
  rewrite (load_stops_at _ _ _ _ _ _ _ _ _ Hdp Hspecs Hitems Hpre
             (f_equal snd E)).
  unfold spec_loaded. now rewrite E.
Qed.

(** The body up to the line-of-site sequence. *)
Lemma load_header_ok (y_spec : Node) xferName targetNames
    (k : Exc Objects unit) :
  decodes_header y_spec xferName targetNames ->
  (load_xferName y_spec ;;
   fromTargets <- call (GetValue y_spec "from_target_part") ;;
   load_fromTargetNames fromTargets ;; k) fresh_objects
  = k (mkDataProbeSpecInfo xferName targetNames [], new_DataProbeInfo).
Proof.
  intros (theName & fromTargets & Hname & Rname & Htargets & Dtargets).
  erewrite bind_Ok by (eapply load_xferName_ok; eassumption).
  erewrite bind_Ok by (unfold call; rewrite Htargets; reflexivity).
  erewrite bind_Ok by (apply load_fromTargetNames_ok; eassumption).
  reflexivity.
Qed.

(** X6: a specification entry whose name and targets are readable and that
    has no "line_of_site_specifications" stops the load with the message
    "DataProbePostProcessing: only supports line_of_site_specifications";
    its spec object is in the registry with the name and the targets and a
    blank probe set. *)
Theorem specification_without_line_of_site_stops_the_load
    (y_node y_dataProbe y_specs : Node) pre y post views xferName targetNames
    self :
  FindValue y_node "data_probes" = Some y_dataProbe ->
  expect_sequence y_dataProbe "specifications" false = Ok (Some y_specs) ->
  items y_specs = pre ++ y :: post ->
  Forall2 decodes_specification pre views ->
  decodes_header y xferName targetNames ->
  expect_sequence y "line_of_site_specifications" false = Ok None ->
  load env y_node self
  = (set_dataProbeSpecInfo
       (dataProbeSpecInfo_ self
        ++ map (loaded_spec env) views
        ++ [mkDataProbeSpecInfo xferName targetNames [new_DataProbeInfo]]) self,
     Throw "DataProbePostProcessing: only supports line_of_site_specifications").
Proof.
  intros Hdp Hspecs Hitems Hpre Hhead Hlos.
  assert (E : load_specification_body env y fresh_objects
              = ((mkDataProbeSpecInfo xferName targetNames [],
                  new_DataProbeInfo),
                 Throw "DataProbePostProcessing: only supports line_of_site_specifications")).
  { unfold load_specification_body.
    rewrite (load_header_ok _ _ _ _ Hhead).
    erewrite bind_Ok by (unfold call; rewrite Hlos; reflexivity).
    reflexivity. }
  rewrite (load_stops_at _ _ _ _ _ _ _ _ _ Hdp Hspecs Hitems Hpre
             (f_equal snd E)).
  unfold spec_loaded. now rewrite E.
Qed.

(** A line-of-site entry that lacks a key throws the message of the first
    key it lacks, and writes to the arrays of the probe set only. *)
Lemma load_line_of_site_first_missing ppp ilos (y_los : Node) key what o :
  first_missing y_los key what ->
  exists p',
    load_line_of_site ppp ilos y_los o = ((o.1, p'), Throw what) /\
    numProbes_ p' = numProbes_ o.2 /\ fieldInfo_ p' = fieldInfo_ o.2.
Proof.
  intros (before & after & E & Hread & Hmiss).
  unfold line_of_site_diagnostics in E.
  unfold load_line_of_site, bind, call, on_probeInfo, modify, throw.
  destruct before as [| d1 [| d2 [| d3 [| d4 [| d5 before]]]]];
    simplify_eq/=;
    repeat match goal with
    | H : Forall _ (_ :: _) |- _ =>
        let n := fresh "n" in let Hn := fresh "Hn" in let Rn := fresh "Rn" in
        apply Forall_cons in H as [(n & Hn & Rn) H]; simpl in Hn, Rn;
        rewrite Hn
    end;
    repeat match goal with
    | R : is_Throw ?r = false |- _ =>
        destruct r eqn:?; [clear R | discriminate R]
    end;
    rewrite Hmiss; simpl; eauto.
Qed.

Lemma load_line_of_site_specifications_first_missing
    (y_loss : Node) lpre y_los lpost ls key what s p :
  items y_loss = lpre ++ y_los :: lpost ->
  Z.of_nat (length (items y_loss)) <= INT_MAX ->
  Forall2 decodes_line_of_site lpre ls ->
  first_missing y_los key what ->
  exists p',
    load_line_of_site_specifications env y_loss (s, p) = ((s, p'), Throw what) /\
    numProbes_ p' = Z.of_nat (length (items y_loss)) /\
    fieldInfo_ p' = fieldInfo_ p.
Proof.
  intros Hitems Hmax Hpre Hmiss. unfold load_line_of_site_specifications.
  rewrite to_int_small by (unfold INT_MAX in *; lia).
  remember (length (items y_loss)) as K eqn:HK.
  unfold bind at 1 2 3 4 5 6 7 8 9.
  unfold on_probeInfo, modify, resize_member; simpl.
  rewrite !vector_resize_nat; simpl.
  rewrite Hitems, for_each_app, (load_line_of_site_loop _ _ ls Hpre).
  rewrite for_each_cons.
  match goal with
  | |- context [load_line_of_site ?ppp ?i y_los ?o] =>
      destruct (load_line_of_site_first_missing ppp i y_los key what o Hmiss)
        as (p' & -> & Hn & Hf)
  end.
  exists p'. split; [reflexivity |].
  rewrite Hn, Hf, fill_probes_eq. split; reflexivity.
Qed.

(** X7: when a line-of-site entry lacks a key, the entries before it being
    readable, the load stops with the message of the first key the entry
    lacks, in the order "name", "number_of_points", "tip_coordinates",
    "tail_coordinates". The spec object of the specification is in the
    registry with its name and its targets; its probe set is sized for all
    the line-of-site entries and has no field descriptor, the output
    variables not being read. *)
Theorem first_missing_key_is_reported
    (y_node y_dataProbe y_specs : Node) pre y post views xferName targetNames
    (y_loss : Node) lpre y_los lpost ls key what self :
  FindValue y_node "data_probes" = Some y_dataProbe ->
  expect_sequence y_dataProbe "specifications" false = Ok (Some y_specs) ->
  items y_specs = pre ++ y :: post ->
  Forall2 decodes_specification pre views ->
  decodes_header y xferName targetNames ->
  expect_sequence y "line_of_site_specifications" false = Ok (Some y_loss) ->
  items y_loss = lpre ++ y_los :: lpost ->
  Z.of_nat (length (items y_loss)) <= INT_MAX ->
  Forall2 decodes_line_of_site lpre ls ->
  first_missing y_los key what ->
  exists probeInfo,
    load env y_node self
    = (set_dataProbeSpecInfo
         (dataProbeSpecInfo_ self
          ++ map (loaded_spec env) views
          ++ [mkDataProbeSpecInfo xferName targetNames [probeInfo]]) self,
       Throw what) /\
    numProbes_ probeInfo = Z.of_nat (length (items y_loss)) /\
    fieldInfo_ probeInfo = [].
Proof.
  intros Hdp Hspecs Hitems Hpre Hhead Hlos Hlitems Hmax Hlpre Hmiss.
  destruct (load_line_of_site_specifications_first_missing y_loss lpre y_los
              lpost ls key what (mkDataProbeSpecInfo xferName targetNames [])
              new_DataProbeInfo Hlitems Hmax Hlpre Hmiss)
    as (probeInfo & E & Hn & Hf).
  assert (E' : load_specification_body env y fresh_objects
               = ((mkDataProbeSpecInfo xferName targetNames [], probeInfo),
                  Throw what)).
  { unfold load_specification_body.
    rewrite (load_header_ok _ _ _ _ Hhead).
    erewrite bind_Ok by (unfold call; rewrite Hlos; reflexivity).
    now erewrite bind_Throw by exact E. }
  exists probeInfo. split; [| now split].
  rewrite (load_stops_at _ _ _ _ _ _ _ _ _ Hdp Hspecs Hitems Hpre
             (f_equal snd E')).
  unfold spec_loaded. now rewrite E'.
Qed.

Lemma load_output_variable_rejects ioutput (y_output : Node) what o :
  lacks_output_key y_output what ->
  load_output_variable ioutput y_output o = (o, Throw what).
Proof.
  unfold load_output_variable.
  intros [[-> ->] | (Hname & -> & ->)]; [reflexivity |].
  now destruct (FindValue y_output "field_name").
Qed.

(** X8: an output variable that lacks its name, or has a name and lacks its
    size, stops the load with the message for that key, the name being
    looked at first; nothing of the variable is stored. The spec object in
    the registry is the one of the specification with the output variables
    before the failing one. *)
Theorem incomplete_output_variable_stops_the_load
    (y_node y_dataProbe y_specs : Node) pre y post views xferName targetNames
    (y_loss y_outputs : Node) ls opre y_output opost outs what self :
  FindValue y_node "data_probes" = Some y_dataProbe ->
  expect_sequence y_dataProbe "specifications" false = Ok (Some y_specs) ->
  items y_specs = pre ++ y :: post ->
  Forall2 decodes_specification pre views ->
  decodes_header y xferName targetNames ->
  expect_sequence y "line_of_site_specifications" false = Ok (Some y_loss) ->
  Forall2 decodes_line_of_site (items y_loss) ls ->
  Z.of_nat (length ls) <= INT_MAX ->
  expect_sequence y "output_variables" false = Ok (Some y_outputs) ->
  items y_outputs = opre ++ y_output :: opost ->
  Forall2 decodes_output_variable opre outs ->
  lacks_output_key y_output what ->
  load env y_node self
  = (set_dataProbeSpecInfo
       (dataProbeSpecInfo_ self
        ++ map (loaded_spec env) views
        ++ [loaded_spec env (mkSpecView xferName targetNames ls outs)]) self,
     Throw what).
Proof.
  intros Hdp Hspecs Hitems Hpre Hhead Hlos Hls Hmax Houts Hoitems Hopre Hlack.
  assert (E : load_specification_body env y fresh_objects
              = ((mkDataProbeSpecInfo xferName targetNames [],
                  loaded_info env ls outs), Throw what)).
  { unfold load_specification_body.
    rewrite (load_header_ok _ _ _ _ Hhead).
    erewrite bind_Ok by (unfold call; rewrite Hlos; reflexivity).
    erewrite bind_Ok
      by (apply load_line_of_site_specifications_ok; eassumption).
    erewrite bind_Ok by (unfold call; rewrite Houts; reflexivity).
    cbv beta iota. rewrite Hoitems, for_each_app.
    rewrite (load_output_variable_loop _ _ Hopre), for_each_cons.
    rewrite (load_output_variable_rejects _ _ _ _ Hlack).
    unfold loaded_info; simpl. now rewrite !resize_nil. }
  rewrite (load_stops_at _ _ _ _ _ _ _ _ _ Hdp Hspecs Hitems Hpre
             (f_equal snd E)).
  unfold spec_loaded. now rewrite E.
Qed.

End LoaderDiagnostics.

Lemma nameless_specification_stops_the_load_witness :
  load Scenario.rank0_of_2
    (Tree.document
       [Scenario.good_spec; Tree.Map [("from_target_part", Tree.Str "block_9")];
        Scenario.spec_without_outputs])
    Scenario.empty_module
  = (set_dataProbeSpecInfo
       (dataProbeSpecInfo_ Scenario.empty_module
        ++ map (loaded_spec Scenario.rank0_of_2)
             [mkSpecView "probes" ["block_1"]
                [mkLineOfSite "probe_z" 3 (mkCoordinates 0 0 1)
                   (mkCoordinates 0 0 0)]
                [("temperature", 1); ("velocity", 3)]]
        ++ [mkDataProbeSpecInfo "" [] [new_DataProbeInfo]])
       Scenario.empty_module,
     Throw "DataProbePostProcessing: no name provided").
Proof.
  apply (nameless_specification_stops_the_load Scenario.rank0_of_2
           (Tree.document
              [Scenario.good_spec;
               Tree.Map [("from_target_part", Tree.Str "block_9")];
               Scenario.spec_without_outputs])
           (Tree.Map [("specifications",
                       Tree.Seq
                         [Scenario.good_spec;
                          Tree.Map [("from_target_part", Tree.Str "block_9")];
                          Scenario.spec_without_outputs])])
           (Tree.Seq [Scenario.good_spec;
                      Tree.Map [("from_target_part", Tree.Str "block_9")];
                      Scenario.spec_without_outputs])
           [Scenario.good_spec]
           (Tree.Map [("from_target_part", Tree.Str "block_9")])
           [Scenario.spec_without_outputs]).
  - reflexivity.
  - reflexivity.
  - reflexivity.
  - repeat constructor. apply good_spec_decodes.
  - reflexivity.
Defined.

Lemma specification_without_line_of_site_stops_the_load_witness :
  load Scenario.rank0_of_2
    (Tree.document
       [Tree.Map [("name", Tree.Str "plane");
                  ("from_target_part", Tree.Str "block_9")]])
    Scenario.empty_module
  = (set_dataProbeSpecInfo
       (dataProbeSpecInfo_ Scenario.empty_module
        ++ map (loaded_spec Scenario.rank0_of_2) []
        ++ [mkDataProbeSpecInfo "plane" ["block_9"] [new_DataProbeInfo]])
       Scenario.empty_module,
     Throw "DataProbePostProcessing: only supports line_of_site_specifications").
Proof.
  apply (specification_without_line_of_site_stops_the_load Scenario.rank0_of_2
           (Tree.document
              [Tree.Map [("name", Tree.Str "plane");
                         ("from_target_part", Tree.Str "block_9")]])
           (Tree.Map [("specifications",
                       Tree.Seq
                         [Tree.Map [("name", Tree.Str "plane");
                                    ("from_target_part", Tree.Str "block_9")]])])
           (Tree.Seq [Tree.Map [("name", Tree.Str "plane");
                                ("from_target_part", Tree.Str "block_9")]])
           []
           (Tree.Map [("name", Tree.Str "plane");
                      ("from_target_part", Tree.Str "block_9")])
           []).
  - reflexivity.
  - reflexivity.
  - reflexivity.
  - constructor.
  - exists (Tree.Str "plane"), (Tree.Str "block_9").
    repeat split; try reflexivity. exists "block_9". split; reflexivity.
  - reflexivity.
Defined.

Lemma first_missing_key_is_reported_witness :
  exists probeInfo,
    load Scenario.rank0_of_2
      (Tree.document [Scenario.good_spec; Scenario.spec_with_tailless_entry])
      Scenario.empty_module
    = (set_dataProbeSpecInfo
         (dataProbeSpecInfo_ Scenario.empty_module
          ++ map (loaded_spec Scenario.rank0_of_2)
               [mkSpecView "probes" ["block_1"]
                  [mkLineOfSite "probe_z" 3 (mkCoordinates 0 0 1)
                     (mkCoordinates 0 0 0)]
                  [("temperature", 1); ("velocity", 3)]]
          ++ [mkDataProbeSpecInfo "broken" ["block_2"] [probeInfo]])
         Scenario.empty_module,
       Throw "DataProbePostProcessing: lacking tail coordinates") /\
    numProbes_ probeInfo
    = Z.of_nat
        (length
           (items (Tree.Seq [Tree.line_of_site "probe_x" 4 [1; 0; 0]%float
                               [0; 0; 0]%float; Scenario.tailless_entry]))) /\
    fieldInfo_ probeInfo = [].
Proof.
  apply (first_missing_key_is_reported Scenario.rank0_of_2
           (Tree.document
              [Scenario.good_spec; Scenario.spec_with_tailless_entry])
           (Tree.Map [("specifications",
                       Tree.Seq [Scenario.good_spec;
                                 Scenario.spec_with_tailless_entry])])
           (Tree.Seq [Scenario.good_spec; Scenario.spec_with_tailless_entry])
           [Scenario.good_spec] Scenario.spec_with_tailless_entry []
           [mkSpecView "probes" ["block_1"]
              [mkLineOfSite "probe_z" 3 (mkCoordinates 0 0 1)
                 (mkCoordinates 0 0 0)]
              [("temperature", 1); ("velocity", 3)]]
           "broken" ["block_2"]
           (Tree.Seq [Tree.line_of_site "probe_x" 4 [1; 0; 0]%float
                        [0; 0; 0]%float; Scenario.tailless_entry])
           [Tree.line_of_site "probe_x" 4 [1; 0; 0]%float [0; 0; 0]%float]
           Scenario.tailless_entry []
           [mkLineOfSite "probe_x" 4 (mkCoordinates 1 0 0) (mkCoordinates 0 0 0)]
           "tail_coordinates"
           "DataProbePostProcessing: lacking tail coordinates"
           Scenario.empty_module).
  - reflexivity.
  - reflexivity.
  - reflexivity.
  - repeat constructor. apply good_spec_decodes.
  - apply tree_header_decodes.
  - reflexivity.
  - reflexivity.
  - unfold INT_MAX. simpl. lia.
  - repeat constructor. apply tree_line_of_site_decodes.
  - exists [("name", "DataProbePostProcessing: lacking the name");
            ("number_of_points",
             "DataProbePostProcessing: lacking number of points");
            ("tip_coordinates",
             "DataProbePostProcessing: lacking tip coordinates")], [].
    split; [reflexivity |]. split; [| reflexivity].
    repeat constructor.
    + exists (Tree.Str "probe_y"). split; reflexivity.
    + exists (Tree.Int 5). split; reflexivity.
    + exists (Tree.Seq [Tree.Real 0; Tree.Real 1; Tree.Real 0]).
      split; reflexivity.
Defined.

Lemma incomplete_output_variable_stops_the_load_witness :
  load Scenario.rank0_of_2
    (Tree.document [Scenario.spec_with_sizeless_output]) Scenario.empty_module
  = (set_dataProbeSpecInfo
       (dataProbeSpecInfo_ Scenario.empty_module
        ++ map (loaded_spec Scenario.rank0_of_2) []
        ++ [loaded_spec Scenario.rank0_of_2
              (mkSpecView "sizeless" ["block_3"]
                 [mkLineOfSite "probe_x" 4 (mkCoordinates 1 0 0)
                    (mkCoordinates 0 0 0)] [])])
       Scenario.empty_module,
     Throw "DataProbePostProcessing::load() Sorry, field size must be provided").
Proof.
  apply (incomplete_output_variable_stops_the_load Scenario.rank0_of_2
           (Tree.document [Scenario.spec_with_sizeless_output])
           (Tree.Map [("specifications",
                       Tree.Seq [Scenario.spec_with_sizeless_output])])
           (Tree.Seq [Scenario.spec_with_sizeless_output])
           [] Scenario.spec_with_sizeless_output [] [] "sizeless" ["block_3"]
           (Tree.Seq [Tree.line_of_site "probe_x" 4 [1; 0; 0]%float
                        [0; 0; 0]%float])
           (Tree.Seq [Tree.Map [("field_name", Tree.Str "pressure")]])
           [mkLineOfSite "probe_x" 4 (mkCoordinates 1 0 0) (mkCoordinates 0 0 0)]
           [] (Tree.Map [("field_name", Tree.Str "pressure")]) [] []).
  - reflexivity.
  - reflexivity.
  - reflexivity.
  - constructor.
  - apply tree_header_decodes.
  - reflexivity.
  - repeat constructor. apply tree_line_of_site_decodes.
  - unfold INT_MAX. simpl. lia.
  - reflexivity.
  - reflexivity.
  - constructor.
  - right. split; [discriminate |]. split; reflexivity.
Defined.

(* ===================================================================== *)
(** * setup: one part per probe, the fields on every part *)
(* ===================================================================== *)

Section SetupEffect.

Lemma store_at_each {A} (f : nat -> A) n : forall i (l : list A),
  length l = (i + n)%nat ->
  foldl (fun l k => <[k := f k]> l) l (seq i n) = take i l ++ map f (seq i n).
Proof.
  induction n as [| n IH]; intros i l Hlen; simpl.
  - rewrite app_nil_r. apply eq_sym, take_ge. lia.
  - rewrite IH by (rewrite length_insert; lia).
    rewrite (take_S_r _ _ (f i)) by (apply list_lookup_insert_eq; lia).
    rewrite take_insert_ge by lia. now rewrite <- app_assoc.
Qed.

Lemma map_lookup_seq {A} `{Inhabited A} (l : list A) :
  map (fun j => l !!! j) (seq 0 (length l)) = l.
Proof.
  apply list_eq. intros i. rewrite list_lookup_fmap.
  destruct (decide (i < length l)%nat) as [Hlt | Hge].
  - rewrite lookup_seq_lt by done. simpl.
    now rewrite (list_lookup_lookup_total_lt l i Hlt).
  - rewrite lookup_seq_ge by lia. simpl.
    apply eq_sym, lookup_ge_None. lia.
Qed.

Lemma map_lookup_seq_with {A B} `{Inhabited A} (g : A -> B) (l : list A) :
  map (fun j => g (l !!! j)) (seq 0 (length l)) = map g l.
Proof.
  rewrite <- (map_map (fun j => l !!! j) g). now rewrite map_lookup_seq.
Qed.

Lemma foldl_lookup_seq {A B} `{Inhabited B} (g : A -> B -> A) a (l : list B) :
  foldl (fun a j => g a (l !!! j)) a (seq 0 (length l)) = foldl g a l.
Proof.
  rewrite <- (foldl_fmap g a (seq 0 (length l)) (fun j => l !!! j)).
  f_equal. apply map_lookup_seq.
Qed.

Lemma declare_probe_part_eq j info m :
  (j < length (part_ info))%nat ->
  declare_probe_part j (info, m)
  = ((set_part (<[j := Some (partName_ info !!! j)]> (part_ info)) info,
      put_io_part_attribute (Some (partName_ info !!! j))
        (declare_part (partName_ info !!! j) m)), Ok tt).
Proof.
  intros Hj. unfold declare_probe_part, bind, gets, modify; simpl.
  now rewrite list_lookup_total_insert_eq.
Qed.

Lemma declare_loop names (idx : list nat) : forall i info m,
  partName_ info = names ->
  Forall (fun j => (j < length (part_ info))%nat) idx ->
  for_each (fun _ j => declare_probe_part j) i idx (info, m)
  = ((set_part
        (foldl (fun ps j => <[j := Some (names !!! j)]> ps) (part_ info) idx)
        info,
      foldl (fun m j =>
               put_io_part_attribute (Some (names !!! j))
                 (declare_part (names !!! j) m)) m idx), Ok tt).
Proof.
  induction idx as [| j idx IH]; intros i info m Hnames Hidx.
  - simpl. now destruct info.
  - apply Forall_cons in Hidx as [Hj Hidx].
    rewrite for_each_cons, declare_probe_part_eq by done.
    rewrite IH; simpl; [now rewrite Hnames | done |].
    now rewrite length_insert.
Qed.

(** The loop of lines 227-233 over the probes of a probe set. *)
Lemma declare_parts_loop info m :
  sized info ->
  (numProbes <- gets (fun s : DataProbeInfo * MetaData => numProbes_ s.1) ;;
   for_int numProbes declare_probe_part) (info, m)
  = ((setup_info info, declare_parts info m), Ok tt).
Proof.
  intros [Hnames Hparts]. unfold bind at 1, gets at 1, for_int. simpl.
  rewrite (declare_loop (partName_ info)); [| done |].
  - unfold setup_info, declare_parts. rewrite <- Hnames.
    rewrite (store_at_each (fun j => Some (partName_ info !!! j)))
      by (simpl; lia).
    rewrite take_0. cbn [app].
    rewrite (map_lookup_seq_with Some).
    do 2 f_equal.
    exact (foldl_lookup_seq
             (fun m name =>
                put_io_part_attribute (Some name) (declare_part name m))
             m (partName_ info)).
  - apply Forall_forall. intros j Hj%elem_of_seq. lia.
Qed.

Lemma register_field_loop part (fis : list (string * Z)) :
  forall i (info : DataProbeInfo) m,
    for_each (fun _ (fi : string * Z) =>
                modify (fun s : DataProbeInfo * MetaData =>
                  (s.1, register_field fi.1 fi.2 part s.2)))
             i fis (info, m)
    = ((info, foldl (fun m (fi : string * Z) =>
                       register_field fi.1 fi.2 part m) m fis), Ok tt).
Proof.
  induction fis as [| fi fis IH]; intros i info m; [reflexivity |].
  rewrite for_each_cons. unfold modify at 1. apply IH.
Qed.

Lemma register_probe_fields_eq nDim j info m :
  register_probe_fields nDim j (info, m)
  = ((info, register_on nDim (fieldInfo_ info) (part_ info !!! j) m), Ok tt).
Proof.
  unfold register_probe_fields, bind, gets, modify at 1 2; simpl.
  apply register_field_loop.
Qed.

Lemma register_loop nDim (idx : list nat) : forall i info m,
  for_each (fun _ j => register_probe_fields nDim j) i idx (info, m)
  = ((info,
      foldl (fun m j => register_on nDim (fieldInfo_ info) (part_ info !!! j) m)
        m idx), Ok tt).
Proof.
  induction idx as [| j idx IH]; intros i info m; [reflexivity |].
  rewrite for_each_cons, register_probe_fields_eq. apply IH.
Qed.

(** The loop of lines 248-258 over the probes of a probe set. *)
Lemma register_fields_loop nDim info m :
  length (part_ info) = Z.to_nat (numProbes_ info) ->
  (numProbes <- gets (fun s : DataProbeInfo * MetaData => numProbes_ s.1) ;;
   for_int numProbes (register_probe_fields nDim)) (info, m)
  = ((info, register_fields nDim info m), Ok tt).
Proof.
  intros Hparts. unfold bind at 1, gets at 1, for_int. simpl.
  rewrite register_loop. unfold register_fields. rewrite <- Hparts.
  do 2 f_equal.
  exact (foldl_lookup_seq
           (fun m part => register_on nDim (fieldInfo_ info) part m)
           m (part_ info)).
Qed.

Lemma zoom_each_pure {St A} (body : Exc (A * St) unit) (P : A -> Prop)
    (f : A -> A) (g : A -> St -> St) (v : list A) :
  (forall x s, P x -> body (x, s) = ((f x, g x s), Ok tt)) ->
  Forall P v ->
  forall s,
    zoom_each body v s = ((map f v, foldl (fun s x => g x s) s v), Ok tt).
Proof.
  intros Hbody. induction 1 as [| x v Hx Hv IH]; intros s; [reflexivity |].
  simpl. rewrite Hbody by done. now rewrite IH.
Qed.

Lemma foldl_flat_map {A B C} (g : A -> C -> A) (f : B -> list C) (l : list B) :
  forall a,
    foldl g a (flat_map f l) = foldl (fun a x => foldl g a (f x)) a l.
Proof.
  induction l as [| x l IH]; intros a; [reflexivity |].
  simpl. now rewrite foldl_app, IH.
Qed.

(** A body that never throws on the probe sets that satisfy [P], rewrites
    the probe set by [f] and the rest of the state by [g]. *)
Lemma each_probeInfo_pure {St} (body : Exc (DataProbeInfo * St) unit)
    (P : DataProbeInfo -> Prop) (f : DataProbeInfo -> DataProbeInfo)
    (g : DataProbeInfo -> St -> St) specs s :
  (forall info s, P info -> body (info, s) = ((f info, g info s), Ok tt)) ->
  Forall P (flat_map dataProbeInfo_ specs) ->
  each_probeInfo body (specs, s)
  = ((map (fun probeSpec =>
             set_dataProbeInfo (map f (dataProbeInfo_ probeSpec)) probeSpec)
          specs,
      foldl (fun s info => g info s) s (flat_map dataProbeInfo_ specs)),
     Ok tt).
Proof.
  intros Hbody HP. apply Forall_flat_map in HP.
  unfold each_probeInfo. rewrite foldl_flat_map.
  apply (zoom_each_pure _ (fun probeSpec => Forall P (dataProbeInfo_ probeSpec))
           (fun probeSpec =>
              set_dataProbeInfo (map f (dataProbeInfo_ probeSpec)) probeSpec)
           (fun probeSpec s =>
              foldl (fun s info => g info s) s (dataProbeInfo_ probeSpec)));
    [| exact HP].
  intros probeSpec s0 Hspec.
  now rewrite (zoom_each_pure body P f g _ Hbody Hspec).
Qed.

Lemma all_probeInfo_setup specs :
  flat_map dataProbeInfo_ (map setup_spec specs)
  = map setup_info (flat_map dataProbeInfo_ specs).
Proof.
  induction specs as [| probeSpec specs IH]; [reflexivity |].
  simpl. now rewrite IH, map_app.
Qed.

Lemma set_dataProbeInfo_id probeSpec :
  set_dataProbeInfo (dataProbeInfo_ probeSpec) probeSpec = probeSpec.
Proof. now destruct probeSpec. Qed.

Lemma sized_setup_info info : sized info -> sized (setup_info info).
Proof. intros [Hn Hp]. split; simpl; [done |]. now rewrite length_map. Qed.

(** The whole of [setup] on a registry sized as [load] leaves it. *)
Lemma setup_effect (w : World) :
  Forall sized (all_probeInfo (this w)) ->
  setup w
  = (mkWorld
       (set_dataProbeSpecInfo (map setup_spec (dataProbeSpecInfo_ (this w)))
          (this w))
       (set_meta_data
          (setup_meta (all_probeInfo (this w)) (meta_data (realm_ w)))
          (realm_ w))
       (cout w), Ok tt).
Proof.
  intros Hsized. unfold setup, with_meta, all_probeInfo in *.
  unfold bind at 1.
  rewrite (each_probeInfo_pure _ sized setup_info declare_parts)
    by (exact declare_parts_loop || exact Hsized).
  unfold bind at 1, gets at 1. cbn [fst snd].
  rewrite (each_probeInfo_pure _
             (fun info => length (part_ info) = Z.to_nat (numProbes_ info))
             (fun info => info)
             (register_fields
                (to_int (spatial_dimension
                           (foldl (fun s info => declare_parts info s)
                              (meta_data (realm_ w))
                              (flat_map dataProbeInfo_
                                 (dataProbeSpecInfo_ (this w))))))));
    [| intros info s; apply register_fields_loop |].
  - fold setup_spec. rewrite all_probeInfo_setup. unfold setup_meta.
    do 3 f_equal. rewrite <- (map_id (map setup_spec _)) at 2.
    apply map_ext. intros probeSpec.
    now rewrite map_id, set_dataProbeInfo_id.
  - fold setup_spec. rewrite all_probeInfo_setup.
    apply Forall_map. eapply Forall_impl; [exact Hsized |].
    intros info Hinfo. apply (sized_setup_info info Hinfo).
Qed.

End SetupEffect.

Section SetupMeta.

Lemma meta_le_refl m : meta_le m m.
Proof. now repeat split. Qed.

Lemma meta_le_trans m1 m2 m3 : meta_le m1 m2 -> meta_le m2 m3 -> meta_le m1 m3.
Proof.
  intros (Hd & Hp & Hio & Hf & Hr) (Hd' & Hp' & Hio' & Hf' & Hr').
  repeat split; [congruence | | | |]; etrans; eassumption.
Qed.

Lemma declare_part_le name m : meta_le m (declare_part name m).
Proof.
  unfold declare_part. case_decide; [apply meta_le_refl |].
  repeat split; simpl; try done. now apply list_subseteq_app_l.
Qed.

Lemma put_io_part_attribute_le part m : meta_le m (put_io_part_attribute part m).
Proof.
  unfold put_io_part_attribute. destruct part; [| apply meta_le_refl].
  case_decide; [apply meta_le_refl |].
  repeat split; simpl; try done. now apply list_subseteq_app_l.
Qed.

Lemma declare_field_le fieldName m : meta_le m (declare_field fieldName m).
Proof.
  unfold declare_field. case_decide; [apply meta_le_refl |].
  repeat split; simpl; try done. now apply list_subseteq_app_l.
Qed.

Lemma put_field_le fieldName part size m :
  meta_le m (put_field fieldName part size m).
Proof.
  unfold put_field. case_decide; [apply meta_le_refl |].
  repeat split; simpl; try done. now apply list_subseteq_app_l.
Qed.

Lemma foldl_le {B} (g : MetaData -> B -> MetaData) (l : list B) :
  (forall m x, meta_le m (g m x)) -> forall m, meta_le m (foldl g m l).
Proof.
  intros Hg. induction l as [| x l IH]; intros m; [apply meta_le_refl |].
  simpl. eapply meta_le_trans; [apply Hg | apply IH].
Qed.

Lemma register_field_le fieldName size part m :
  meta_le m (register_field fieldName size part m).
Proof.
  unfold register_field.
  eapply meta_le_trans; [apply declare_field_le | apply put_field_le].
Qed.

Lemma register_on_le nDim fieldInfo part m :
  meta_le m (register_on nDim fieldInfo part m).
Proof.
  unfold register_on.
  eapply meta_le_trans; [apply declare_field_le |].
  eapply meta_le_trans; [apply put_field_le |].
  apply foldl_le. intros m' fi. apply register_field_le.
Qed.

Lemma declare_parts_le info m : meta_le m (declare_parts info m).
Proof.
  apply foldl_le. intros m' name.
  eapply meta_le_trans; [apply declare_part_le | apply put_io_part_attribute_le].
Qed.

Lemma register_fields_le nDim info m : meta_le m (register_fields nDim info m).
Proof. apply foldl_le. intros m' part. apply register_on_le. Qed.

Lemma setup_meta_le infos m : meta_le m (setup_meta infos m).
Proof.
  unfold setup_meta.
  apply meta_le_trans with (foldl (fun m info => declare_parts info m) m infos);
    apply foldl_le; intros m' info;
    [apply declare_parts_le | apply register_fields_le].
Qed.

(** What a step of a loop declares is there after the loop. *)
Lemma foldl_establishes {B} (g : MetaData -> B -> MetaData)
    (Q : B -> MetaData -> Prop) (l : list B) :
  (forall m x, meta_le m (g m x)) ->
  (forall m x, Q x (g m x)) ->
  (forall x m m', Q x m -> meta_le m m' -> Q x m') ->
  forall m x, x ∈ l -> Q x (foldl g m l).
Proof.
  intros Hle Hstep Hmono. induction l as [| y l IH]; intros m x Hx.
  - inversion Hx.
  - simpl. apply elem_of_cons in Hx as [-> | Hx]; [| now apply IH].
    eapply Hmono; [apply Hstep | now apply foldl_le].
Qed.

Lemma probe_declared_mono m m' nDim fieldInfo name :
  probe_declared m nDim fieldInfo name -> meta_le m m' ->
  probe_declared m' nDim fieldInfo name.
Proof.
  intros (Hp & Hio & Hc & Hr & Hf) (Hd' & Hp' & Hio' & Hf' & Hr').
  repeat split; auto.
  eapply Forall_impl; [exact Hf |]. intros fi [? ?]. split; auto.
Qed.

Lemma elem_of_declare_part name m : name ∈ parts (declare_part name m).
Proof.
  unfold declare_part. case_decide; [done |]. simpl.
  apply elem_of_app. right. apply list_elem_of_here.
Qed.

Lemma elem_of_put_io_part_attribute name m :
  name ∈ io_parts (put_io_part_attribute (Some name) m).
Proof.
  unfold put_io_part_attribute. case_decide; [done |]. simpl.
  apply elem_of_app. right. apply list_elem_of_here.
Qed.

Lemma elem_of_declare_field fieldName m :
  fieldName ∈ fields (declare_field fieldName m).
Proof.
  unfold declare_field. case_decide; [done |]. simpl.
  apply elem_of_app. right. apply list_elem_of_here.
Qed.

Lemma elem_of_put_field fieldName part size m :
  (fieldName, part, size) ∈ field_restrictions (put_field fieldName part size m).
Proof.
  unfold put_field. case_decide; [done |]. simpl.
  apply elem_of_app. right. apply list_elem_of_here.
Qed.

Lemma register_field_registered fieldName size part m :
  fieldName ∈ fields (register_field fieldName size part m) /\
  (fieldName, part, size)
  ∈ field_restrictions (register_field fieldName size part m).
Proof.
  unfold register_field. split; [| apply elem_of_put_field].
  destruct (put_field_le fieldName part size (declare_field fieldName m))
    as (_ & _ & _ & Hf & _).
  apply Hf, elem_of_declare_field.
Qed.

(** After the first loop nest every probe has its part, marked for
    output. *)
Lemma declare_parts_declared infos m info name :
  info ∈ infos -> name ∈ partName_ info ->
  name ∈ parts (foldl (fun m info => declare_parts info m) m infos) /\
  name ∈ io_parts (foldl (fun m info => declare_parts info m) m infos).
Proof.
  intros Hinfo Hname.
  refine (foldl_establishes (fun m info => declare_parts info m)
            (fun info m =>
               forall name, name ∈ partName_ info ->
                 name ∈ parts m /\ name ∈ io_parts m)
            infos _ _ _ m info Hinfo name Hname).
  - intros m' info'. apply declare_parts_le.
  - intros m' info' name' Hname'. unfold declare_parts.
    refine (foldl_establishes
              (fun m name =>
                 put_io_part_attribute (Some name) (declare_part name m))
              (fun name m => name ∈ parts m /\ name ∈ io_parts m)
              (partName_ info') _ _ _ m' name' Hname').
    + intros m0 x. eapply meta_le_trans;
        [apply declare_part_le | apply put_io_part_attribute_le].
    + intros m0 x. split; [| apply elem_of_put_io_part_attribute].
      destruct (put_io_part_attribute_le (Some x) (declare_part x m0))
        as (_ & Hp & _).
      apply Hp, elem_of_declare_part.
    + intros x m0 m0' [? ?] (_ & Hp & Hio & _). split; auto.
  - intros info' m0 m0' H (_ & Hp & Hio & _) name' Hname'.
    destruct (H name' Hname'). split; auto.
Qed.

(** After the second every part of a probe set carries the coordinates
    and the fields of the set. *)
Lemma register_on_registered nDim fieldInfo part m :
  "coordinates" ∈ fields (register_on nDim fieldInfo part m) /\
  ("coordinates", part, nDim)
  ∈ field_restrictions (register_on nDim fieldInfo part m) /\
  Forall (fun fi : string * Z =>
            fi.1 ∈ fields (register_on nDim fieldInfo part m) /\
            (fi.1, part, fi.2)
            ∈ field_restrictions (register_on nDim fieldInfo part m))
         fieldInfo.
Proof.
  unfold register_on.
  set (m1 := put_field "coordinates" part nDim (declare_field "coordinates" m)).
  assert (Hle : meta_le m1
                  (foldl (fun m (fi : string * Z) =>
                            register_field fi.1 fi.2 part m) m1 fieldInfo)).
  { apply foldl_le. intros m' fi. apply register_field_le. }
  destruct Hle as (_ & _ & _ & Hf & Hr). repeat split.
  - apply Hf. destruct (put_field_le "coordinates" part nDim
                          (declare_field "coordinates" m)) as (_ & _ & _ & Hf' & _).
    apply Hf', elem_of_declare_field.
  - apply Hr, elem_of_put_field.
  - apply Forall_forall. intros fi Hfi.
    refine (foldl_establishes
              (fun m (fi : string * Z) => register_field fi.1 fi.2 part m)
              (fun fi m => fi.1 ∈ fields m /\
                           (fi.1, part, fi.2) ∈ field_restrictions m)
              fieldInfo _ _ _ m1 fi Hfi).
    + intros m' fi'. apply register_field_le.
    + intros m' fi'. apply register_field_registered.
    + intros fi' m0 m0' [? ?] (_ & _ & _ & Hf0 & Hr0). split; auto.
Qed.

Lemma register_fields_registered nDim infos m info name :
  info ∈ infos -> name ∈ partName_ info ->
  let m' := foldl (fun m info => register_fields nDim info m) m
              (map setup_info infos) in
  "coordinates" ∈ fields m' /\
  ("coordinates", Some name, nDim) ∈ field_restrictions m' /\
  Forall (fun fi : string * Z =>
            fi.1 ∈ fields m' /\ (fi.1, Some name, fi.2) ∈ field_restrictions m')
         (fieldInfo_ info).
Proof.
  intros Hinfo Hname m'. subst m'.
  set (Q := fun (fieldInfo : list (string * Z)) (part : option Part)
                (m : MetaData) =>
    "coordinates" ∈ fields m /\
    ("coordinates", part, nDim) ∈ field_restrictions m /\
    Forall (fun fi : string * Z =>
              fi.1 ∈ fields m /\ (fi.1, part, fi.2) ∈ field_restrictions m)
           fieldInfo).
  assert (Qmono : forall fieldInfo part m0 m0',
             Q fieldInfo part m0 -> meta_le m0 m0' -> Q fieldInfo part m0').
  { intros fieldInfo part m0 m0' (Hc & Hr & Hf) (_ & _ & _ & Hf' & Hr').
    repeat split; auto.
    eapply Forall_impl; [exact Hf |]. intros fi [? ?]. split; auto. }
  change (Q (fieldInfo_ info) (Some name)
            (foldl (fun m info => register_fields nDim info m) m
               (map setup_info infos))).
  refine (foldl_establishes (fun m info => register_fields nDim info m)
            (fun info' m =>
               forall part, part ∈ part_ info' -> Q (fieldInfo_ info') part m)
            (map setup_info infos) _ _ _ m (setup_info info) _ (Some name) _).
  - intros m0 info'. apply register_fields_le.
  - intros m0 info' part Hpart. unfold register_fields.
    refine (foldl_establishes
              (fun m part => register_on nDim (fieldInfo_ info') part m)
              (fun part m => Q (fieldInfo_ info') part m)
              (part_ info') _ _ _ m0 part Hpart).
    + intros m1 x. apply register_on_le.
    + intros m1 x. apply register_on_registered.
    + intros x m1 m1'. apply Qmono.
  - intros info' m0 m0' H Hle part Hpart. eapply Qmono; eauto.
  - now apply list_elem_of_fmap_2.
  - simpl. now apply list_elem_of_fmap_2.
Qed.

Lemma setup_meta_declared infos m info name :
  info ∈ infos -> name ∈ partName_ info ->
  probe_declared (setup_meta infos m) (to_int (spatial_dimension m))
    (fieldInfo_ info) name.
Proof.
  intros Hinfo Hname. unfold setup_meta.
  set (m1 := foldl (fun m info => declare_parts info m) m infos).
  assert (Hle1 : meta_le m m1)
    by (apply foldl_le; intros; apply declare_parts_le).
  assert (Hd : spatial_dimension m1 = spatial_dimension m) by apply Hle1.
  rewrite Hd.
  set (nDim := to_int (spatial_dimension m)).
  assert (Hle2 : meta_le m1
                   (foldl (fun m info => register_fields nDim info m) m1
                      (map setup_info infos)))
    by (apply foldl_le; intros; apply register_fields_le).
  destruct (declare_parts_declared infos m info name Hinfo Hname) as [Hp Hio].
  destruct (register_fields_registered nDim infos m1 info name Hinfo Hname)
    as (Hc & Hr & Hf).
  destruct Hle2 as (_ & Hp' & Hio' & _).
  repeat split; auto.
Qed.

End SetupMeta.

Lemma foldl_preserves {A B} (I : A -> Prop) (g : A -> B -> A) (l : list B) :
  (forall a x, x ∈ l -> I a -> I (g a x)) -> forall a, I a -> I (foldl g a l).
Proof.
  induction l as [| y l IH]; intros Hg a Ha; [done |].
  simpl. apply IH.
  - intros a' x Hx. apply Hg. now apply list_elem_of_further.
  - apply Hg; [apply list_elem_of_here | done].
Qed.

Lemma foldl_fixed {A B} (g : A -> B -> A) a (l : list B) :
  (forall x, x ∈ l -> g a x = a) -> foldl g a l = a.
Proof.
  induction l as [| y l IH]; intros Hg; [done |].
  simpl. rewrite Hg by apply list_elem_of_here.
  apply IH. intros x Hx. apply Hg. now apply list_elem_of_further.
Qed.

Section SetupBounds.

Variables (names fieldNames : list string) (m0 : MetaData).

Lemma meta_within_refl : meta_within names fieldNames m0 m0.
Proof. repeat split; auto. Qed.

Lemma declare_part_within name m :
  name ∈ names -> meta_within names fieldNames m0 m ->
  meta_within names fieldNames m0 (declare_part name m).
Proof.
  intros Hname (Hp & Hio & Hf & Hr). unfold declare_part.
  case_decide; [done |]. repeat split; simpl; auto.
  intros p [Hin | ->%list_elem_of_singleton]%elem_of_app; auto.
Qed.

Lemma put_io_part_attribute_within name m :
  name ∈ names -> meta_within names fieldNames m0 m ->
  meta_within names fieldNames m0 (put_io_part_attribute (Some name) m).
Proof.
  intros Hname (Hp & Hio & Hf & Hr). unfold put_io_part_attribute.
  case_decide; [done |]. repeat split; simpl; auto.
  intros p [Hin | ->%list_elem_of_singleton]%elem_of_app; auto.
Qed.

Lemma declare_field_within fieldName m :
  fieldName = "coordinates" \/ fieldName ∈ fieldNames ->
  meta_within names fieldNames m0 m ->
  meta_within names fieldNames m0 (declare_field fieldName m).
Proof.
  intros Hname (Hp & Hio & Hf & Hr). unfold declare_field.
  case_decide; [done |]. repeat split; simpl; auto.
  intros f [Hin | ->%list_elem_of_singleton]%elem_of_app; auto.
Qed.

Lemma put_field_within fieldName name size m :
  name ∈ names -> meta_within names fieldNames m0 m ->
  meta_within names fieldNames m0 (put_field fieldName (Some name) size m).
Proof.
  intros Hname (Hp & Hio & Hf & Hr). unfold put_field.
  case_decide; [done |]. repeat split; simpl; auto.
  intros r [Hin | ->%list_elem_of_singleton]%elem_of_app; eauto.
Qed.

Lemma register_on_within nDim (fieldInfo : list (string * Z)) name m :
  name ∈ names -> Forall (fun fi => fi.1 ∈ fieldNames) fieldInfo ->
  meta_within names fieldNames m0 m ->
  meta_within names fieldNames m0 (register_on nDim fieldInfo (Some name) m).
Proof.
  intros Hname Hfields Hm. unfold register_on.
  apply foldl_preserves.
  - intros m' fi Hfi Hm'. unfold register_field.
    apply put_field_within, declare_field_within; auto.
    right. exact (proj1 (Forall_forall _ _) Hfields fi Hfi).
  - apply put_field_within, declare_field_within; auto.
Qed.

End SetupBounds.

Lemma setup_meta_within infos m :
  meta_within (flat_map partName_ infos)
    (flat_map (fun info => map fst (fieldInfo_ info)) infos)
    m (setup_meta infos m).
Proof.
  unfold setup_meta. cbv zeta. apply foldl_preserves.
  - intros m' info' [info [-> Hinfo]]%list_elem_of_fmap Hm'.
    unfold register_fields. apply foldl_preserves; [| done].
    intros m'' part [name [-> Hname]]%list_elem_of_fmap Hm''.
    apply register_on_within; [| | done].
    + apply elem_of_flat_map. eauto.
    + apply Forall_forall. intros fi Hfi. apply elem_of_flat_map.
      exists info. split; [done |]. now apply list_elem_of_fmap_2.
  - apply foldl_preserves; [| apply meta_within_refl].
    intros m' info Hinfo Hm'. unfold declare_parts.
    apply foldl_preserves; [| done].
    intros m'' name Hname Hm''.
    assert (name ∈ flat_map partName_ infos)
      by (apply elem_of_flat_map; eauto).
    now apply put_io_part_attribute_within, declare_part_within.
Qed.

Lemma declare_part_known name m : name ∈ parts m -> declare_part name m = m.
Proof. intros H. unfold declare_part. now rewrite decide_True. Qed.

Lemma put_io_part_attribute_known name m :
  name ∈ io_parts m -> put_io_part_attribute (Some name) m = m.
Proof. intros H. unfold put_io_part_attribute. now rewrite decide_True. Qed.

Lemma declare_field_known fieldName m :
  fieldName ∈ fields m -> declare_field fieldName m = m.
Proof. intros H. unfold declare_field. now rewrite decide_True. Qed.

Lemma put_field_known fieldName part size m :
  (fieldName, part, size) ∈ field_restrictions m ->
  put_field fieldName part size m = m.
Proof. intros H. unfold put_field. now rewrite decide_True. Qed.

Lemma register_on_known nDim fieldInfo part m :
  "coordinates" ∈ fields m ->
  ("coordinates", part, nDim) ∈ field_restrictions m ->
  Forall (fun fi : string * Z =>
            fi.1 ∈ fields m /\ (fi.1, part, fi.2) ∈ field_restrictions m)
         fieldInfo ->
  register_on nDim fieldInfo part m = m.
Proof.
  intros Hc Hr Hf. unfold register_on.
  rewrite declare_field_known, put_field_known by done.
  apply foldl_fixed. intros fi Hfi.
  destruct (proj1 (Forall_forall _ _) Hf fi Hfi) as [Hfield Hrest].
  unfold register_field.
  now rewrite declare_field_known, put_field_known.
Qed.

(** On a mesh that has what [setup] owes the probes, [setup] declares
    nothing. *)
Lemma setup_meta_fixed infos m :
  (forall info name, info ∈ infos -> name ∈ partName_ info ->
     probe_declared m (to_int (spatial_dimension m)) (fieldInfo_ info) name) ->
  setup_meta (map setup_info infos) m = m.
Proof.
  intros Hdecl. unfold setup_meta. cbv zeta.
  assert (E : foldl (fun m info => declare_parts info m) m
                (map setup_info infos) = m).
  { apply foldl_fixed. intros info' [info [-> Hinfo]]%list_elem_of_fmap.
    unfold declare_parts. apply foldl_fixed. intros name Hname.
    change (name ∈ partName_ info) in Hname.
    destruct (Hdecl info name Hinfo Hname) as (Hp & Hio & _).
    now rewrite declare_part_known, put_io_part_attribute_known. }
  rewrite E. apply foldl_fixed.
  intros info'' [info' [-> [info [-> Hinfo]]%list_elem_of_fmap]]%list_elem_of_fmap.
  unfold register_fields. apply foldl_fixed.
  intros part Hpart. change (part ∈ map Some (partName_ info)) in Hpart.
  apply list_elem_of_fmap in Hpart as [name [-> Hname]].
  destruct (Hdecl info name Hinfo Hname) as (_ & _ & Hc & Hr & Hf).
  now apply register_on_known.
Qed.

Lemma setup_info_twice info : setup_info (setup_info info) = setup_info info.
Proof. reflexivity. Qed.

Lemma setup_spec_twice probeSpec :
  setup_spec (setup_spec probeSpec) = setup_spec probeSpec.
Proof.
  unfold setup_spec. simpl. unfold set_dataProbeInfo. simpl.
  now rewrite map_map.
Qed.

Section Setup.

(** X9: on a registry sized as [load] leaves it, [setup] returns; afterwards
    every probe points to the part that has its name and nothing else of the
    registry has changed; the mesh has that part, marked for output, the
    coordinate field on it with the dimension of the mesh, and every
    requested field of the probe set on it with its size. *)
Theorem setup_declares_every_probe (w : World) :
  Forall sized (all_probeInfo (this w)) ->
  exists w',
    setup w = (w', Ok tt) /\
    dataProbeSpecInfo_ (this w')
    = map setup_spec (dataProbeSpecInfo_ (this w)) /\
    forall info name,
      info ∈ all_probeInfo (this w) -> name ∈ partName_ info ->
      probe_declared (meta_data (realm_ w'))
        (to_int (spatial_dimension (meta_data (realm_ w))))
        (fieldInfo_ info) name.
Proof.
  intros Hsized. rewrite (setup_effect w Hsized).
  eexists. split; [reflexivity |]. split; [reflexivity |].
  intros info name Hinfo Hname. simpl.
  now apply setup_meta_declared.
Qed.

(** X10: [setup] keeps what the mesh has declared and the dimension; what it
    adds is a part of a probe, the coordinate field or a requested field, a
    restriction of a field to the part of a probe. It touches neither the
    bulk data, the time and the step of the realm, the console, nor a member
    of the object other than the registry. *)
Theorem setup_declares_nothing_else (w : World) :
  Forall sized (all_probeInfo (this w)) ->
  meta_le (meta_data (realm_ w)) (meta_data (realm_ (setup w).1)) /\
  meta_within (all_probe_names (this w)) (all_field_names (this w))
    (meta_data (realm_ w)) (meta_data (realm_ (setup w).1)) /\
  realm_ (setup w).1
  = set_meta_data (meta_data (realm_ (setup w).1)) (realm_ w) /\
  this (setup w).1
  = set_dataProbeSpecInfo (dataProbeSpecInfo_ (this (setup w).1)) (this w) /\
  cout (setup w).1 = cout w.
Proof.
  intros Hsized. rewrite (setup_effect w Hsized). simpl.
  split; [apply setup_meta_le |]. split; [apply setup_meta_within |].
  repeat split.
Qed.

(** X11: [setup] on the world [setup] has left changes nothing. *)
Theorem setup_twice_is_setup_once (w : World) :
  Forall sized (all_probeInfo (this w)) ->
  setup (setup w).1 = ((setup w).1, Ok tt).
Proof.
  intros Hsized. rewrite (setup_effect w Hsized). cbn [fst].
  rewrite setup_effect.
  - unfold all_probeInfo.
    cbn [this realm_ cout dataProbeSpecInfo_ set_dataProbeSpecInfo
         set_meta_data meta_data current_time time_step_count bulk_data
         outputFreq_ allTheParts_ inactiveSelector_].
    rewrite all_probeInfo_setup.
    rewrite setup_meta_fixed.
    + rewrite map_map.
      rewrite (map_ext (fun x => setup_spec (setup_spec x)) setup_spec)
        by apply setup_spec_twice.
      reflexivity.
    + intros info name Hinfo Hname.
      destruct (setup_meta_le (flat_map dataProbeInfo_
                                 (dataProbeSpecInfo_ (this w)))
                  (meta_data (realm_ w))) as (-> & _).
      now apply setup_meta_declared.
  - unfold all_probeInfo. simpl. rewrite all_probeInfo_setup.
    apply Forall_map. eapply Forall_impl; [exact Hsized |].
    intros info Hinfo. apply (sized_setup_info info Hinfo).
Qed.

End Setup.

Lemma setup_declares_every_probe_witness :
  exists w',
    setup good_world_loaded = (w', Ok tt) /\
    dataProbeSpecInfo_ (this w')
    = map setup_spec (dataProbeSpecInfo_ (this good_world_loaded)) /\
    forall info name,
      info ∈ all_probeInfo (this good_world_loaded) -> name ∈ partName_ info ->
      probe_declared (meta_data (realm_ w'))
        (to_int (spatial_dimension (meta_data (realm_ good_world_loaded))))
        (fieldInfo_ info) name.
Proof.
  apply (setup_declares_every_probe good_world_loaded).
  repeat constructor.
Defined.

Lemma setup_declares_nothing_else_witness :
  meta_le (meta_data (realm_ good_world_loaded))
    (meta_data (realm_ (setup good_world_loaded).1)) /\
  meta_within (all_probe_names (this good_world_loaded))
    (all_field_names (this good_world_loaded))
    (meta_data (realm_ good_world_loaded))
    (meta_data (realm_ (setup good_world_loaded).1)) /\
  realm_ (setup good_world_loaded).1
  = set_meta_data (meta_data (realm_ (setup good_world_loaded).1))
      (realm_ good_world_loaded) /\
  this (setup good_world_loaded).1
  = set_dataProbeSpecInfo
      (dataProbeSpecInfo_ (this (setup good_world_loaded).1))
      (this good_world_loaded) /\
  cout (setup good_world_loaded).1 = cout good_world_loaded.
Proof.
  apply (setup_declares_nothing_else good_world_loaded).
  repeat constructor.
Defined.

Lemma setup_twice_is_setup_once_witness :
  setup (setup good_world_loaded).1 = ((setup good_world_loaded).1, Ok tt).
Proof.
  apply (setup_twice_is_setup_once good_world_loaded).
  repeat constructor.
Defined.

(* ===================================================================== *)
(** * The trace of initialize *)
(* ===================================================================== *)

Section LoopInvariantsByPrefix.

Context {St A : Type}.

(** A loop whose body never throws, with an invariant over the elements
    done so far, the body being entered with the vector split at the
    current element. *)
Lemma for_each_prefix_invariant (body : nat -> A -> Exc St unit)
    (I : list A -> St -> Prop) (whole : list A) :
  (forall k done x rest s, whole = done ++ x :: rest -> I done s ->
     exists s', body k x s = (s', Ok tt) /\ I (done ++ [x]) s') ->
  forall v done i s, whole = done ++ v -> I done s ->
    exists s', for_each body i v s = (s', Ok tt) /\ I whole s'.
Proof.
  intros Hbody. induction v as [| x v IH]; intros done i s Hwhole Hs.
  - rewrite app_nil_r in Hwhole. subst. now exists s.
  - destruct (Hbody i done x v s Hwhole Hs) as (s1 & E1 & H1).
    destruct (IH (done ++ [x]) (S i) s1) as (s2 & E2 & H2);
      [now rewrite <- app_assoc | exact H1 |].
    exists s2. now rewrite for_each_cons, E1.
Qed.

End LoopInvariantsByPrefix.

Section RegistryLoopsByPrefix.

Context {St : Type}.

(** The loop nest over the registry, with an invariant over the probe
    sets done so far, before and after the body. *)
Lemma each_probeInfo_invariant2 (body : Exc (DataProbeInfo * St) unit)
    (P : DataProbeInfo -> Prop) (R : DataProbeInfo -> DataProbeInfo -> Prop)
    (I : list DataProbeInfo -> list DataProbeInfo -> St -> Prop) :
  (forall info done done' s, P info -> I done done' s ->
     exists info' s', body (info, s) = ((info', s'), Ok tt) /\
                      R info info' /\ I (done ++ [info]) (done' ++ [info']) s') ->
  forall specs s,
    Forall P (flat_map dataProbeInfo_ specs) -> I [] [] s ->
    exists specs' s',
      each_probeInfo body (specs, s) = ((specs', s'), Ok tt) /\
      Forall2 (spec_related R) specs specs' /\
      I (flat_map dataProbeInfo_ specs) (flat_map dataProbeInfo_ specs') s'.
Proof.
  intros Hbody specs s HP HI. unfold each_probeInfo.
  destruct (zoom_each_invariant
              (fun '(probeSpec, s) =>
                 let '((infos, s'), r) :=
                   zoom_each body (dataProbeInfo_ probeSpec) s in
                 ((set_dataProbeInfo infos probeSpec, s'), r))
              (fun done done' s =>
                 Forall2 (spec_related R) done done' /\
                 I (flat_map dataProbeInfo_ done)
                   (flat_map dataProbeInfo_ done') s)
              specs) with (done := @nil DataProbeSpecInfo)
                          (done' := @nil DataProbeSpecInfo) (s := s)
    as (specs' & s' & E & Hrel & Hfinal).
  - intros probeSpec done done' s0 Hin [Hrel HI0].
    destruct (zoom_each_invariant body
                (fun idone idone' s =>
                   Forall2 R idone idone' /\
                   I (flat_map dataProbeInfo_ done ++ idone)
                     (flat_map dataProbeInfo_ done' ++ idone') s)
                (dataProbeInfo_ probeSpec)) with
      (done := @nil DataProbeInfo) (done' := @nil DataProbeInfo) (s := s0)
      as (infos' & s1 & E1 & Hrel1 & HI1).
    + intros info idone idone' s1 Hinfo [Hrel1 HI1].
      destruct (Hbody info (flat_map dataProbeInfo_ done ++ idone)
                  (flat_map dataProbeInfo_ done' ++ idone') s1)
        as (info' & s2 & E2 & HR & HI2).
      * apply (proj1 (Forall_forall _ _) HP), elem_of_flat_map.
        now exists probeSpec.
      * assumption.
      * exists info', s2. split; [exact E2 |]. split.
        -- apply Forall2_app; [assumption | now repeat constructor].
        -- now rewrite !app_assoc.
    + split; [constructor | now rewrite !app_nil_r].
    + exists (set_dataProbeInfo infos' probeSpec), s1. rewrite E1.
      split; [reflexivity |]. simpl in *. split.
      * apply Forall2_app; [assumption |]. repeat constructor; assumption.
      * rewrite !flat_map_app. simpl. now rewrite !app_nil_r.
  - split; [constructor | assumption].
  - exists specs', s'. simpl in *. now rewrite E.
Qed.

End RegistryLoopsByPrefix.

Section InitializeTrace.

Context {engine : MeshEngine}.
Variable env : NaluEnv.

Lemma seq_split n (done : list nat) j rest :
  seq 0 n = done ++ j :: rest -> done = seq 0 j /\ (j < n)%nat.
Proof.
  intros H.
  assert (Hlen : n = (length done + S (length rest))%nat).
  { apply (f_equal length) in H.
    now rewrite length_seq, length_app in H. }
  assert (Hj : j = length done).
  { assert (Hl : seq 0 n !! length done = Some j)
      by (rewrite H; apply list_lookup_middle; reflexivity).
    apply lookup_seq in Hl. lia. }
  split; [| lia].
  rewrite <- (take_app_length done (j :: rest)), <- H, take_seq.
  f_equal. lia.
Qed.

Lemma flat_map_ext_elem {T U} (f g : T -> list U) (l : list T) :
  (forall x, x ∈ l -> f x = g x) -> flat_map f l = flat_map g l.
Proof.
  induction l as [| x l IH]; intros H; [reflexivity |].
  simpl. rewrite H by apply list_elem_of_here.
  rewrite IH; [reflexivity |].
  intros y Hy. apply H. now apply list_elem_of_further.
Qed.

Lemma collective_calls_app calls calls' :
  collective_calls (calls ++ calls')
  = collective_calls calls ++ collective_calls calls'.
Proof. apply omap_app. Qed.

Lemma declarations_app calls calls' :
  declarations (calls ++ calls') = declarations calls ++ declarations calls'.
Proof. apply omap_app. Qed.

Lemma collective_declared (f : nat -> EntityId) part (idx : list nat) :
  collective_calls (map (fun i => DeclareEntity (f i) part) idx) = [].
Proof. induction idx as [| i idx IH]; [reflexivity |]. exact IH. Qed.

Lemma declarations_declared (f : nat -> EntityId) part (idx : list nat) :
  declarations (map (fun i => DeclareEntity (f i) part) idx)
  = map (fun i => (f i, part)) idx.
Proof.
  induction idx as [| i idx IH]; [reflexivity |].
  simpl. unfold declarations in *. simpl. now rewrite IH.
Qed.

Lemma collective_probe_calls info j history :
  collective_calls (probe_calls env info j history)
  = probe_cycle (numPoints_ info !!! j).
Proof.
  unfold probe_calls, collective_calls. simpl. f_equal. f_equal.
  rewrite omap_app. destruct (decide _); [| reflexivity].
  fold (collective_calls
          (map (fun i => DeclareEntity
                  (fresh_ids history (numPoints_ info !!! j) !!! i)
                  (part_ info !!! j))
             (seq 0 (Z.to_nat (numPoints_ info !!! j))))).
  now rewrite collective_declared.
Qed.

Lemma declarations_probe_calls info j history :
  declarations (probe_calls env info j history)
  = if decide (processorId_ info !!! j = parallel_rank env)
    then map (fun node => (node, part_ info !!! j))
           (created_nodes (fresh_ids history (numPoints_ info !!! j))
              (numPoints_ info !!! j))
    else [].
Proof.
  unfold probe_calls, declarations. simpl.
  rewrite omap_app. simpl. rewrite app_nil_r.
  destruct (decide _); [| reflexivity].
  fold (declarations
          (map (fun i => DeclareEntity
                  (fresh_ids history (numPoints_ info !!! j) !!! i)
                  (part_ info !!! j))
             (seq 0 (Z.to_nat (numPoints_ info !!! j))))).
  rewrite declarations_declared. unfold created_nodes. now rewrite map_map.
Qed.

Lemma bracketed_app (calls calls' : list BulkCall) : forall inside,
  bracketed inside calls = true ->
  bracketed inside (calls ++ calls') = bracketed false calls'.
Proof.
  induction calls as [| c calls IH]; intros inside H; simpl in *.
  - now destruct inside.
  - destruct c, inside; simpl in *; try discriminate; now apply IH.
Qed.

Lemma bracketed_declared (f : nat -> EntityId) part (idx : list nat) :
  bracketed true (map (fun i => DeclareEntity (f i) part) idx
                    ++ [ModificationEnd]) = true.
Proof. induction idx as [| i idx IH]; [reflexivity |]. exact IH. Qed.

Lemma bracketed_probe_calls info j history :
  bracketed false (probe_calls env info j history) = true.
Proof.
  unfold probe_calls. simpl. destruct (decide _); [| reflexivity].
  apply bracketed_declared.
Qed.

(** The loop over the probes of one probe set (lines 285-313), with the
    calls it makes. *)
Lemma create_info_nodes_trace info0 bulk0 :
  ready info0 ->
  exists info' calls,
    (numProbes <- gets (fun s : DataProbeInfo * BulkData => numProbes_ s.1) ;;
     for_int numProbes (create_probe_nodes env)) (info0, bulk0)
    = ((info', mkBulkData (bulk_calls bulk0 ++ calls) (field_writes bulk0)),
       Ok tt) /\
    nodes_created env info0 info' /\
    collective_calls calls
    = flat_map (fun j => probe_cycle (numPoints_ info0 !!! j))
        (probe_indices info0) /\
    bracketed false calls = true /\
    declarations calls = held_nodes info'.
Proof.
  intros [Hnv Hnp].
  assert (Hlen : length (nodeVector_ info0) = Z.to_nat (numProbes_ info0))
    by (rewrite Hnv; apply length_replicate).
  set (I := fun (done : list nat) (s : DataProbeInfo * BulkData) =>
    s.1 = set_nodeVector (nodeVector_ s.1) info0 /\
    length (nodeVector_ s.1) = length (nodeVector_ info0) /\
    field_writes s.2 = field_writes bulk0 /\
    (exists calls,
       bulk_calls s.2 = bulk_calls bulk0 ++ calls /\
       collective_calls calls
       = flat_map (fun j => probe_cycle (numPoints_ info0 !!! j)) done /\
       bracketed false calls = true /\
       declarations calls
       = flat_map (fun j => map (fun node : Entity => (node, part_ info0 !!! j))
                                (nodeVector_ s.1 !!! j)) done) /\
    (forall k, k ∉ done -> nodeVector_ s.1 !!! k = []) /\
    (forall k, k ∈ done ->
       if decide (processorId_ info0 !!! k = parallel_rank env)
       then length (nodeVector_ s.1 !!! k) = Z.to_nat (numPoints_ info0 !!! k)
       else nodeVector_ s.1 !!! k = [])).
  unfold bind at 1, gets at 1. simpl. unfold for_int.
  destruct (for_each_prefix_invariant (fun _ j => create_probe_nodes env j) I
              (seq 0 (Z.to_nat (numProbes_ info0))))
    with (v := seq 0 (Z.to_nat (numProbes_ info0))) (done := @nil nat)
         (i := 0%nat) (s := (info0, bulk0))
    as ([info' bulk'] & E & Hinfo & Hlen' & Hfw & (calls & Hcalls & Hcoll & Hbr
                                                   & Hdecl) & _ & Hnodes).
  - (* one probe *)
    intros _ done j rest [info bulk] Hsplit
      (Hinfo & Hlen' & Hfw & (calls & Hcalls & Hcoll & Hbr & Hdecl)
       & Hrest & Hdone).
    simpl in *. apply seq_split in Hsplit as [-> Hj].
    assert (Hnp' : numPoints_ info = numPoints_ info0) by now rewrite Hinfo.
    assert (Hpid : processorId_ info = processorId_ info0) by now rewrite Hinfo.
    assert (Hpart : part_ info = part_ info0) by now rewrite Hinfo.
    assert (Hnew : j ∉ seq 0 j) by (rewrite elem_of_seq; lia).
    assert (Hjlt : (j < length (nodeVector_ info))%nat) by lia.
    eexists. split.
    { apply create_probe_nodes_effect.
      - rewrite Hnp'. now apply lookup_total_nonneg.
      - exact Hjlt. }
    unfold I; simpl. rewrite Hpid, Hnp'.
    pose proof (declarations_probe_calls info j (bulk_calls bulk)) as Hd.
    rewrite Hpid, Hnp', Hpart in Hd.
    destruct (decide (processorId_ info0 !!! j = parallel_rank env))
      as [Hown | Hother]; simpl.
    + split; [rewrite Hinfo at 2; reflexivity |].
      split; [now rewrite length_insert |].
      split; [assumption |]. split; [| split].
      * exists (calls ++ probe_calls env info j (bulk_calls bulk)).
        split; [now rewrite Hcalls, app_assoc |]. split; [| split].
        -- rewrite collective_calls_app, Hcoll.
           rewrite collective_probe_calls, Hnp', flat_map_app. reflexivity.
        -- rewrite (bracketed_app _ _ _ Hbr). apply bracketed_probe_calls.
        -- rewrite declarations_app, Hdecl.
           rewrite Hd, flat_map_app. simpl. rewrite app_nil_r.
           rewrite list_lookup_total_insert_eq by exact Hjlt. f_equal.
           apply flat_map_ext_elem. intros k Hk.
           rewrite list_lookup_total_insert_ne; [reflexivity |].
           intros ->. contradiction.
      * intros k Hk. rewrite not_elem_of_app in Hk. destruct Hk as [Hk Hkj].
        rewrite list_lookup_total_insert_ne
          by (intros ->; apply Hkj, list_elem_of_here).
        now apply Hrest.
      * intros k Hk. apply elem_of_app in Hk as [Hk | Hk].
        -- rewrite list_lookup_total_insert_ne by (intros ->; contradiction).
           now apply Hdone.
        -- apply list_elem_of_singleton in Hk as ->.
           rewrite decide_True by done.
           rewrite list_lookup_total_insert_eq by exact Hjlt.
           unfold created_nodes. now rewrite length_map, length_seq.
    + split; [assumption |]. split; [assumption |].
      split; [assumption |]. split; [| split].
      * exists (calls ++ probe_calls env info j (bulk_calls bulk)).
        split; [now rewrite Hcalls, app_assoc |]. split; [| split].
        -- rewrite collective_calls_app, Hcoll.
           rewrite collective_probe_calls, Hnp', flat_map_app. reflexivity.
        -- rewrite (bracketed_app _ _ _ Hbr). apply bracketed_probe_calls.
        -- rewrite declarations_app, Hdecl.
           rewrite Hd, flat_map_app. cbn [flat_map].
           now rewrite (Hrest j Hnew).
      * intros k Hk. rewrite not_elem_of_app in Hk. destruct Hk as [Hk Hkj].
        now apply Hrest.
      * intros k Hk. apply elem_of_app in Hk as [Hk | Hk].
        -- now apply Hdone.
        -- apply list_elem_of_singleton in Hk as ->.
           rewrite decide_False by done. now apply Hrest.
  - reflexivity.
  - unfold I; simpl. split; [now rewrite set_nodeVector_id |].
    split; [reflexivity |]. split; [reflexivity |]. split; [| split].
    + exists []. now rewrite app_nil_r.
    + intros k _. rewrite Hnv. apply lookup_total_replicate_nil.
    + intros k Hk. inversion Hk.
  - simpl in *. exists info', calls. split; [| split; [| split; [| split]]].
    + rewrite E. destruct bulk' as [c fw]; simpl in *. now subst.
    + split; [exact Hinfo |]. split; [exact Hlen' |].
      intros j Hj. apply Hnodes, elem_of_seq. lia.
    + exact Hcoll.
    + exact Hbr.
    + rewrite Hdecl. unfold held_nodes, probe_indices.
      rewrite Hinfo. reflexivity.
Qed.

Lemma coordinate_write_mono nDim (nodes nodes' : list Entity) wr :
  nodes ⊆ nodes' -> coordinate_write nDim nodes wr ->
  coordinate_write nDim nodes' wr.
Proof. intros Hsub (Hf & Hn & Hi). repeat split; auto. Qed.

Lemma placed_writes_coordinate nDim value (nodes nodeVec : list Entity) :
  nodeVec ⊆ nodes ->
  forall jn, Forall (coordinate_write nDim nodes)
               (placed_writes nDim value jn nodeVec).
Proof.
  induction nodeVec as [| node nodeVec IH]; intros Hsub jn; [constructor |].
  simpl. apply Forall_app. split.
  - unfold point_writes. apply Forall_forall.
    intros wr [i [-> Hi%elem_of_seq]]%list_elem_of_fmap.
    repeat split; simpl; [| lia].
    apply Hsub, list_elem_of_here.
  - apply IH. intros x Hx. apply Hsub. now apply list_elem_of_further.
Qed.

Lemma lookup_total_concat (l : list (list Entity)) j :
  l !!! j ⊆ concat l.
Proof.
  intros node Hnode. destruct (decide (j < length l)%nat) as [Hlt | Hge].
  - apply list_elem_of_In, in_concat. exists (l !!! j).
    split; [| now apply list_elem_of_In].
    apply list_elem_of_In. now apply list_elem_of_lookup_total_2.
  - rewrite list_lookup_total_alt, (proj2 (lookup_ge_None l j)) in Hnode by lia.
    inversion Hnode.
Qed.

(** The loop over the probes of one probe set (lines 330-361), with the
    writes it makes. *)
Lemma place_info_nodes_writes nDim info bulk :
  0 <= nDim ->
  exists writes,
    (numProbes <- gets (fun s : DataProbeInfo * BulkData => numProbes_ s.1) ;;
     for_int numProbes (place_probe_nodes nDim)) (info, bulk)
    = ((info, mkBulkData (bulk_calls bulk) (writes ++ field_writes bulk)),
       Ok tt) /\
    Forall (coordinate_write nDim (concat (nodeVector_ info))) writes.
Proof.
  intros HnDim. unfold bind at 1, gets at 1. simpl. unfold for_int.
  destruct (for_each_invariant (fun _ j => place_probe_nodes nDim j)
              (fun _ s =>
                 s.1 = info /\ bulk_calls s.2 = bulk_calls bulk /\
                 exists writes,
                   field_writes s.2 = writes ++ field_writes bulk /\
                   Forall (coordinate_write nDim (concat (nodeVector_ info)))
                     writes)
              (seq 0 (Z.to_nat (numProbes_ info)))) with
    (done := @nil nat) (i := 0%nat) (s := (info, bulk))
    as ([info' bulk'] & E & Hinfo & Hcalls & writes & Hfw & Hall).
  - intros _ j _ [info1 bulk1] _ (Hinfo & Hcalls & writes & Hfw & Hall).
    simpl in *. subst info1.
    destruct (place_probe_nodes_effect nDim j info bulk1 HnDim)
      as (tipC & tailC & _ & _ & E).
    eexists. split; [exact E |]. simpl.
    split; [reflexivity |]. split; [assumption |].
    eexists. split; [rewrite Hfw; apply app_assoc |].
    apply Forall_app. split; [| assumption].
    apply Forall_rev, placed_writes_coordinate, lookup_total_concat.
  - split; [reflexivity |]. split; [reflexivity |]. now exists [].
  - simpl in *. subst info'. exists writes. split; [| assumption].
    rewrite E. destruct bulk' as [c fw]; simpl in *. now subst.
Qed.

Lemma probe_parts_created (d d' : DataProbePostProcessing) :
  Forall2 (spec_related (nodes_created env))
    (dataProbeSpecInfo_ d) (dataProbeSpecInfo_ d') ->
  probe_parts d' = probe_parts d.
Proof.
  unfold probe_parts. generalize (dataProbeSpecInfo_ d) (dataProbeSpecInfo_ d').
  induction 1 as [| probeSpec probeSpec' specs specs' [_ Hinfos] _ IH];
    [reflexivity |].
  simpl. rewrite IH. f_equal.
  induction Hinfos as [| info info' infos infos' [Hinfo _] _ IHi];
    [reflexivity |].
  simpl. rewrite IHi. f_equal. now rewrite Hinfo.
Qed.

(** The whole of [initialize] on a registry as [load] leaves it. *)
Lemma initialize_effect (w : World) :
  Forall ready (all_probeInfo (this w)) ->
  0 <= to_int (spatial_dimension (meta_data (realm_ w))) ->
  exists specs' calls writes,
    initialize env w
    = (mkWorld
         (mkDataProbePostProcessing (outputFreq_ (this w)) specs'
            (allTheParts_ (this w) ++ probe_parts (this w))
            (allTheParts_ (this w) ++ probe_parts (this w)))
         (set_bulk_data
            (mkBulkData (bulk_calls (bulk_data (realm_ w)) ++ calls)
               (writes ++ field_writes (bulk_data (realm_ w))))
            (realm_ w))
         (cout w), Ok tt) /\
    Forall2 (spec_related (nodes_created env))
      (dataProbeSpecInfo_ (this w)) specs' /\
    collective_calls calls
    = flat_map (fun info =>
                  flat_map (fun j => probe_cycle (numPoints_ info !!! j))
                    (probe_indices info))
        (all_probeInfo (this w)) /\
    bracketed false calls = true /\
    declarations calls = flat_map held_nodes (flat_map dataProbeInfo_ specs') /\
    Forall (coordinate_write
              (to_int (spatial_dimension (meta_data (realm_ w))))
              (flat_map (fun info => concat (nodeVector_ info))
                 (flat_map dataProbeInfo_ specs')))
      writes.
Proof.
  intros Hready HnDim. unfold all_probeInfo in *.
  set (specs := dataProbeSpecInfo_ (this w)) in *.
  set (bulk := bulk_data (realm_ w)).
  set (nDim := to_int (spatial_dimension (meta_data (realm_ w)))) in *.
  (* the creation of the nodes *)
  destruct (each_probeInfo_invariant2
              (numProbes <- gets (fun s : DataProbeInfo * BulkData =>
                                    numProbes_ s.1) ;;
               for_int numProbes (create_probe_nodes env))
              ready (nodes_created env)
              (fun done done' b =>
                 field_writes b = field_writes bulk /\
                 exists calls,
                   bulk_calls b = bulk_calls bulk ++ calls /\
                   collective_calls calls
                   = flat_map (fun info =>
                                 flat_map
                                   (fun j => probe_cycle (numPoints_ info !!! j))
                                   (probe_indices info)) done /\
                   bracketed false calls = true /\
                   declarations calls = flat_map held_nodes done'))
    with (specs := specs) (s := bulk)
    as (specs1 & bulk1 & E1 & Hrel1 & Hfw1 & calls & Hcalls & Hcoll & Hbr & Hdecl).
  { intros info done done' b Hinfo (Hfw & calls & Hcalls & Hcoll & Hbr & Hdecl).
    destruct (create_info_nodes_trace info b Hinfo)
      as (info' & calls1 & E & Hcreated & Hcoll1 & Hbr1 & Hdecl1).
    eexists info', _. split; [exact E |]. split; [exact Hcreated |].
    simpl. split; [exact Hfw |].
    exists (calls ++ calls1). split; [now rewrite Hcalls, app_assoc |].
    split; [| split].
    - rewrite collective_calls_app, Hcoll, Hcoll1, flat_map_app. simpl.
      now rewrite app_nil_r.
    - now rewrite (bracketed_app _ _ _ Hbr).
    - rewrite declarations_app, Hdecl, Hdecl1, flat_map_app. simpl.
      now rewrite app_nil_r. }
  { exact Hready. }
  { split; [reflexivity |]. exists []. now rewrite app_nil_r. }
  (* the placement *)
  destruct (each_probeInfo_invariant2
              (numProbes <- gets (fun s : DataProbeInfo * BulkData =>
                                    numProbes_ s.1) ;;
               for_int numProbes (place_probe_nodes nDim))
              (fun _ => True) eq
              (fun done _ b =>
                 bulk_calls b = bulk_calls bulk1 /\
                 exists writes,
                   field_writes b = writes ++ field_writes bulk1 /\
                   Forall (coordinate_write nDim
                             (flat_map (fun info => concat (nodeVector_ info))
                                done)) writes))
    with (specs := specs1) (s := bulk1)
    as (specs2 & bulk2 & E2 & Hrel2 & Hcalls2 & writes & Hfw2 & Hwrites).
  { intros info done done' b _ (Hb & writes & Hfw & Hall).
    destruct (place_info_nodes_writes nDim info b HnDim)
      as (writes1 & E & Hall1).
    eexists info, _. split; [exact E |]. split; [reflexivity |].
    simpl. split; [exact Hb |].
    exists (writes1 ++ writes). split; [now rewrite Hfw, app_assoc |].
    rewrite flat_map_app. simpl. rewrite app_nil_r.
    apply Forall_app. split.
    - eapply Forall_impl; [exact Hall1 |]. intros wr.
      apply coordinate_write_mono. now apply list_subseteq_app_r.
    - eapply Forall_impl; [exact Hall |]. intros wr.
      apply coordinate_write_mono. now apply list_subseteq_app_l. }
  { apply Forall_forall. done. }
  { split; [reflexivity |]. now exists []. }
  assert (Hsame : specs2 = specs1).
  { apply eq_sym, list_eq_Forall2.
    eapply Forall2_impl; [exact Hrel2 |].
    intros a b Hab. now apply eq_sym, spec_related_eq. }
  subst specs2.
  exists specs1, calls, writes. split; [| now repeat split].
  unfold initialize.
  erewrite bind_Ok by (unfold with_bulk; fold specs bulk; rewrite E1;
                       reflexivity).
  unfold bind at 1, gets at 1. cbn [realm_ meta_data set_bulk_data].
  erewrite bind_Ok
    by (unfold with_bulk; cbn [this realm_ bulk_data set_bulk_data
                                 dataProbeSpecInfo_ set_dataProbeSpecInfo];
        fold nDim; rewrite E2; reflexivity).
  unfold create_inactive_selector, modify.
  cbn [this realm_ cout set_inactiveSelector set_allTheParts allTheParts_
       outputFreq_ dataProbeSpecInfo_ set_dataProbeSpecInfo inactiveSelector_].
  rewrite (probe_parts_created (this w)) by exact Hrel1.
  unfold set_bulk_data.
  cbn [current_time time_step_count meta_data bulk_data].
  destruct bulk2 as [c2 fw2]. simpl in Hcalls2, Hfw2.
  now rewrite Hcalls2, Hfw2, Hcalls, Hfw1.
Qed.



Lemma read_writes_app fieldName node i writes old :
  Forall (fun wr : string * Entity * nat * float =>
            ~ (wr.1.1.1 = fieldName /\ wr.1.1.2 = node /\ wr.1.2 = i)) writes ->
  read_writes fieldName node i (writes ++ old) = read_writes fieldName node i old.
Proof.
  induction 1 as [| [[[f n] k] v] writes Hwr _ IH]; [reflexivity |].
  simpl in *. now rewrite decide_False.
Qed.



End InitializeTrace.

(* ===================================================================== *)
(** * initialize: identifiers on every rank, nodes and handles on the owner *)
(* ===================================================================== *)

Section Provision.

Context {engine : MeshEngine}.
Variable env : NaluEnv.

Lemma set_up_ready info : set_up info -> ready info.
Proof.
  intros (_ & _ & _ & _ & _ & Hnv & _ & Hnp). split; [exact Hnv |].
  eapply Forall_impl; [exact Hnp |]. intros n Hn. apply Hn.
Qed.

(** C9: on a registry as [load] and [setup] leave it, on a mesh of two
    or three dimensions, [initialize] returns; whatever the rank, it
    requests identifiers once per probe, for that probe's point count; it
    declares a node per point for the probes this rank owns and none for
    the others; the handles of the nodes it declares are the handles the
    probes hold afterwards, in the order of the probes and of the points
    and each in the part of its probe, so that an owned probe holds the
    handle of each of its nodes and the node vector of a probe owned by
    another rank is empty. *)
Theorem initialize_requests_everywhere_declares_on_owner (w : World) :
  Forall set_up (all_probeInfo (this w)) ->
  spatial_dimension (meta_data (realm_ w)) = 2 \/
  spatial_dimension (meta_data (realm_ w)) = 3 ->
  exists w' calls,
    initialize env w = (w', Ok tt) /\
    bulk_calls (bulk_data (realm_ w'))
    = bulk_calls (bulk_data (realm_ w)) ++ calls /\
    requests_of calls = flat_map requested_points (all_probeInfo (this w)) /\
    provision_events calls
    = flat_map (fun info => flat_map (expected_events env info)
                              (probe_indices info))
        (all_probeInfo (this w)) /\
    Forall2 (nodes_created env) (all_probeInfo (this w)) (all_probeInfo (this w')) /\
    declarations calls = flat_map held_nodes (all_probeInfo (this w')).
Proof.
  intros Hsetup Hdim.
  assert (Hready : Forall ready (all_probeInfo (this w))).
  { eapply Forall_impl; [exact Hsetup |]. apply set_up_ready. }
  assert (HnDim : 0 <= to_int (spatial_dimension (meta_data (realm_ w)))).
  { destruct Hdim as [-> | ->]; vm_compute; discriminate. }
  destruct (initialize_provision env w Hready HnDim)
    as (w1 & E1 & Hreq & Hev & Hnodes).
  destruct (initialize_effect env w Hready HnDim)
    as (specs' & calls & writes & E & _ & _ & _ & Hdecl & _).
  rewrite E1 in E. injection E as ->.
  simpl in Hreq, Hev, Hnodes |- *.
  eexists _, calls. split; [exact E1 |]. split; [reflexivity |].
  split; [| split; [| split]].
  - unfold requests_of in *. rewrite omap_app in Hreq.
    now apply app_inv_head in Hreq.
  - unfold provision_events in *. rewrite omap_app in Hev.
    now apply app_inv_head in Hev.
  - exact Hnodes.
  - exact Hdecl.
Qed.

End Provision.

Lemma initialize_requests_everywhere_declares_on_owner_witness :
  exists w' calls,
    @initialize Scenario.counting_engine Scenario.rank1_of_2
      Scenario.two_probe_world_rank1
    = (w', Ok tt) /\
    bulk_calls (bulk_data (realm_ w'))
    = bulk_calls (bulk_data (realm_ Scenario.two_probe_world_rank1)) ++ calls /\
    requests_of calls
    = flat_map requested_points
        (all_probeInfo (this Scenario.two_probe_world_rank1)) /\
    provision_events calls
    = flat_map (fun info =>
                  flat_map (expected_events Scenario.rank1_of_2 info)
                    (probe_indices info))
        (all_probeInfo (this Scenario.two_probe_world_rank1)) /\
    Forall2 (nodes_created Scenario.rank1_of_2)
      (all_probeInfo (this Scenario.two_probe_world_rank1))
      (all_probeInfo (this w')) /\
    declarations calls = flat_map held_nodes (all_probeInfo (this w')).
Proof.
  apply (@initialize_requests_everywhere_declares_on_owner
           Scenario.counting_engine Scenario.rank1_of_2
           Scenario.two_probe_world_rank1).
  - constructor; [| constructor].
    repeat split; try reflexivity. repeat constructor; unfold INT_MAX; lia.
  - right. reflexivity.
Defined.





(* ===================================================================== *)
(** * From the document to the inactive selector *)
(* ===================================================================== *)

Section Pipeline.

Context {Node : Type} {yaml : YamlApi Node} {engine : MeshEngine}.
Variable env : NaluEnv.

Lemma all_probeInfo_loaded views :
  flat_map dataProbeInfo_ (map (loaded_spec env) views)
  = map (fun v => loaded_info env (view_los v) (view_outputs v)) views.
Proof.
  induction views as [| v views IH]; [reflexivity |].
  simpl. now rewrite IH.
Qed.

Lemma sized_loaded_info ls outs : sized (loaded_info env ls outs).
Proof.
  split; simpl; rewrite Nat2Z.id;
    [apply length_map | apply length_replicate].
Qed.

Lemma ready_setup_loaded_info ls outs :
  Forall (fun l => 0 <= los_numPoints l) ls ->
  ready (setup_info (loaded_info env ls outs)).
Proof.
  intros Hls. split; simpl; [now rewrite Nat2Z.id |].
  now apply Forall_map.
Qed.

Lemma probe_parts_setup_info info :
  sized info ->
  map (fun j => part_ (setup_info info) !!! j)
      (seq 0 (Z.to_nat (numProbes_ (setup_info info))))
  = map Some (partName_ info).
Proof.
  intros [Hn _]. simpl. rewrite <- Hn.
  rewrite <- (length_map Some (partName_ info)).
  apply map_lookup_seq.
Qed.

(** After [setup] the part pointers of the probes are the parts named
    after the probes. *)
Lemma probe_parts_setup (d : DataProbePostProcessing) :
  Forall sized (all_probeInfo d) ->
  probe_parts (set_dataProbeSpecInfo (map setup_spec (dataProbeSpecInfo_ d)) d)
  = map Some (all_probe_names d).
Proof.
  unfold probe_parts, all_probe_names, all_probeInfo. simpl.
  generalize (dataProbeSpecInfo_ d). intros specs.
  induction specs as [| probeSpec specs IH]; intros Hsized; [reflexivity |].
  simpl in *. apply Forall_app in Hsized as [Hspec Hspecs].
  rewrite IH by done. rewrite flat_map_app, map_app. f_equal.
  clear IH Hspecs. induction Hspec as [| info infos Hinfo _ IHi];
    [reflexivity |].
  simpl. rewrite IHi, map_app. f_equal.
  now apply probe_parts_setup_info.
Qed.

(** X16: on a document all of whose specification entries are readable and
    ask for no negative number of points, and a mesh of two or three
    dimensions, the constructor, [setup] and [initialize] return one after
    the other, and the inactive selector is then the union of the parts
    named after the probes, in the order of the document. *)
Theorem readable_document_runs_to_the_selector
    (realm : Realm) (y_node y_dataProbe y_specs : Node) views :
  FindValue y_node "data_probes" = Some y_dataProbe ->
  expect_sequence y_dataProbe "specifications" false = Ok (Some y_specs) ->
  Forall2 decodes_specification (items y_specs) views ->
  Forall (fun v => Forall (fun l => 0 <= los_numPoints l) (view_los v)) views ->
  spatial_dimension (meta_data realm) = 2 \/
  spatial_dimension (meta_data realm) = 3 ->
  exists w1 w2 w3,
    constructor env realm y_node = (w1, Ok tt) /\
    setup w1 = (w2, Ok tt) /\
    initialize env w2 = (w3, Ok tt) /\
    get_inactive_selector w3
    = (w3, Ok (map Some (flat_map (fun v => map los_name (view_los v)) views))).
Proof.
  intros Hdp Hspecs Hviews Hpoints HnDim.
  set (d1 := set_dataProbeSpecInfo (map (loaded_spec env) views)
               (mkDataProbePostProcessing 10 [] [] [])).
  assert (E1 : constructor env realm y_node = (mkWorld d1 realm [], Ok tt)).
  { unfold constructor, load. rewrite Hdp.
    erewrite bind_Ok by (unfold call; rewrite Hspecs; reflexivity).
    cbv beta iota.
    now rewrite (load_specifications_ok env _ views Hviews). }
  assert (Hinfos : all_probeInfo d1
                   = map (fun v => loaded_info env (view_los v) (view_outputs v))
                       views)
    by apply all_probeInfo_loaded.
  assert (Hsized : Forall sized (all_probeInfo d1)).
  { rewrite Hinfos. apply Forall_map, Forall_forall.
    intros v _. apply sized_loaded_info. }
  pose proof (setup_effect (mkWorld d1 realm []) Hsized) as E2.
  cbn [this realm_ cout] in E2.
  set (w2 := mkWorld (set_dataProbeSpecInfo (map setup_spec (dataProbeSpecInfo_ d1)) d1)
               (set_meta_data (setup_meta (all_probeInfo d1) (meta_data realm))
                  realm) []) in *.
  assert (Hready : Forall ready (all_probeInfo (this w2))).
  { unfold all_probeInfo, w2. simpl.
    rewrite all_probeInfo_setup, all_probeInfo_loaded, map_map.
    apply Forall_map. eapply Forall_impl; [exact Hpoints |].
    intros v Hv. now apply ready_setup_loaded_info. }
  assert (HnDim2 : 0 <= to_int (spatial_dimension (meta_data (realm_ w2)))).
  { unfold w2. simpl.
    destruct (setup_meta_le (all_probeInfo d1) (meta_data realm)) as [-> _].
    now destruct HnDim as [-> | ->]. }
  destruct (initialize_effect env w2 Hready HnDim2)
    as (specs' & calls & writes & E3 & _).
  eexists _, w2, _. split; [exact E1 |]. split; [exact E2 |].
  split; [exact E3 |].
  unfold get_inactive_selector, gets. cbn [this inactiveSelector_].
  do 2 f_equal. unfold w2. cbn [this allTheParts_ set_dataProbeSpecInfo d1].
  rewrite (probe_parts_setup d1 Hsized). simpl. f_equal.
  unfold all_probe_names. rewrite Hinfos.
  clear. induction views as [| v views IH]; [reflexivity |].
  simpl. now rewrite IH.
Qed.

End Pipeline.

Lemma readable_document_runs_to_the_selector_witness :
  exists w1 w2 w3,
    constructor Scenario.rank0_of_2 Scenario.empty_realm
      (Tree.document [Scenario.good_spec; Scenario.spec_without_outputs])
    = (w1, Ok tt) /\
    setup w1 = (w2, Ok tt) /\
    @initialize Scenario.counting_engine Scenario.rank0_of_2 w2 = (w3, Ok tt) /\
    get_inactive_selector w3
    = (w3,
       Ok (map Some
             (flat_map (fun v => map los_name (view_los v))
                [mkSpecView "probes" ["block_1"]
                   [mkLineOfSite "probe_z" 3 (mkCoordinates 0 0 1)
                      (mkCoordinates 0 0 0)]
                   [("temperature", 1); ("velocity", 3)];
                 mkSpecView "bare" ["block_1"]
                   [mkLineOfSite "probe_a" 2 (mkCoordinates 1 0 0)
                      (mkCoordinates 0 0 0);
                    mkLineOfSite "probe_b" 4 (mkCoordinates 0 1 0)
                      (mkCoordinates 0 0 0)] []]))).
Proof.
  apply (@readable_document_runs_to_the_selector Tree.Doc Tree.api
           Scenario.counting_engine Scenario.rank0_of_2 Scenario.empty_realm
           (Tree.document [Scenario.good_spec; Scenario.spec_without_outputs])
           (Tree.Map [("specifications",
                       Tree.Seq [Scenario.good_spec;
                                 Scenario.spec_without_outputs])])
           (Tree.Seq [Scenario.good_spec; Scenario.spec_without_outputs])).
  - reflexivity.
  - reflexivity.
  - repeat constructor;
      [apply good_spec_decodes | apply spec_without_outputs_decodes].
  - repeat constructor; simpl; lia.
  - right. reflexivity.
Defined.

(* ===================================================================== *)
(** * Reading the coordinates back *)
(* ===================================================================== *)

Section ReadBack.

(** [place_probe_nodes] in two or three dimensions, for a point count
    whose predecessor is an [int]. *)
Lemma place_probe_nodes_points nDim j info bulk :
  nDim = 2 \/ nDim = 3 ->
  - 2 ^ 31 < numPoints_ info !!! j <= INT_MAX ->
  place_probe_nodes nDim j (info, bulk)
  = ((info,
      mkBulkData (bulk_calls bulk)
        (rev (placed_writes nDim
                (probe_point (tipCoordinates_ info !!! j)
                   (tailCoordinates_ info !!! j) (numPoints_ info !!! j))
                0 (nodeVector_ info !!! j))
         ++ field_writes bulk)), Ok tt).
Proof.
  intros HnDim Hpoints.
  destruct (place_probe_nodes_effect nDim j info bulk
              ltac:(destruct HnDim; lia))
    as (tipC & tailC & Etip & Etail & ->).
  do 3 f_equal. f_equal. f_equal.
  apply placed_writes_ext. intros jn i Hi. unfold probe_point.
  unfold spacing. rewrite to_int_small by (unfold INT_MAX in *; lia).
  destruct (tipCoordinates_ info !!! j) as [tx ty tz].
  destruct (tailCoordinates_ info !!! j) as [ax ay az].
  destruct HnDim as [-> | ->];
    injection Etip as <-; injection Etail as <-;
    destruct i as [| [| [| i]]];
    first [exfalso; simpl in Hi; lia | reflexivity].
Qed.

Lemma read_point_writes fieldName node (g : nat -> float) old n : forall i,
  (i < n)%nat ->
  read_writes fieldName node i
    (rev (map (fun k => (fieldName, node, k, g k)) (seq 0 n)) ++ old)
  = g i.
Proof.
  induction n as [| n IH]; intros i Hi; [lia |].
  rewrite seq_S, map_app, rev_app_distr. simpl.
  destruct (decide (i = n)) as [-> | Hne].
  - now rewrite decide_True.
  - rewrite decide_False by (intros (_ & _ & ?); lia).
    apply IH. lia.
Qed.

Lemma placed_writes_elsewhere nDim value node i (nodeVec : list Entity) :
  node ∉ nodeVec ->
  forall jn,
    Forall (fun wr : string * Entity * nat * float =>
              ~ (wr.1.1.1 = "coordinates" /\ wr.1.1.2 = node /\ wr.1.2 = i))
      (rev (placed_writes nDim value jn nodeVec)).
Proof.
  intros Hnot jn. apply Forall_rev.
  eapply Forall_impl;
    [apply (placed_writes_coordinate nDim value nodeVec nodeVec); done |].
  intros wr (_ & Hin & _) (_ & Heq & _). apply Hnot. now rewrite <- Heq.
Qed.

(** Reading the coordinates of a node of a probe whose nodes are
    distinct, after the loop of lines 355-360. *)
Lemma read_placed_writes nDim value (nodeVec : list Entity) :
  NoDup nodeVec ->
  forall start jn node i old,
    nodeVec !! jn = Some node -> (i < Z.to_nat nDim)%nat ->
    read_writes "coordinates" node i
      (rev (placed_writes nDim value start nodeVec) ++ old)
    = value (start + jn)%nat i.
Proof.
  induction 1 as [| n0 nodeVec Hn0 Hnodup IH];
    intros start jn node i old Hjn Hi; [done |].
  simpl. rewrite rev_app_distr, <- app_assoc.
  destruct jn as [| jn]; simpl in Hjn.
  - injection Hjn as ->.
    rewrite read_writes_app by now apply placed_writes_elsewhere.
    rewrite Nat.add_0_r. unfold point_writes.
    now apply (read_point_writes "coordinates" node (value start)).
  - rewrite (IH (S start) jn node i _ Hjn Hi). f_equal. lia.
Qed.

(** X17: in two or three dimensions, after [place_probe_nodes] on a probe
    whose nodes are distinct, component [i] of the coordinates of node [jn]
    of the probe reads as the tail plus [jn] steps of [(tip - tail) /
    (numPoints - 1)]: the writes to the other nodes and components, and the
    earlier writes to the field, do not show. *)
Theorem placed_coordinates_read_back nDim j info bulk jn node i :
  nDim = 2 \/ nDim = 3 ->
  1 <= numPoints_ info !!! j <= INT_MAX ->
  NoDup (nodeVector_ info !!! j) ->
  (nodeVector_ info !!! j) !! jn = Some node ->
  (i < Z.to_nat nDim)%nat ->
  read_field "coordinates" node i (place_probe_nodes nDim j (info, bulk)).1.2
  = probe_point (tipCoordinates_ info !!! j) (tailCoordinates_ info !!! j)
      (numPoints_ info !!! j) jn i.
Proof.
  intros HnDim Hpoints Hnodup Hnode Hi.
  rewrite place_probe_nodes_points by (done || lia).
  unfold read_field. simpl.
  now rewrite (read_placed_writes nDim _ _ Hnodup 0 jn node i).
Qed.

(** Whatever the numerator, no step of a quotient by zero is not a
    number, and so is its sum with anything. *)
Lemma zero_steps_of_quotient_by_zero (a d : float) :
  is_nan (a + 0 * (d / 0)) = true.
Proof.
  unfold is_nan. rewrite FloatAxioms.eqb_spec, add_spec, mul_spec, div_spec.
  change (Prim2SF 0) with (S754_zero false).
  destruct (Prim2SF d) as [sd | sd | | sd md ed],
           (Prim2SF a) as [sa | sa | | sa ma ea];
    try (destruct sd); try (destruct sa); reflexivity.
Qed.

(** X18: in two or three dimensions, the coordinates [place_probe_nodes]
    writes to the node of a probe of one point are not numbers, whatever the
    tip and the tail: the spacing is a quotient by [numPoints - 1], which is
    zero. *)
Theorem single_point_probe_gets_no_coordinates nDim j info bulk node i :
  nDim = 2 \/ nDim = 3 ->
  numPoints_ info !!! j = 1 ->
  nodeVector_ info !!! j = [node] ->
  (i < Z.to_nat nDim)%nat ->
  is_nan (read_field "coordinates" node i
            (place_probe_nodes nDim j (info, bulk)).1.2) = true.
Proof.
  intros HnDim Hpoints Hnodes Hi.
  rewrite place_probe_nodes_points
    by (done || rewrite Hpoints; unfold INT_MAX; lia).
  unfold read_field. simpl. rewrite Hnodes, Hpoints.
  rewrite (read_placed_writes nDim _ [node] (NoDup_singleton node) 0 0 node i)
    by done.
  unfold probe_point. simpl.
  change (to_double (1 - 1)) with 0%float.
  change (to_double 0) with 0%float.
  apply zero_steps_of_quotient_by_zero.
Qed.

End ReadBack.

Lemma placed_coordinates_read_back_witness :
  read_field "coordinates" 8 2
    (place_probe_nodes 3 0
       (mkDataProbeInfo true 1 ["probe_z"] [0] [3] [mkCoordinates 0 0 1]
          [mkCoordinates 0 0 0] [[7; 8; 9]] [Some "probe_z"] [],
        mkBulkData [] [("coordinates", 8, 2%nat, 5%float)])).1.2
  = probe_point (mkCoordinates 0 0 1) (mkCoordinates 0 0 0) 3 1 2.
Proof.
  apply (placed_coordinates_read_back 3 0
           (mkDataProbeInfo true 1 ["probe_z"] [0] [3] [mkCoordinates 0 0 1]
              [mkCoordinates 0 0 0] [[7; 8; 9]] [Some "probe_z"] [])
           (mkBulkData [] [("coordinates", 8, 2%nat, 5%float)]) 1 8 2).
  - now right.
  - unfold INT_MAX. simpl. lia.
  - simpl. repeat constructor; rewrite ?elem_of_cons, ?elem_of_nil; lia.
  - reflexivity.
  - simpl. lia.
Defined.

Lemma single_point_probe_gets_no_coordinates_witness :
  is_nan (read_field "coordinates" 7 0
            (place_probe_nodes 3 0
               (mkDataProbeInfo true 1 ["probe_z"] [0] [1]
                  [mkCoordinates 0 0 1] [mkCoordinates 0 0 0] [[7]]
                  [Some "probe_z"] [],
                mkBulkData [] [])).1.2) = true.
Proof.
  apply (single_point_probe_gets_no_coordinates 3 0
           (mkDataProbeInfo true 1 ["probe_z"] [0] [1] [mkCoordinates 0 0 1]
              [mkCoordinates 0 0 0] [[7]] [Some "probe_z"] [])
           (mkBulkData [] []) 7 0).
  - now right.
  - reflexivity.
  - reflexivity.
  - simpl. lia.
Defined.

(* ===================================================================== *)
(** * The exceptions of initialize and of the sampler *)
(* ===================================================================== *)

Section OnlyThrows.

Context {St : Type}.
Variable what : string.

Lemma only_throws_ret {A} (a : A) : only_throws what (ret a : Exc St A).
Proof. intros s s' w [=]. Qed.

Lemma only_throws_gets {A} (f : St -> A) : only_throws what (gets f).
Proof. intros s s' w [=]. Qed.

Lemma only_throws_modify (f : St -> St) : only_throws what (modify f).
Proof. intros s s' w [=]. Qed.

Lemma only_throws_call {A} (r : result A) :
  (forall w, r = Throw w -> w = what) -> only_throws what (call r : Exc St A).
Proof. intros Hr s s' w [= _ E]. now apply Hr. Qed.

Lemma only_throws_bind {A B} (c : Exc St A) (k : A -> Exc St B) :
  only_throws what c -> (forall a, only_throws what (k a)) ->
  only_throws what (bind c k).
Proof.
  intros Hc Hk s s' w. unfold bind.
  destruct (c s) as [s1 [a | w1]] eqn:E.
  - apply Hk.
  - intros [= _ <-]. eapply Hc, E.
Qed.

Lemma only_throws_for_each {A} (body : nat -> A -> Exc St unit) (v : list A) :
  (forall i x, only_throws what (body i x)) ->
  forall i, only_throws what (for_each body i v).
Proof.
  intros Hb. induction v as [| x v IH]; intros i; simpl.
  - apply only_throws_ret.
  - apply only_throws_bind; [apply Hb | intros _; apply IH].
Qed.

Lemma only_throws_for_int n (body : nat -> Exc St unit) :
  (forall i, only_throws what (body i)) -> only_throws what (for_int n body).
Proof. intros Hb. apply only_throws_for_each. intros _ x. apply Hb. Qed.

Lemma only_throws_zoom_each {A} (body : Exc (A * St) unit) (v : list A) :
  only_throws what body ->
  forall s s' w, zoom_each body v s = (s', Throw w) -> w = what.
Proof.
  intros Hb. induction v as [| x v IH]; intros s s' w; simpl; [intros [=] |].
  destruct (body (x, s)) as [[x' s1] [[] | w1]] eqn:E.
  - destruct (zoom_each body v s1) as [[v' s2] r] eqn:E2.
    intros [= _ ->]. eapply IH, E2.
  - intros [= _ <-]. eapply Hb, E.
Qed.

Lemma only_throws_each_probeInfo (body : Exc (DataProbeInfo * St) unit) :
  only_throws what body -> only_throws what (each_probeInfo body).
Proof.
  intros Hb [specs s] s' w. unfold each_probeInfo.
  apply only_throws_zoom_each. intros [probeSpec s0] s1 w1.
  destruct (zoom_each body (dataProbeInfo_ probeSpec) s0) as [[infos s2] r] eqn:E.
  intros [= _ ->]. eapply only_throws_zoom_each, E. exact Hb.
Qed.

(** A loop one of whose iterations throws whenever the observation [obs]
    is [t], the observation being kept by every iteration, throws. *)
Lemma throws_for_each_under {A T} (obs : St -> T) (t : T)
    (body : nat -> A -> Exc St unit) (v : list A) x :
  x ∈ v ->
  (forall i y, preserves obs (body i y)) ->
  (forall i s, obs s = t -> exists s' w, body i x s = (s', Throw w)) ->
  forall i s, obs s = t -> exists s' w, for_each body i v s = (s', Throw w).
Proof.
  intros Hin Hobs Hx. induction v as [| y v IH]; intros i s Hs.
  - inversion Hin.
  - rewrite for_each_cons. apply elem_of_cons in Hin as [<- | Hin].
    + destruct (Hx i s Hs) as (s' & w & ->). eauto.
    + pose proof (Hobs i y s) as Hkeep.
      destruct (body i y s) as [s1 [[] | w]]; [| eauto].
      apply IH; [done |]. simpl in Hkeep. congruence.
Qed.

Lemma throws_zoom_each {A} (body : Exc (A * St) unit) (v : list A) x :
  x ∈ v ->
  (forall s, exists x' s' w, body (x, s) = ((x', s'), Throw w)) ->
  forall s, exists v' s' w, zoom_each body v s = ((v', s'), Throw w).
Proof.
  intros Hin Hx. induction v as [| y v IH]; intros s.
  - inversion Hin.
  - simpl. apply elem_of_cons in Hin as [<- | Hin].
    + destruct (Hx s) as (x' & s' & w & ->). eauto.
    + destruct (body (y, s)) as [[y' s1] [[] | w]]; [| eauto].
      destruct (IH Hin s1) as (v' & s' & w & ->). eauto.
Qed.

Lemma zoom_each_preserves {A T} (obs : St -> T) (body : Exc (A * St) unit)
    (v : list A) :
  (forall x s, obs (body (x, s)).1.2 = obs s) ->
  forall s, obs (zoom_each body v s).1.2 = obs s.
Proof.
  intros Hb. induction v as [| x v IH]; intros s; [reflexivity |].
  simpl. specialize (Hb x s).
  destruct (body (x, s)) as [[x' s1] [[] | w]]; simpl in *; [| exact Hb].
  specialize (IH s1).
  destruct (zoom_each body v s1) as [[v' s2] r]. simpl in *. congruence.
Qed.

Lemma each_probeInfo_preserves {T} (obs : St -> T)
    (body : Exc (DataProbeInfo * St) unit) :
  (forall info s, obs (body (info, s)).1.2 = obs s) ->
  forall specs s, obs (each_probeInfo body (specs, s)).1.2 = obs s.
Proof.
  intros Hb specs s. unfold each_probeInfo.
  apply zoom_each_preserves. intros probeSpec s0.
  pose proof (zoom_each_preserves obs body (dataProbeInfo_ probeSpec) Hb s0).
  now destruct (zoom_each body (dataProbeInfo_ probeSpec) s0) as [[infos s1] r].
Qed.

End OnlyThrows.

Section LifecycleFailures.

Context {engine : MeshEngine}.
Variable env : NaluEnv.

Lemma vector_resize_only_throws {A} n (d : A) v w :
  vector_resize n d v = Throw w -> w = "std::length_error".
Proof. unfold vector_resize. destruct (n <? 0); now intros [=]. Qed.

Lemma coordinate_vector_only_throws nDim c w :
  coordinate_vector nDim c = Throw w -> w = "std::length_error".
Proof.
  unfold coordinate_vector.
  destruct (vector_resize nDim 0%float []) as [v | w'] eqn:E; [intros [=] |].
  intros [= <-]. now apply vector_resize_only_throws in E.
Qed.

Lemma only_throws_with_bulk what c :
  only_throws what c -> only_throws what (with_bulk c).
Proof.
  intros Hc w w' wh. unfold with_bulk.
  destruct (c _) as [[specs b] r] eqn:E. intros [= _ ->]. eapply Hc, E.
Qed.

(** One step of a proof that a computation throws nothing but
    [std::length_error]. *)
Ltac only_length_error :=
  repeat first
    [ apply only_throws_ret
    | apply only_throws_gets
    | apply only_throws_modify
    | apply only_throws_call; intros ?; apply vector_resize_only_throws
    | apply only_throws_for_int; intros ?
    | apply only_throws_for_each; intros ? ?
    | apply only_throws_bind; [| intros ?]
    | progress cbv zeta
    | match goal with |- only_throws _ (if ?b then _ else _) => destruct b end ].

Lemma only_throws_create_probe_nodes j :
  only_throws "std::length_error" (create_probe_nodes env j).
Proof. unfold create_probe_nodes. only_length_error. Qed.

Lemma only_throws_place_probe_nodes nDim j :
  only_throws "std::length_error" (place_probe_nodes nDim j).
Proof.
  unfold place_probe_nodes.
  apply only_throws_bind; [apply only_throws_gets | intros nodeVec].
  apply only_throws_bind;
    [intros s s' w [= _ E]; now apply coordinate_vector_only_throws in E
    | intros tipC].
  apply only_throws_bind;
    [intros s s' w [= _ E]; now apply coordinate_vector_only_throws in E
    | intros tailC].
  only_length_error.
Qed.

Lemma only_throws_initialize :
  only_throws "std::length_error" (initialize env).
Proof.
  unfold initialize.
  apply only_throws_bind; [| intros _; apply only_throws_bind].
  - apply only_throws_with_bulk, only_throws_each_probeInfo.
    apply only_throws_bind; [apply only_throws_gets | intros n].
    apply only_throws_for_int, only_throws_create_probe_nodes.
  - apply only_throws_gets.
  - intros nDim. apply only_throws_bind; [| intros _; apply only_throws_modify].
    apply only_throws_with_bulk, only_throws_each_probeInfo.
    apply only_throws_bind; [apply only_throws_gets | intros n].
    apply only_throws_for_int, only_throws_place_probe_nodes.
Qed.

Lemma only_throws_print l : only_throws "std::length_error" (print l).
Proof. apply only_throws_modify. Qed.

Lemma only_throws_provide_average currentTime timeStepCount :
  only_throws "std::length_error" (provide_average currentTime timeStepCount).
Proof.
  unfold provide_average, average_probe, average_field, print.
  only_length_error.
Qed.

Lemma only_throws_execute : only_throws "std::length_error" execute.
Proof.
  intros w w' wh. unfold execute. destruct (_ =? 0); [| intros [=]].
  apply only_throws_provide_average.
Qed.

Lemma create_probe_nodes_negative j s :
  numPoints_ s.1 !!! j < 0 ->
  create_probe_nodes env j s = (s, Throw "std::length_error").
Proof.
  intros Hneg. unfold create_probe_nodes, bind, gets, call, vector_resize.
  simpl. destruct (Z.ltb_spec (numPoints_ s.1 !!! j) 0); [reflexivity | lia].
Qed.

(** One step of a proof that a computation keeps an observation. *)
Ltac keeps_observation :=
  repeat first
    [ apply preserves_ret
    | apply preserves_gets
    | apply preserves_call
    | apply preserves_modify; intros ?; reflexivity
    | apply preserves_for_int; intros ?
    | apply preserves_for_each; intros ? ?
    | apply preserves_bind; [| intros ?]
    | progress cbv zeta
    | match goal with |- preserves _ (if ?b then _ else _) => destruct b end ].

Lemma create_probe_nodes_keeps_numPoints j :
  preserves (fun s : DataProbeInfo * BulkData => numPoints_ s.1)
    (create_probe_nodes env j).
Proof. unfold create_probe_nodes. keeps_observation. Qed.

Lemma create_probe_nodes_keeps_field_writes j :
  preserves (fun s : DataProbeInfo * BulkData => field_writes s.2)
    (create_probe_nodes env j).
Proof. unfold create_probe_nodes. keeps_observation. Qed.

(** The loop over the probes of a probe set one of whose probes has a
    negative point count. *)
Lemma create_info_nodes_negative info j bulk :
  (j < Z.to_nat (numProbes_ info))%nat ->
  numPoints_ info !!! j < 0 ->
  exists info' bulk',
    (numProbes <- gets (fun s : DataProbeInfo * BulkData => numProbes_ s.1) ;;
     for_int numProbes (create_probe_nodes env)) (info, bulk)
    = ((info', bulk'), Throw "std::length_error").
Proof.
  intros Hj Hneg. unfold bind at 1, gets at 1. simpl. unfold for_int.
  destruct (throws_for_each_under
              (fun s : DataProbeInfo * BulkData => numPoints_ s.1)
              (numPoints_ info) (fun _ j => create_probe_nodes env j)
              (seq 0 (Z.to_nat (numProbes_ info))) j)
    with (i := 0%nat) (s := (info, bulk)) as ([info' bulk'] & w & E).
  - apply elem_of_seq. lia.
  - intros _ k. apply create_probe_nodes_keeps_numPoints.
  - intros _ s Hs. exists s, "std::length_error".
    apply create_probe_nodes_negative. now rewrite Hs.
  - reflexivity.
  - exists info', bulk'. rewrite E. do 2 f_equal.
    eapply (only_throws_for_each "std::length_error"), E.
    intros ? k. apply only_throws_create_probe_nodes.
Qed.

Lemma each_probeInfo_throws {St} (body : Exc (DataProbeInfo * St) unit)
    info specs :
  info ∈ flat_map dataProbeInfo_ specs ->
  (forall s, exists info' s' w, body (info, s) = ((info', s'), Throw w)) ->
  forall s, exists specs' s' w,
    each_probeInfo body (specs, s) = ((specs', s'), Throw w).
Proof.
  intros [probeSpec [Hspec Hinfo]]%elem_of_flat_map Hbody s.
  unfold each_probeInfo.
  apply (throws_zoom_each _ specs probeSpec Hspec). intros s0.
  destruct (throws_zoom_each body (dataProbeInfo_ probeSpec) info Hinfo Hbody s0)
    as (infos' & s1 & w & ->).
  eauto.
Qed.

Lemma create_info_nodes_keeps_field_writes info s :
  field_writes
    ((numProbes <- gets (fun s : DataProbeInfo * BulkData => numProbes_ s.1) ;;
      for_int numProbes (create_probe_nodes env)) (info, s)).1.2
  = field_writes s.
Proof.
  apply (preserves_bind (fun s : DataProbeInfo * BulkData => field_writes s.2));
    [apply preserves_gets | intros n].
  apply preserves_for_int. intros j.
  apply create_probe_nodes_keeps_field_writes.
Qed.

(** X19: a probe with a negative point count makes [initialize] throw
    [std::length_error], from the vector of the identifiers; no coordinate
    has been written by then, and neither the parts of the object nor its
    inactive selector have been touched. *)
Theorem negative_point_count_stops_initialize (w : World) info j :
  info ∈ all_probeInfo (this w) ->
  (j < Z.to_nat (numProbes_ info))%nat ->
  numPoints_ info !!! j < 0 ->
  exists w',
    initialize env w = (w', Throw "std::length_error") /\
    allTheParts_ (this w') = allTheParts_ (this w) /\
    inactiveSelector_ (this w') = inactiveSelector_ (this w) /\
    field_writes (bulk_data (realm_ w'))
    = field_writes (bulk_data (realm_ w)).
Proof.
  intros Hinfo Hj Hneg. unfold all_probeInfo in Hinfo.
  set (body := (numProbes <- gets (fun s : DataProbeInfo * BulkData =>
                                     numProbes_ s.1) ;;
                for_int numProbes (create_probe_nodes env))).
  destruct (each_probeInfo_throws body info (dataProbeSpecInfo_ (this w)) Hinfo)
    with (s := bulk_data (realm_ w)) as (specs' & bulk' & what & E).
  { intros s.
    destruct (create_info_nodes_negative info j s Hj Hneg) as (i' & b' & E).
    eauto. }
  assert (what = "std::length_error") as ->.
  { eapply (only_throws_each_probeInfo "std::length_error" body), E.
    apply only_throws_bind; [apply only_throws_gets | intros n].
    apply only_throws_for_int, only_throws_create_probe_nodes. }
  pose proof (each_probeInfo_preserves field_writes body
                create_info_nodes_keeps_field_writes
                (dataProbeSpecInfo_ (this w)) (bulk_data (realm_ w))) as Hfw.
  rewrite E in Hfw. simpl in Hfw.
  eexists. split.
  - unfold initialize. apply bind_Throw. unfold with_bulk. fold body.
    rewrite E. reflexivity.
  - now repeat split.
Qed.

Lemma average_field_negative nodeVec numPoints (fi : string * Z) :
  fi.2 < 0 -> throws (average_field nodeVec numPoints fi).
Proof.
  intros Hneg w. unfold average_field, bind, call, vector_resize.
  destruct (Z.ltb_spec fi.2 0); [eauto | lia].
Qed.

Lemma provide_average_keeps_realm currentTime timeStepCount :
  preserves realm_ (provide_average currentTime timeStepCount).
Proof.
  unfold provide_average, average_probe, average_field, print.
  keeps_observation.
Qed.

Lemma execute_keeps_realm : preserves realm_ execute.
Proof.
  intros w. unfold execute. destruct (_ =? 0); [| reflexivity].
  apply provide_average_keeps_realm.
Qed.

(** X20: at an output step, a requested field of negative size on a probe
    set that has a probe makes [execute] throw [std::length_error], from the
    vector of the means; the header of the report is on the console by then,
    and neither the object nor the realm has changed. *)
Theorem negative_field_size_stops_the_sampler (w : World) probeSpec info
    (fi : string * Z) :
  Z.rem (time_step_count (realm_ w)) (outputFreq_ (this w)) = 0 ->
  probeSpec ∈ dataProbeSpecInfo_ (this w) ->
  info ∈ dataProbeInfo_ probeSpec ->
  0 < numProbes_ info ->
  fi ∈ fieldInfo_ info ->
  fi.2 < 0 ->
  exists w' lines,
    execute w = (w', Throw "std::length_error") /\
    this w' = this w /\ realm_ w' = realm_ w /\
    cout w'
    = cout w ++ AverageHeader (current_time (realm_ w))
                  (to_double (time_step_count (realm_ w))) :: lines.
Proof.
  intros Hstep Hspec Hinfo Hprobes Hfi Hneg.
  assert (Hthrows : exists w' what, execute w = (w', Throw what)).
  { unfold execute. rewrite (proj2 (Z.eqb_eq _ _) Hstep).
    unfold provide_average. unfold bind at 1, print at 1, modify at 1.
    unfold bind at 1, gets at 1. cbn [this].
    apply (throws_for_each _ _ probeSpec Hspec). intros i.
    apply throws_bind_r. intros _.
    apply (throws_for_each _ _ info Hinfo). intros k.
    apply (throws_for_each _ (seq 0 (Z.to_nat (numProbes_ info))) 0%nat);
      [apply elem_of_seq; lia |].
    intros _. unfold average_probe. apply throws_bind_r. intros _.
    apply (throws_for_each _ _ fi Hfi). intros _.
    now apply average_field_negative. }
  destruct Hthrows as (w' & what & E).
  assert (what = "std::length_error") as ->
    by (eapply only_throws_execute, E).
  pose proof (execute_preserves_this (fun d => d) w) as Hthis.
  pose proof (execute_keeps_realm w) as Hrealm.
  destruct (provide_average_header (current_time (realm_ w))
              (to_double (time_step_count (realm_ w))) w) as (lines & Hcout).
  assert (Hexec : execute w
                  = provide_average (current_time (realm_ w))
                      (to_double (time_step_count (realm_ w))) w).
  { unfold execute. now rewrite (proj2 (Z.eqb_eq _ _) Hstep). }
  rewrite <- Hexec in Hcout. rewrite E in Hthis, Hrealm, Hcout. simpl in *.
  exists w', lines. now repeat split.
Qed.

(** X21: on a world where [execute] has a defined behaviour ([sampleable]),
    [execute] changes neither the object nor the realm and only adds lines
    to the console, whether it returns or throws. *)
Theorem execute_only_observes (w : World) :
  sampleable w ->
  this (execute w).1 = this w /\
  realm_ (execute w).1 = realm_ w /\
  exists lines, cout (execute w).1 = cout w ++ lines.
Proof.
  intros _.
  split; [exact (execute_preserves_this (fun d => d) w) |].
  split; [exact (execute_keeps_realm w) |].
  unfold execute. destruct (_ =? 0); [| exists []; now rewrite app_nil_r].
  apply (extends_bind (print _)); [apply extends_print | intros _].
  apply extends_bind; [apply extends_gets | intros specs].
  apply extends_for_each. intros _ probeSpec.
  apply extends_bind; [apply extends_print | intros _].
  apply extends_for_each. intros _ probeInfo.
  apply extends_for_int. intros inp. unfold average_probe.
  apply extends_bind; [apply extends_print | intros _].
  apply extends_for_each. intros _ fi. unfold average_field.
  apply extends_bind; [apply extends_call | intros zeros].
  apply extends_bind; [apply extends_gets | intros bulk].
  apply extends_for_int. intros ifs. apply extends_print.
Qed.

End LifecycleFailures.

Lemma execute_only_observes_witness :
  this (execute good_world_rank0).1 = this good_world_rank0 /\
  realm_ (execute good_world_rank0).1 = realm_ good_world_rank0 /\
  exists lines,
    cout (execute good_world_rank0).1 = cout good_world_rank0 ++ lines.
Proof.
  apply (execute_only_observes good_world_rank0).
  apply (bool_decide_unpack _). vm_compute. reflexivity.
Defined.

Lemma negative_point_count_stops_initialize_witness :
  exists w',
    @initialize Scenario.counting_engine Scenario.rank0_of_2
      negative_points_world
    = (w', Throw "std::length_error") /\
    allTheParts_ (this w') = allTheParts_ (this negative_points_world) /\
    inactiveSelector_ (this w')
    = inactiveSelector_ (this negative_points_world) /\
    field_writes (bulk_data (realm_ w'))
    = field_writes (bulk_data (realm_ negative_points_world)).
Proof.
  apply (@negative_point_count_stops_initialize Scenario.counting_engine
           Scenario.rank0_of_2 negative_points_world
           (mkDataProbeInfo true 1 ["probe_n"] [0] [-1] [mkCoordinates 0 0 1]
              [mkCoordinates 0 0 0] [[]] [Some "probe_n"] [])
           0%nat).
  - apply list_elem_of_here.
  - simpl. lia.
  - simpl. lia.
Defined.

Lemma negative_field_size_stops_the_sampler_witness :
  exists w' lines,
    execute negative_size_world = (w', Throw "std::length_error") /\
    this w' = this negative_size_world /\
    realm_ w' = realm_ negative_size_world /\
    cout w'
    = cout negative_size_world
        ++ AverageHeader (current_time (realm_ negative_size_world))
             (to_double (time_step_count (realm_ negative_size_world)))
           :: lines.
Proof.
  apply (negative_field_size_stops_the_sampler negative_size_world
           (mkDataProbeSpecInfo "negative" ["block_1"]
              [mkDataProbeInfo true 1 ["probe_n"] [0] [2]
                 [mkCoordinates 0 0 1] [mkCoordinates 0 0 0] [[0; 1]]
                 [Some "probe_n"] [("temperature_probe", -1)]])
           (mkDataProbeInfo true 1 ["probe_n"] [0] [2] [mkCoordinates 0 0 1]
              [mkCoordinates 0 0 0] [[0; 1]] [Some "probe_n"]
              [("temperature_probe", -1)])
           ("temperature_probe", -1)).
  - reflexivity.
  - apply list_elem_of_here.
  - apply list_elem_of_here.
  - simpl. lia.
  - apply list_elem_of_here.
  - simpl. lia.
Defined.

(* ===================================================================== *)
(** * A document without the probes' section *)
(* ===================================================================== *)

Section NoProbes.

Context {Node : Type} {yaml : YamlApi Node} {engine : MeshEngine}.
Variable env : NaluEnv.

(** X22: on a document without the key "data_probes" the constructor
    returns with an empty registry and the output frequency 10; [setup] and
    [initialize] then return and leave the world, realm included, as it is;
    the inactive selector selects nothing; and a report consists of its
    header. *)
Theorem document_without_probes_is_inert (realm : Realm) (y_node : Node)
    currentTime timeStepCount :
  FindValue y_node "data_probes" = None ->
  constructor env realm y_node
  = (mkWorld (mkDataProbePostProcessing 10 [] [] []) realm [], Ok tt) /\
  setup (mkWorld (mkDataProbePostProcessing 10 [] [] []) realm [])
  = (mkWorld (mkDataProbePostProcessing 10 [] [] []) realm [], Ok tt) /\
  initialize env (mkWorld (mkDataProbePostProcessing 10 [] [] []) realm [])
  = (mkWorld (mkDataProbePostProcessing 10 [] [] []) realm [], Ok tt) /\
  get_inactive_selector
    (mkWorld (mkDataProbePostProcessing 10 [] [] []) realm [])
  = (mkWorld (mkDataProbePostProcessing 10 [] [] []) realm [], Ok []) /\
  provide_average currentTime timeStepCount
    (mkWorld (mkDataProbePostProcessing 10 [] [] []) realm [])
  = (mkWorld (mkDataProbePostProcessing 10 [] [] []) realm
       [AverageHeader currentTime timeStepCount], Ok tt).
Proof.
  intros Hnone. split.
  - unfold constructor.
    now rewrite (load_without_probes env y_node _ Hnone).
  - destruct realm as [t c m b]. repeat split.
Qed.

End NoProbes.

Lemma document_without_probes_is_inert_witness :
  constructor Scenario.rank0_of_2 Scenario.empty_realm
    (Tree.Map [("linear_solvers", Tree.Seq [])])
  = (mkWorld (mkDataProbePostProcessing 10 [] [] []) Scenario.empty_realm [],
     Ok tt) /\
  @initialize Scenario.counting_engine Scenario.rank0_of_2
    (mkWorld (mkDataProbePostProcessing 10 [] [] []) Scenario.empty_realm [])
  = (mkWorld (mkDataProbePostProcessing 10 [] [] []) Scenario.empty_realm [],
     Ok tt).
Proof.
  destruct (@document_without_probes_is_inert Tree.Doc Tree.api
              Scenario.counting_engine Scenario.rank0_of_2
              Scenario.empty_realm
              (Tree.Map [("linear_solvers", Tree.Seq [])])
              0%float 0%float)
    as (Hc & _ & Hi & _).
  - reflexivity.
  - split; [exact Hc | exact Hi].
Defined.

(* ===================================================================== *)
(** * The exceptions of the loader *)
(* ===================================================================== *)

Section ThrowsWithin.

Context {St : Type}.
Variable P : string -> Prop.

Lemma throws_within_ret {A} (a : A) : throws_within P (ret a : Exc St A).
Proof. intros s s' w [=]. Qed.

Lemma throws_within_modify (f : St -> St) : throws_within P (modify f).
Proof. intros s s' w [=]. Qed.

Lemma throws_within_throw {A} w : P w -> throws_within P (throw w : Exc St A).
Proof. intros Hw s s' w' [= _ <-]. exact Hw. Qed.

Lemma throws_within_call {A} (r : result A) :
  (forall w, r = Throw w -> P w) -> throws_within P (call r : Exc St A).
Proof. intros Hr s s' w [= _ E]. now apply Hr. Qed.

Lemma throws_within_bind {A B} (c : Exc St A) (k : A -> Exc St B) :
  throws_within P c -> (forall a, throws_within P (k a)) ->
  throws_within P (bind c k).
Proof.
  intros Hc Hk s s' w. unfold bind.
  destruct (c s) as [s1 [a | w1]] eqn:E.
  - apply Hk.
  - intros [= _ <-]. eapply Hc, E.
Qed.

Lemma throws_within_for_each {A} (body : nat -> A -> Exc St unit) (v : list A) :
  (forall i x, throws_within P (body i x)) ->
  forall i, throws_within P (for_each body i v).
Proof.
  intros Hb. induction v as [| x v IH]; intros i; simpl.
  - apply throws_within_ret.
  - apply throws_within_bind; [apply Hb | intros _; apply IH].
Qed.

End ThrowsWithin.

Section LoaderExceptions.

Context {Node : Type} {yaml : YamlApi Node}.
Variable env : NaluEnv.

Lemma loader_diagnostic_exception what :
  what ∈ loader_diagnostics -> loader_exception what.
Proof. now left. Qed.

Lemma resize_member_exception {A} get set n (dflt : A) :
  throws_within loader_exception (resize_member get set n dflt).
Proof.
  intros o o' w. unfold resize_member.
  destruct (vector_resize n dflt (get o.2)) as [v | w'] eqn:E; [intros [=] |].
  intros [= _ <-]. right. right. left.
  unfold vector_resize in E. destruct (n <? 0); now inversion E.
Qed.

(** One step of a proof that a part of the loader throws nothing but the
    exceptions of [loader_exception]. *)
Ltac loader_throws :=
  repeat first
    [ apply throws_within_ret
    | apply throws_within_modify
    | apply resize_member_exception
    | apply throws_within_throw, loader_diagnostic_exception;
      unfold loader_diagnostics; rewrite !elem_of_cons; tauto
    | apply throws_within_call; intros ? ?; right; left;
      unfold from_parser; eauto 8
    | apply throws_within_for_each; intros ? ?
    | apply throws_within_bind; [| intros ?]
    | progress cbv zeta
    | match goal with
      | |- throws_within _ (match ?x with _ => _ end) => destruct x
      end ].

Lemma load_specification_body_exception (y_spec : Node) :
  throws_within loader_exception (load_specification_body env y_spec).
Proof.
  unfold load_specification_body, load_xferName, load_fromTargetNames,
    load_line_of_site_specifications, load_line_of_site, load_output_variable,
    on_probeSpec, on_probeInfo.
  loader_throws.
Qed.

(** X23: an exception that leaves [load] is one of the eight
    diagnostics of the loader, an exception of the parser (of a lookup, of
    a conversion or of [expect_sequence]), [std::length_error] of a
    [resize] by a negative count, or [std::bad_alloc] of an allocation that
    fails. *)
Theorem load_throws_only_its_diagnostics (y_node : Node) self what :
  (load env y_node self).2 = Throw what -> loader_exception what.
Proof.
  intros H. destruct (load env y_node self) as [self' r] eqn:E.
  simpl in H. subst r. revert self self' what E.
  change (throws_within loader_exception (load env y_node)).
  unfold load. destruct (FindValue y_node "data_probes");
    [| apply throws_within_ret].
  apply throws_within_bind.
  - apply throws_within_call. intros w Hw. right. left.
    unfold from_parser. eauto 8.
  - intros [y_specs |]; [| apply throws_within_ret].
    apply throws_within_for_each. intros i y_spec self self' w.
    rewrite load_specification_eq. intros [= _ Hout].
    unfold spec_outcome in Hout.
    destruct (load_specification_body env y_spec fresh_objects) as [o r] eqn:E.
    simpl in Hout. subst r.
    eapply load_specification_body_exception, E.
Qed.

End LoaderExceptions.

Lemma load_throws_only_its_diagnostics_witness :
  loader_exception "DataProbePostProcessing: lacking tail coordinates".
Proof.
  apply (load_throws_only_its_diagnostics Scenario.rank0_of_2
           (Tree.document [Scenario.good_spec; Scenario.spec_with_tailless_entry])
           Scenario.empty_module).
  vm_compute. reflexivity.
Defined.
